(** * Availability checker for the Chichu Art Museum reservation page

    A shallow embedding of [chichu_availability_checker.py]: the full-page
    text heuristic [looks_available], the single-date entry point [main] and
    the multi-date script that runs under [if __name__ == "__main__"].

    Python strings are sequences of Unicode code points, so a text is a list
    of code points ([N]); the browser is an abstract, stateful interface whose
    every call either returns a value or raises, and so is what the entry
    points ask of the machine before the page exists. *)

From Stdlib Require Import List NArith ZArith String Ascii Bool Lia.
Import ListNotations.

Set Implicit Arguments.

(** ** Texts *)

Module Text.

Definition codepoint := N.
Definition text := list codepoint.

(** An ASCII literal of the source as a text. *)
Definition str (s : string) : text := map N_of_ascii (list_ascii_of_string s).

Definition text_eqb (a b : text) : bool :=
  if list_eq_dec N.eq_dec a b then true else false.

(** [prefix_of p t]: [t.startswith(p)]. *)
Fixpoint prefix_of (p t : text) : bool :=
  match p, t with
  | [], _ => true
  | _ :: _, [] => false
  | a :: p', b :: t' => N.eqb a b && prefix_of p' t'
  end.

(** [contains needle hay]: Python's [needle in hay] on strings. *)
Fixpoint contains (needle hay : text) : bool :=
  prefix_of needle hay ||
  match hay with
  | [] => false
  | _ :: hay' => contains needle hay'
  end.

(** [sep.join(parts)]. *)
Fixpoint join (sep : text) (parts : list text) : text :=
  match parts with
  | [] => []
  | [p] => p
  | p :: rest => p ++ sep ++ join sep rest
  end.

(** [s[:n]]. *)
Definition take (n : nat) (s : text) : text := firstn n s.

(** [s.replace(a, b)] for single characters [a] and [b]. *)
Definition replace_char (a b : codepoint) (s : text) : text :=
  map (fun c => if N.eqb c a then b else c) s.

Definition Infix (needle hay : text) : Prop :=
  exists pre post, hay = pre ++ needle ++ post.

End Text.
Import Text.

(** ** The regular expressions of the full-page heuristic

    The six patterns of [AVAILABILITY_NEGATIVE] and [AVAILABILITY_POSITIVE]
    are sequences of literals, character sets and [\s*]; [re.search] is
    called with [re.I] on a [str], hence with Unicode matching. *)

Module Regex.

Local Open Scope N_scope.

(** [\s] on a [str] pattern: the code points for which CPython's
    [Py_UNICODE_ISSPACE] holds. *)
Definition is_space (c : codepoint) : bool :=
  ((9 <=? c) && (c <=? 13)) || ((28 <=? c) && (c <=? 32))
  || (c =? 133) || (c =? 160) || (c =? 5760)
  || ((8192 <=? c) && (c <=? 8202))
  || (c =? 8232) || (c =? 8233) || (c =? 8239) || (c =? 8287) || (c =? 12288).

Definition lower_ascii (c : codepoint) : codepoint :=
  if (65 <=? c) && (c <=? 90) then c + 32 else c.

(** [ci_match p c]: the text character [c] matches the pattern literal [p]
    under [re.IGNORECASE].  The engine lowers [c] with the simple lowercase
    mapping and compares it with the lowered [p] and the other members of
    its case class.  The literals of this program are ASCII letters and
    uncased symbols; besides the ASCII letters themselves the code points
    that reach an ASCII letter this way are U+0130 and U+0131 (for i),
    U+017F (for s) and U+212A (for k). *)
Definition ci_match (p c : codepoint) : bool :=
  let lo := lower_ascii p in
  (lower_ascii c =? lo)
  || ((lo =? 107) && (c =? 8490))
  || ((lo =? 105) && ((c =? 304) || (c =? 305)))
  || ((lo =? 115) && (c =? 383)).

Inductive atom :=
| Lit (c : codepoint)            (* a literal character *)
| OneOf (cs : list codepoint)    (* [...] *)
| Space.                         (* \s *)

Inductive item :=
| Once (a : atom)
| Many (a : atom).               (* a* *)

Definition pattern := list item.

Definition atom_match (a : atom) (c : codepoint) : bool :=
  match a with
  | Lit p => ci_match p c
  | OneOf cs => existsb (fun p => ci_match p c) cs
  | Space => is_space c
  end.

(** A match of the whole pattern anchored at the head of the text.  The
    starred atom tries every number of repetitions, as backtracking does. *)
Fixpoint match_here (p : pattern) (t : text) {struct p} : bool :=
  match p with
  | [] => true
  | Once a :: p' =>
      match t with
      | [] => false
      | c :: t' => atom_match a c && match_here p' t'
      end
  | Many a :: p' =>
      (fix star (t : text) : bool :=
         match_here p' t ||
         match t with
         | [] => false
         | c :: t' => atom_match a c && star t'
         end) t
  end.

(** [re.search(p, t, flags=re.I) is not None]. *)
Fixpoint search (p : pattern) (t : text) : bool :=
  match_here p t ||
  match t with
  | [] => false
  | _ :: t' => search p t'
  end.

(** The words a pattern denotes. *)
Inductive matches : pattern -> text -> Prop :=
| matches_nil : matches [] []
| matches_once a c p m :
    atom_match a c = true -> matches p m -> matches (Once a :: p) (c :: m)
| matches_many_stop a p m :
    matches p m -> matches (Many a :: p) m
| matches_many_more a c p m :
    atom_match a c = true -> matches (Many a :: p) m ->
    matches (Many a :: p) (c :: m).

(** Some substring of the text is a word of the pattern. *)
Definition occurs (p : pattern) (t : text) : Prop :=
  exists pre m post, t = pre ++ m ++ post /\ matches p m.

Definition lits (s : string) : pattern := map (fun c => Once (Lit c)) (str s).

End Regex.
Import Regex.

(** ** Configuration constants *)

Definition cross_chars : list codepoint := [215; 10005; 10006]%N.   (* × ✕ ✖ *)
Definition circle_chars : list codepoint := [9675; 9711]%N.         (* ○ ◯ *)
Definition triangle_char : codepoint := 9651%N.                     (* △ *)

Definition AVAILABILITY_POSITIVE : list pattern :=
  [ [Once (OneOf circle_chars)];                       (* r"[○◯]" *)
    [Once (Lit triangle_char)] ].                      (* r"△" *)

Definition AVAILABILITY_NEGATIVE : list pattern :=
  [ lits "Sold" ++ [Many Space] ++ lits "out";         (* r"Sold\s*out" *)
    lits "Fully" ++ [Many Space] ++ lits "booked";     (* r"Fully\s*booked" *)
    lits "Unavailable";                                (* r"Unavailable" *)
    [Once (OneOf cross_chars)] ].                      (* r"[×✕✖]" *)

(** ** [looks_available] *)

(** [for pat in pats: if re.search(pat, text, flags=re.I): return ...]:
    whether the loop reaches its [return]. *)
Fixpoint any_search (pats : list pattern) (t : text) : bool :=
  match pats with
  | [] => false
  | pat :: rest => if search pat t then true else any_search rest t
  end.

Definition looks_available (t : text) : bool :=
  if any_search AVAILABILITY_NEGATIVE t then false
  else if any_search AVAILABILITY_POSITIVE t then true
  else false.

(** The three verdicts, the strings "AVAILABLE", "UNAVAILABLE" and
    "UNSURE" of the source. *)
Inductive Verdict := AVAILABLE | UNAVAILABLE | UNSURE.

(** The verdict the specification reads off the boolean of
    [looks_available]: [True] is AVAILABLE and [False] is UNAVAILABLE. *)
Definition page_verdict (t : text) : Verdict :=
  if looks_available t then AVAILABLE else UNAVAILABLE.

(** ** Python values, exceptions and the interpreter's services *)

Module Py.

(** The exceptions the script can meet; all of them derive from
    [Exception]. *)
Inductive exn :=
| PlaywrightTimeoutError (msg : text)
| ValueError (msg : text)
| Error (msg : text).

(** [str(e)]. *)
Definition exn_str (e : exn) : text :=
  match e with
  | PlaywrightTimeoutError m | ValueError m | Error m => m
  end.

Inductive outcome (A : Type) :=
| Val (a : A)
| Exc (e : exn).
Arguments Exc {A} e.

(** [s.split(sep)] with an explicit one-character separator. *)
Fixpoint split_on (sep : codepoint) (t : text) : list text :=
  match t with
  | [] => [[]]
  | c :: t' =>
      let r := split_on sep t' in
      if N.eqb c sep then [] :: r
      else match r with
           | [] => [[c]]
           | w :: ws => (c :: w) :: ws
           end
  end.

(** [a, b, c = parts]. *)
Definition unpack3 (parts : list text) : outcome (text * text * text) :=
  match parts with
  | [a; b; c] => Val (a, b, c)
  | [_] => Exc (ValueError (str "not enough values to unpack (expected 3, got 1)"))
  | [_; _] => Exc (ValueError (str "not enough values to unpack (expected 3, got 2)"))
  | _ => Exc (ValueError (str "too many values to unpack (expected 3)"))
  end.

(** What the script asks of the interpreter and its libraries on
    arbitrary Unicode text. *)
Record Runtime := {
  py_int : text -> outcome Z;          (* int(s) *)
  py_lower : text -> text;             (* s.lower() *)
  py_strip_isdigit : text -> bool;     (* s.strip().isdigit() *)
  month_search : text -> option text;  (* m = re.search(month_pattern, s, re.I); m.group() *)
}.

(** A value in a boolean position. *)
Definition truthy {A} (o : option A) : bool :=
  match o with Some _ => true | None => false end.

Definition nonempty (o : option text) : bool :=
  match o with Some (_ :: _) => true | _ => false end.

End Py.
Import Py.

(** ** The browser *)

Module Playwright.

Definition elem := nat.     (* an ElementHandle *)
Definition frame := nat.    (* a Frame *)

(** The object a page-level call is sent to: the page or the content frame
    of the calendar iframe. *)
Inductive doc := Page | Frame (f : frame).

Inductive scope := in_doc (d : doc) | in_elem (e : elem).

(** The selector strings of the source. *)
Inductive selector :=
| sel_ok_button            (* 'button:has-text("OK")' *)
| sel_calendar_iframe      (* '#bsvCalendarIframe, iframe[src*="calendar"]' *)
| sel_next_arrow           (* 'img[src*="arrow_next_calendar.svg"]' *)
| sel_prev_arrow           (* 'img[src*="arrow_prev_calendar.svg"]' *)
| sel_title_day (day : Z)  (* f'.title-day:has-text("{target_day}")' *)
| sel_button_text (day : Z)  (* f'button:has-text("{target_day}")' *)
| sel_span_text (day : Z)  (* f'span:has-text("{target_day}")' *)
| sel_ancestor_button      (* 'xpath=ancestor::button' *)
| sel_available_img        (* 'img[src*="available.svg"]' *)
| sel_sold_out_img         (* 'img[src*="sold_out.svg"]' *)
| sel_few_left_img         (* 'img[src*="only_one_left.svg"]' *)
| sel_all_title_days       (* '.title-day' *)
| sel_date_input           (* 'input[type="date"]' *)
| sel_calendar_button      (* '[aria-label*="calendar" i], button:has-text("Calendar")' *)
| sel_data_date (d : text) (* f'[data-date="{TARGET_DATE}"]' *)
| sel_td_aria (day : Z)    (* f'td[aria-label*="{int(dd)}" i]' *)
| sel_td_text (day : Z).   (* f'td:has-text("{int(dd)}")' *)

(** A browser session over a world [W]: every call answers with a value or
    raises, and leaves the world in a new state. *)
Record Browser (W : Type) := {
  goto : text -> Z -> W -> outcome unit * W;
  wait_for_timeout : doc -> Z -> W -> outcome unit * W;
  query_selector : scope -> selector -> W -> outcome (option elem) * W;
  query_selector_all : doc -> selector -> W -> outcome (list elem) * W;
  is_visible : elem -> W -> outcome bool * W;
  click : elem -> W -> outcome unit * W;
  fill : elem -> text -> W -> outcome unit * W;
  get_attribute : elem -> text -> W -> outcome (option text) * W;
  content_frame : elem -> W -> outcome (option frame) * W;
  body_inner_text : doc -> W -> outcome text * W;    (* d.inner_text('body') *)
  inner_text : elem -> W -> outcome text * W;
  inner_html : elem -> W -> outcome text * W;
  tag_name : elem -> W -> outcome text * W;          (* e.evaluate('el => el.tagName') *)
  (* d.evaluate of the script that walks up to the enclosing BUTTON *)
  closest_button : doc -> elem -> W -> outcome (option elem) * W;
  screenshot : doc -> text -> W -> outcome unit * W; (* d.screenshot(path=..., full_page=True) *)
  context_close : W -> outcome unit * W;
  browser_close : W -> outcome unit * W;
}.

(** What the entry points ask for before the page exists: the directory
    of the screenshots, Playwright as a context manager, the browser, its
    context and the page. *)
Record Host (W : Type) := {
  makedirs : W -> outcome unit * W;          (* os.makedirs("screenshots", exist_ok=True) *)
  playwright_start : W -> outcome unit * W;  (* sync_playwright().__enter__() *)
  playwright_stop : W -> outcome unit * W;   (* its __exit__(...) *)
  launch : W -> outcome unit * W;            (* p.chromium.launch(headless=HEADLESS) *)
  new_context : W -> outcome unit * W;       (* browser.new_context() *)
  new_page : W -> outcome unit * W;          (* context.new_page() *)
}.

End Playwright.
Import Playwright.

(** ** What a run leaves behind *)

Record entry := {
  e_date : text;
  e_verdict : Verdict;
  e_evidence : text;
}.

(** The [.click()] call sites. *)
Inductive click_site :=
| at_popup_ok        (* popup_btn.click() *)
| at_next_before     (* next_btn.click(), before the date loop *)
| at_next_in_loop    (* next_arrow.click(), inside the date loop *)
| at_calendar_button (* btn.click() in main *)
| at_date_cell.      (* el.click() in main *)

Inductive channel := Desktop | Telegram | Email.

(** The lines of standard output the properties speak of; the other
    [print] calls of the source only report progress and are left out. *)
Inductive message :=
| msg_available_days (days : list text)
| msg_summary_header
| msg_summary_row (r : entry)
| msg_heuristic (is_open : bool)
| msg_error_timeout
| msg_error (e : exn).

(** The calls the script issues, in order, recorded when they are made. *)
Inductive event :=
| ev_click (site : click_site) (e : elem)
| ev_screenshot (target : doc) (path : text)
| ev_print (m : message)
| ev_notify (ch : channel) (subject body : text)
| ev_close_context
| ev_close_browser.

Definition is_next_click (ev : event) : bool :=
  match ev with
  | ev_click at_next_before _ | ev_click at_next_in_loop _ => true
  | _ => false
  end.

Definition is_notify (ev : event) : bool :=
  match ev with ev_notify _ _ _ => true | _ => false end.

Definition is_summary (ev : event) : bool :=
  match ev with
  | ev_print msg_summary_header | ev_print (msg_summary_row _) => true
  | _ => false
  end.

Definition is_day_listing (ev : event) : bool :=
  match ev with ev_print (msg_available_days _) => true | _ => false end.

Definition is_screenshot (ev : event) : bool :=
  match ev with ev_screenshot _ _ => true | _ => false end.

Definition next_clicks (tr : list event) : nat :=
  List.length (filter is_next_click tr).

(** How the interpreter's process ends: exit code 0 when the script runs
    to its end, and a traceback with exit code 1 when an exception leaves
    it. *)
Inductive ending := Exit (code : Z) | Traceback (e : exn).

Definition exit_code (x : ending) : Z :=
  match x with Exit c => c | Traceback _ => 1%Z end.

(** ** Configuration read from the environment *)

Record Config := {
  TARGET_URL : text;
  TARGET_DATE : text;
  TIMEOUT_MS : Z;
  DESKTOP_NOTIFY : bool;
  TELEGRAM_BOT_TOKEN : option text;
  TELEGRAM_CHAT_ID : option text;
  EMAIL_FROM : option text;
  EMAIL_TO : option text;
  SMTP_PASS : option text;
}.

(** ** The script as a state-and-exception computation *)

Section Script.

Variable W : Type.
Variable B : Browser W.
Variable R : Runtime.
Variable cfg : Config.

(** The browser's world, the calls made so far, the two attributes the
    script hangs on the page object, and the variables of the date loop. *)
Record state := {
  world : W;
  trace : list event;
  navigated_to_october : bool;      (* page._navigated_to_october, False while absent *)
  iframe_calendar : option frame;   (* page._iframe_calendar, None while absent *)
  verdict : Verdict;
  evidence : list text;
  results : list entry;
}.

Definition init_state (w : W) : state :=
  {| world := w; trace := []; navigated_to_october := false;
     iframe_calendar := None; verdict := UNSURE; evidence := [];
     results := [] |}.

Definition set_world (w : W) (s : state) : state :=
  {| world := w; trace := trace s;
     navigated_to_october := navigated_to_october s;
     iframe_calendar := iframe_calendar s; verdict := verdict s;
     evidence := evidence s; results := results s |}.

Definition add_event (ev : event) (s : state) : state :=
  {| world := world s; trace := trace s ++ [ev];
     navigated_to_october := navigated_to_october s;
     iframe_calendar := iframe_calendar s; verdict := verdict s;
     evidence := evidence s; results := results s |}.

Definition set_navigated (s : state) : state :=
  {| world := world s; trace := trace s;
     navigated_to_october := true;
     iframe_calendar := iframe_calendar s; verdict := verdict s;
     evidence := evidence s; results := results s |}.

Definition set_iframe_calendar (f : frame) (s : state) : state :=
  {| world := world s; trace := trace s;
     navigated_to_october := navigated_to_october s;
     iframe_calendar := Some f; verdict := verdict s;
     evidence := evidence s; results := results s |}.

Definition set_verdict (v : Verdict) (s : state) : state :=
  {| world := world s; trace := trace s;
     navigated_to_october := navigated_to_october s;
     iframe_calendar := iframe_calendar s; verdict := v;
     evidence := evidence s; results := results s |}.

Definition set_evidence (ev : list text) (s : state) : state :=
  {| world := world s; trace := trace s;
     navigated_to_october := navigated_to_october s;
     iframe_calendar := iframe_calendar s; verdict := verdict s;
     evidence := ev; results := results s |}.

Definition add_result (r : entry) (s : state) : state :=
  {| world := world s; trace := trace s;
     navigated_to_october := navigated_to_october s;
     iframe_calendar := iframe_calendar s; verdict := verdict s;
     evidence := evidence s; results := results s ++ [r] |}.

Definition M (A : Type) : Type := state -> outcome A * state.

Definition ret {A} (a : A) : M A := fun s => (Val a, s).

Definition raise {A} (e : exn) : M A := fun s => (Exc e, s).

Definition bind {A C} (m : M A) (k : A -> M C) : M C :=
  fun s =>
    match m s with
    | (Val a, s') => k a s'
    | (Exc e, s') => (Exc e, s')
    end.

Notation "x <- m ;; k" := (bind m (fun x => k))
  (at level 61, m at next level, right associativity).
Notation "m ;; k" := (bind m (fun _ => k))
  (at level 61, right associativity).

(** [try: m  except Exception as e: h e]; a bare [except:] and
    [with suppress(Exception):] are instances. *)
Definition try_except {A} (m : M A) (h : exn -> M A) : M A :=
  fun s =>
    match m s with
    | (Val a, s') => (Val a, s')
    | (Exc e, s') => h e s'
    end.

Definition suppress (m : M unit) : M unit :=
  try_except m (fun _ => ret tt).

(** [try: m  finally: f]. *)
Definition finally {A} (m : M A) (f : M unit) : M A :=
  fun s =>
    match m s with
    | (r, s') =>
        match f s' with
        | (Val _, s'') => (r, s'')
        | (Exc e, s'') => (Exc e, s'')
        end
    end.

Definition modify (f : state -> state) : M unit := fun s => (Val tt, f s).

Definition read {A} (f : state -> A) : M A := fun s => (Val (f s), s).

Definition of_outcome {A} (o : outcome A) : M A := fun s => (o, s).

(** A call into the browser. *)
Definition call {A} (op : W -> outcome A * W) : M A :=
  fun s =>
    match op (world s) with
    | (r, w) => (r, set_world w s)
    end.

Definition emit (ev : event) : M unit := modify (add_event ev).

Definition print (m : message) : M unit := emit (ev_print m).

Definition query (sc : scope) (sel : selector) : M (option elem) :=
  call (query_selector B sc sel).

Definition wait (d : doc) (ms : Z) : M unit :=
  call (wait_for_timeout B d ms).

Definition click_at (site : click_site) (e : elem) : M unit :=
  emit (ev_click site e) ;; call (click B e).

Definition shot (d : doc) (path : text) : M unit :=
  emit (ev_screenshot d path) ;; call (screenshot B d path).

Definition close_all : M unit :=
  emit ev_close_context ;; call (context_close B) ;;
  emit ev_close_browser ;; call (browser_close B).

(** *** Notification channels *)

Definition desktop_notify (title msg : text) : M unit :=
  if negb (DESKTOP_NOTIFY cfg) then ret tt
  else emit (ev_notify Desktop title msg).

Definition telegram_notify (msg : text) : M unit :=
  if negb (nonempty (TELEGRAM_BOT_TOKEN cfg) && nonempty (TELEGRAM_CHAT_ID cfg))
  then ret tt
  else emit (ev_notify Telegram [] msg).

Definition email_notify (subject body : text) : M unit :=
  if negb (nonempty (EMAIL_FROM cfg) && nonempty (EMAIL_TO cfg)
           && nonempty (SMTP_PASS cfg))
  then ret tt
  else emit (ev_notify Email subject body).

(** *** The single-date entry point *)

(** [for sel in selector_try: with suppress(Exception): ... break]. *)
Fixpoint try_selectors (sels : list selector) : M unit :=
  match sels with
  | [] => ret tt
  | sel :: rest =>
      clicked <- try_except
                   (el <- query (in_doc Page) sel ;;
                    match el with
                    | Some e =>
                        click_at at_date_cell e ;;
                        wait Page 800 ;;
                        ret true
                    | None => ret false
                    end)
                   (fun _ => ret false) ;;
      if clicked : bool then ret tt else try_selectors rest
  end.

Definition availability_message : text :=
  str "Chichu Art Museum appears to have availability on " ++ TARGET_DATE cfg
  ++ str "." ++ [10%N] ++ str "Book ASAP: " ++ TARGET_URL cfg.

(** Lines 154-159: a native date input. *)
Definition fill_date_input : M unit :=
  suppress
    (date_input <- query (in_doc Page) sel_date_input ;;
     match date_input with
     | Some di =>
         call (fill B di (TARGET_DATE cfg)) ;;
         wait Page 1000
     | None => ret tt
     end).

(** Lines 161-185: a calendar opened by a button. *)
Definition pick_calendar_cell : M unit :=
  suppress
    (date_input <- query (in_doc Page) sel_date_input ;;
     if negb (truthy date_input) then
       btn <- query (in_doc Page) sel_calendar_button ;;
       match btn with
       | Some b =>
           click_at at_calendar_button b ;;
           wait Page 500 ;;
           parts <- of_outcome (unpack3 (split_on 45%N (TARGET_DATE cfg))) ;;
           let '(yyyy, mm, dd) := parts in
           d1 <- of_outcome (py_int R dd) ;;
           d2 <- of_outcome (py_int R dd) ;;
           d3 <- of_outcome (py_int R dd) ;;
           try_selectors
             [sel_data_date (TARGET_DATE cfg); sel_td_aria d1;
              sel_td_text d2; sel_button_text d3]
       | None => ret tt
       end
     else ret tt).

(** Lines 194-203. *)
Definition announce (is_open : bool) : M unit :=
  print (msg_heuristic is_open) ;;
  if is_open then
    desktop_notify (str "Chichu tickets available!") availability_message ;;
    telegram_notify availability_message ;;
    email_notify (str "Chichu tickets available!") availability_message
  else ret tt.

(** Lines 149-204, the body of the [try]. *)
Definition main_try : M Z :=
  call (goto B (TARGET_URL cfg) (TIMEOUT_MS cfg)) ;;
  fill_date_input ;;
  pick_calendar_cell ;;
  wait Page 1500 ;;
  full_text <- call (body_inner_text B Page) ;;
  announce (looks_available full_text) ;;
  ret 0%Z.

(** Lines 205-210, the two [except] clauses. *)
Definition main_except (e : exn) : M Z :=
  match e with
  | PlaywrightTimeoutError _ => print msg_error_timeout ;; ret 2%Z
  | _ => print (msg_error e) ;; ret 3%Z
  end.

(** Lines 148-213: the [try] statement of [main], which is entered once
    the page exists. *)
Definition main : M Z :=
  finally (try_except main_try main_except) close_all.

(** *** The multi-date script: before the date loop *)

(** Lines 259-267: dismiss the popup. *)
Definition dismiss_popup : M unit :=
  try_except
    (popup_btn <- query (in_doc Page) sel_ok_button ;;
     match popup_btn with
     | Some b =>
         visible <- call (is_visible B b) ;;
         if visible : bool then
           click_at at_popup_ok b ;;
           wait Page 3000
         else ret tt
     | None => ret tt
     end)
    (fun _ => ret tt).

(** Lines 288-322: the month shown in the iframe, and one step forward
    from September 2025. *)
Definition month_before_loop (fr : frame) : M unit :=
  try_except
    (iframe_body_text <- call (body_inner_text B (Frame fr)) ;;
     match month_search R iframe_body_text with
     | Some current_month_text =>
         if contains (str "september 2025") (py_lower R current_month_text) then
           next_btn <- query (in_doc (Frame fr)) sel_next_arrow ;;
           match next_btn with
           | Some nb =>
               click_at at_next_before nb ;;
               wait (Frame fr) 3000 ;;
               updated_text <- call (body_inner_text B (Frame fr)) ;;
               match month_search R updated_text with
               | Some _ => modify set_navigated
               | None => ret tt
               end
           | None => ret tt
           end
         else if contains (str "october 2025") (py_lower R current_month_text) then
           modify set_navigated
         else ret tt
     | None => ret tt
     end)
    (fun _ => ret tt).

(** Lines 274-330: find the calendar iframe. *)
Definition find_iframe : M unit :=
  try_except
    (iframe <- query (in_doc Page) sel_calendar_iframe ;;
     match iframe with
     | Some i =>
         _ <- call (get_attribute B i (str "src")) ;;
         iframe_content <- call (content_frame B i) ;;
         match iframe_content with
         | Some fr =>
             wait (Frame fr) 2000 ;;
             month_before_loop fr ;;
             modify (set_iframe_calendar fr)
         | None => ret tt
         end
     | None => ret tt
     end)
    (fun _ => ret tt).

(** *** The date loop *)

(** [getattr(page, '_iframe_calendar', page)]. *)
Definition calendar_page : M doc :=
  read (fun s => match iframe_calendar s with
                 | Some fr => Frame fr
                 | None => Page
                 end).

(** Lines 339-340. *)
Definition parse_date (d : text) : M (Z * Z * Z) :=
  parts <- of_outcome (unpack3 (split_on 45%N d)) ;;
  let '(target_year, target_month, target_day) := parts in
  y <- of_outcome (py_int R target_year) ;;
  m <- of_outcome (py_int R target_month) ;;
  dd <- of_outcome (py_int R target_day) ;;
  ret (y, m, dd).

(** Lines 345-368. *)
Definition navigate_in_loop (cal : doc) (target_year target_month : Z) : M unit :=
  try_except
    (month_text <- call (body_inner_text B cal) ;;
     navigated <- read navigated_to_october ;;
     if navigated : bool then ret tt
     else if contains (str "October 2025") month_text
             && (target_month =? 10)%Z && (target_year =? 2025)%Z
     then ret tt
     else
       next_arrow <- query (in_doc cal) sel_next_arrow ;;
       prev_arrow <- query (in_doc cal) sel_prev_arrow ;;
       match next_arrow with
       | Some a =>
           click_at at_next_in_loop a ;;
           wait cal 2000
       | None => ret tt
       end)
    (fun _ => ret tt).

Definition day_selectors (target_day : Z) : list selector :=
  [sel_title_day target_day; sel_button_text target_day; sel_span_text target_day].

(** Lines 382-387: the first selector that finds an element. *)
Fixpoint find_day (cal : doc) (sels : list selector) : M (option elem) :=
  match sels with
  | [] => ret None
  | selector :: rest =>
      day_element <- query (in_doc cal) selector ;;
      match day_element with
      | Some e => ret (Some e)
      | None => find_day cal rest
      end
  end.

(** Lines 391-408. *)
Definition parent_button (cal : doc) (day_element : elem) : M (option elem) :=
  tag <- call (tag_name B day_element) ;;
  if negb (text_eqb (py_lower R tag) (str "button")) then
    try_except
      (query (in_elem day_element) sel_ancestor_button)
      (fun _ => call (closest_button B cal day_element))
  else ret (Some day_element).

(** Lines 424-456: the [if]/[elif] chain over what was read from the
    button; the result is the new value of [verdict] and the string appended
    to [evidence]. *)
Definition cell_rule (verdict : Verdict) (button_class button_html : text)
    (available_img few_left_img sold_out_img : bool) : Verdict * text :=
  if available_img then (AVAILABLE, str "available.svg found")
  else if few_left_img then (AVAILABLE, str "only_one_left.svg found")
  else if sold_out_img then (UNAVAILABLE, str "sold_out.svg found")
  else if contains (str "sold-out-layout") button_class then
    (UNAVAILABLE, str "sold-out-layout class")
  else if contains (str "pointer-none") button_class then
    (UNAVAILABLE, str "pointer-none class (closed)")
  else if contains (str "day-active") button_class then
    if contains (str "aval") button_html then
      (AVAILABLE, str "day-active + aval found")
    else (UNSURE, str "day-active but no clear availability indicator")
  else (verdict, str "unknown button state: " ++ button_class).

Definition append_evidence (e : text) : M unit :=
  modify (fun s => set_evidence (evidence s ++ [e]) s).

(** Lines 411-456. *)
Definition classify_button (button_element : elem) : M unit :=
  cls <- call (get_attribute B button_element (str "class")) ;;
  let button_class := match cls with Some c => c | None => [] end in
  html <- call (inner_html B button_element) ;;
  let button_html := take 200 html in
  available_img <- query (in_elem button_element) sel_available_img ;;
  sold_out_img <- query (in_elem button_element) sel_sold_out_img ;;
  few_left_img <- query (in_elem button_element) sel_few_left_img ;;
  current <- read verdict ;;
  let '(v, e) := cell_rule current button_class button_html
                   (truthy available_img) (truthy few_left_img)
                   (truthy sold_out_img) in
  modify (set_verdict v) ;;
  append_evidence e.

(** Line 466: the texts of the day elements that are numbers. *)
Fixpoint collect_days (all_days : list elem) : M (list text) :=
  match all_days with
  | [] => ret []
  | day :: rest =>
      t <- call (inner_text B day) ;;
      if py_strip_isdigit R t then
        v <- call (inner_text B day) ;;
        vs <- collect_days rest ;;
        ret (v :: vs)
      else collect_days rest
  end.

(** Lines 465-467. *)
Definition list_days (cal : doc) : M unit :=
  all_days <- call (query_selector_all B cal sel_all_title_days) ;;
  available_days <- collect_days all_days ;;
  print (msg_available_days available_days).

(** Lines 375-467, the body of the [try]. *)
Definition inspect_body (cal : doc) (target_day : Z) : M unit :=
  day_element <- find_day cal (day_selectors target_day) ;;
  match day_element with
  | Some de =>
      button_element <- parent_button cal de ;;
      match button_element with
      | Some b => classify_button b
      | None => append_evidence (str "found day element but no parent button")
      end
  | None =>
      append_evidence (str "date element not found") ;;
      list_days cal
  end.

(** Lines 374-471. *)
Definition inspect_date (cal : doc) (target_day : Z) : M unit :=
  try_except
    (inspect_body cal target_day)
    (fun e => append_evidence (str "error: " ++ exn_str e)).

Definition screenshot_path (d : text) : text :=
  str "screenshots/" ++ replace_char 45%N 95%N d ++ str ".png".

(** Lines 474-478. *)
Definition take_screenshot (cal : doc) (d : text) : M unit :=
  try_except
    (shot cal (screenshot_path d))
    (fun _ => shot Page (screenshot_path d)).

Definition make_entry (d : text) (v : Verdict) (ev : list text) : entry :=
  {| e_date := d; e_verdict := v;
     e_evidence := take 300 (join (str "; ") ev) |}.

(** Line 480. *)
Definition record_result (d : text) : M unit :=
  modify (fun s => add_result (make_entry d (verdict s) (evidence s)) s).

(** One turn of [for d in dates] (lines 333-480). *)
Definition check_date (d : text) : M unit :=
  cal <- calendar_page ;;
  target <- parse_date d ;;
  let '(target_year, target_month, target_day) := target in
  navigate_in_loop cal target_year target_month ;;
  modify (set_verdict UNSURE) ;;
  modify (set_evidence []) ;;
  inspect_date cal target_day ;;
  take_screenshot cal d ;;
  record_result d.

Fixpoint date_loop (dates : list text) : M unit :=
  match dates with
  | [] => ret tt
  | d :: rest => check_date d ;; date_loop rest
  end.

Fixpoint print_rows (rs : list entry) : M unit :=
  match rs with
  | [] => ret tt
  | r :: rest => print (msg_summary_row r) ;; print_rows rest
  end.

(** Lines 483-489. *)
Definition print_summary : M unit :=
  print msg_summary_header ;;
  rs <- read results ;;
  print_rows rs.

(** Lines 253-480: open the page, then check every date. *)
Definition visit_and_check (dates : list text) : M unit :=
  call (goto B (TARGET_URL cfg) (TIMEOUT_MS cfg)) ;;
  wait Page 1200 ;;
  dismiss_popup ;;
  find_iframe ;;
  date_loop dates.

(** Lines 253-489, the body of the outer [try]. *)
Definition script_body (dates : list text) : M unit :=
  visit_and_check dates ;;
  print_summary.

(** Lines 252-493. *)
Definition multi_date (dates : list text) : M unit :=
  finally (script_body dates) close_all.

(** The [try] statement of the script, entered in a fresh state once the
    page exists: what the process does from there, and how it ends when
    nothing after the statement raises. *)
Definition run_script (dates : list text) (w : W) : ending * state :=
  match multi_date dates (init_state w) with
  | (Val _, s) => (Exit 0, s)
  | (Exc e, s) => (Traceback e, s)
  end.

End Script.

(** ** A simulated interpreter and a simulated site

    Concrete instances of the interfaces, on which the script can be
    run.  The interpreter services are written for ASCII text, where they
    agree with CPython. *)

Module Sim.

Local Open Scope N_scope.

Definition is_digit (c : codepoint) : bool := (48 <=? c) && (c <=? 57).

Definition is_word (c : codepoint) : bool :=
  is_digit c || ((65 <=? c) && (c <=? 90)) || ((97 <=? c) && (c <=? 122))
  || (c =? 95).

Fixpoint drop_spaces (t : text) : text :=
  match t with
  | c :: t' => if is_space c then drop_spaces t' else t
  | [] => []
  end.

Definition strip (t : text) : text :=
  rev (drop_spaces (rev (drop_spaces t))).

(** The value of a run of decimal digits in which single underscores may
    stand between two digits; [after_digit] tells whether the character
    before [t] is a digit. *)
Fixpoint digits_value (acc : Z) (after_digit : bool) (t : text) : option Z :=
  match t with
  | [] => if after_digit then Some acc else None
  | c :: t' =>
      if is_digit c then digits_value (10 * acc + Z.of_N (c - 48))%Z true t'
      else if (c =? 95) && after_digit then digits_value acc false t'
      else None
  end.

(** [int(s)] on ASCII text: whitespace around the literal is dropped, a
    sign may come first, and the digits may be grouped by underscores.  The
    message of the exception quotes the string as [repr] does for printable
    text without quotes or backslashes. *)
Definition int_of_digits (t : text) : outcome Z :=
  let invalid :=
    Exc (ValueError
           (str "invalid literal for int() with base 10: '" ++ t ++ str "'")) in
  let unsigned (ds : text) (sign : Z) : outcome Z :=
    match digits_value 0 false ds with
    | Some z => Val (sign * z)%Z
    | None => invalid
    end in
  match strip t with
  | 43 :: ds => unsigned ds 1%Z     (* + *)
  | 45 :: ds => unsigned ds (-1)%Z  (* - *)
  | ds => unsigned ds 1%Z
  end.

Definition lower_text (t : text) : text := map lower_ascii t.

Definition strip_isdigit (t : text) : bool :=
  match strip t with
  | [] => false
  | s => forallb is_digit s
  end.

Definition month_names : list text :=
  map str ["January"; "February"; "March"; "April"; "May"; "June"; "July";
           "August"; "September"; "October"; "November"; "December"]%string.

(** [p] is a prefix of [t] up to ASCII case; the rest of [t] on success. *)
Fixpoint ci_prefix (p t : text) : option text :=
  match p, t with
  | [], _ => Some t
  | _ :: _, [] => None
  | a :: p', b :: t' =>
      if lower_ascii a =? lower_ascii b then ci_prefix p' t' else None
  end.

(** After the month name: [\s+20\d{2}\b]; the length of what was read. *)
Definition year_after (t : text) : option nat :=
  let t' := drop_spaces t in
  let n := (List.length t - List.length t')%nat in
  if (n =? 0)%nat then None
  else match t' with
       | 50 :: 48 :: d1 :: d2 :: rest =>
           if is_digit d1 && is_digit d2
              && negb (match rest with c :: _ => is_word c | [] => false end)
           then Some (n + 4)%nat
           else None
       | _ => None
       end.

Fixpoint month_at (names : list text) (t : text) : option text :=
  match names with
  | [] => None
  | name :: rest =>
      match ci_prefix name t with
      | Some after =>
          match year_after after with
          | Some n => Some (firstn (List.length name + n) t)
          | None => month_at rest t
          end
      | None => month_at rest t
      end
  end.

(** The leftmost match of the month pattern; [prev_word] tells whether the
    character before [t] is a word character (for the leading [\b]). *)
Fixpoint month_from (prev_word : bool) (t : text) : option text :=
  match (if prev_word then None else month_at month_names t) with
  | Some m => Some m
  | None =>
      match t with
      | [] => None
      | c :: t' => month_from (is_word c) t'
      end
  end.

Definition runtime : Runtime :=
  {| py_int := int_of_digits;
     py_lower := lower_text;
     py_strip_isdigit := strip_isdigit;
     month_search := month_from false |}.

Local Close Scope N_scope.

(** What the simulated button of the requested day carries. *)
Record cell := {
  cell_class : text;
  cell_html : text;
  cell_available : bool;
  cell_sold_out : bool;
  cell_few_left : bool;
}.

(** A site whose calendar text depends on how often the next-month arrow
    was clicked, and that answers every other call the same way throughout
    a run. *)
Record site := {
  goto_result : outcome unit;
  has_iframe : bool;
  calendar_text : nat -> text;
  has_next_arrow : bool;
  day_cell : option cell;
  day_query_result : option exn;       (* the day selectors raise *)
  days_listing_result : option exn;    (* query_selector_all raises *)
  day_texts : list text;               (* the texts of the .title-day elements *)
  screenshot_result : doc -> outcome unit;
}.

Definition the_iframe : elem := 1%nat.
Definition the_frame : frame := 1%nat.
Definition the_arrow : elem := 2%nat.
Definition the_button : elem := 3%nat.
Definition the_icon : elem := 4%nat.
Definition first_day : elem := 10%nat.

Definition found (b : bool) (e : elem) : outcome (option elem) :=
  Val (if b then Some e else None).

Definition site_query (st : site) (sc : scope) (sel : selector)
  : outcome (option elem) :=
  match sel with
  | sel_calendar_iframe => found (has_iframe st) the_iframe
  | sel_next_arrow => found (has_next_arrow st) the_arrow
  | sel_title_day _ | sel_button_text _ | sel_span_text _ =>
      match day_query_result st with
      | Some e => Exc e
      | None => found (truthy (day_cell st)) the_button
      end
  | sel_available_img =>
      found (match day_cell st with Some c => cell_available c | None => false end)
            the_icon
  | sel_sold_out_img =>
      found (match day_cell st with Some c => cell_sold_out c | None => false end)
            the_icon
  | sel_few_left_img =>
      found (match day_cell st with Some c => cell_few_left c | None => false end)
            the_icon
  | _ => Val None
  end.

(** The world of the simulated browser is the number of clicks on the
    next-month arrow so far. *)
Definition browser (st : site) : Browser nat :=
  {| goto := fun _ _ w => (goto_result st, w);
     wait_for_timeout := fun _ _ w => (Val tt, w);
     query_selector := fun sc sel w => (site_query st sc sel, w);
     query_selector_all := fun _ _ w =>
       (match days_listing_result st with
        | Some e => Exc e
        | None => Val (seq first_day (List.length (day_texts st)))
        end, w);
     is_visible := fun _ w => (Val true, w);
     click := fun e w => (Val tt, if Nat.eqb e the_arrow then S w else w);
     fill := fun _ _ w => (Val tt, w);
     get_attribute := fun e name w =>
       (Val (if Nat.eqb e the_button
             then match day_cell st with
                  | Some c => Some (cell_class c)
                  | None => None
                  end
             else None), w);
     content_frame := fun _ w => (Val (Some the_frame), w);
     body_inner_text := fun _ w => (Val (calendar_text st w), w);
     inner_text := fun e w => (Val (nth (e - first_day) (day_texts st) []), w);
     inner_html := fun _ w =>
       (Val (match day_cell st with Some c => cell_html c | None => [] end), w);
     tag_name := fun _ w => (Val (str "BUTTON"), w);
     closest_button := fun _ _ w => (Val None, w);
     screenshot := fun d _ w => (screenshot_result st d, w);
     context_close := fun w => (Val tt, w);
     browser_close := fun w => (Val tt, w) |}.

(** A machine on which the directory can be made and Playwright starts
    and stops. *)
Definition host : Host nat :=
  {| makedirs := fun w => (Val tt, w);
     playwright_start := fun w => (Val tt, w);
     playwright_stop := fun w => (Val tt, w);
     launch := fun w => (Val tt, w);
     new_context := fun w => (Val tt, w);
     new_page := fun w => (Val tt, w) |}.

(** A machine on which the browsers of Playwright are not installed. *)
Definition host_without_browser : Host nat :=
  {| makedirs := fun w => (Val tt, w);
     playwright_start := fun w => (Val tt, w);
     playwright_stop := fun w => (Val tt, w);
     launch := fun w => (Exc (Error (str "Executable doesn't exist")), w);
     new_context := fun w => (Val tt, w);
     new_page := fun w => (Val tt, w) |}.

Definition config : Config :=
  {| TARGET_URL := str "https://benesse-artsite.eventos.tokyo/web/portal/797/event/8483/module/booth/239565/176695?language=eng";
     TARGET_DATE := str "2025-10-07";
     TIMEOUT_MS := 45000;
     DESKTOP_NOTIFY := false;
     TELEGRAM_BOT_TOKEN := None;
     TELEGRAM_CHAT_ID := None;
     EMAIL_FROM := None;
     EMAIL_TO := None;
     SMTP_PASS := None |}.

(** A page without a calendar: no iframe, no arrows, no day cells. *)
Definition blank_site : site :=
  {| goto_result := Val tt;
     has_iframe := false;
     calendar_text := fun _ => str "Welcome to the museum";
     has_next_arrow := false;
     day_cell := None;
     day_query_result := None;
     days_listing_result := None;
     day_texts := [];
     screenshot_result := fun _ => Val tt |}.

(** The page does not load within the timeout. *)
Definition unreachable_site : site :=
  {| goto_result := Exc (PlaywrightTimeoutError (str "Timeout 45000ms exceeded."));
     has_iframe := false;
     calendar_text := fun _ => [];
     has_next_arrow := false;
     day_cell := None;
     day_query_result := None;
     days_listing_result := None;
     day_texts := [];
     screenshot_result := fun _ => Val tt |}.

(** The page has closed after loading: the day queries and both
    screenshots raise. *)
Definition crashed_site : site :=
  {| goto_result := Val tt;
     has_iframe := false;
     calendar_text := fun _ => str "Welcome to the museum";
     has_next_arrow := false;
     day_cell := None;
     day_query_result := Some (Error (str "Target page has been closed"));
     days_listing_result := None;
     day_texts := [];
     screenshot_result := fun _ => Exc (Error (str "Target page has been closed")) |}.

(** A calendar of October 2025 whose screenshots cannot be taken. *)
Definition no_screenshot_site : site :=
  {| goto_result := Val tt;
     has_iframe := true;
     calendar_text := fun _ => str "October 2025";
     has_next_arrow := true;
     day_cell := None;
     day_query_result := None;
     days_listing_result := None;
     day_texts := [str "1"; str "2"];
     screenshot_result := fun _ => Exc (Error (str "Unable to capture screenshot")) |}.

(** A calendar frame that shows a next-month arrow and weekday names but
    no month name. *)
Definition arrow_site : site :=
  {| goto_result := Val tt;
     has_iframe := true;
     calendar_text := fun _ => str "Mon Tue Wed Thu Fri Sat Sun";
     has_next_arrow := true;
     day_cell := None;
     day_query_result := None;
     days_listing_result := None;
     day_texts := [];
     screenshot_result := fun _ => Val tt |}.


(** A calendar that opens on September 2025 and moves one month forward
    with every click on the arrow. *)
Definition september_site : site :=
  {| goto_result := Val tt;
     has_iframe := true;
     calendar_text := fun clicks =>
       nth clicks [str "September 2025"; str "October 2025"]
           (str "November 2025");
     has_next_arrow := true;
     day_cell := None;
     day_query_result := None;
     days_listing_result := None;
     day_texts := [];
     screenshot_result := fun _ => Val tt |}.

(** No cell for the day, and the query for the day elements raises. *)
Definition detached_site : site :=
  {| goto_result := Val tt;
     has_iframe := true;
     calendar_text := fun _ => str "October 2025";
     has_next_arrow := false;
     day_cell := None;
     day_query_result := None;
     days_listing_result := Some (Error (str "Frame was detached"));
     day_texts := [];
     screenshot_result := fun _ => Val tt |}.

(** A calendar of October 2025 that shows the days 6, 7 and 8 but no cell
    for the requested day. *)
Definition other_days_site : site :=
  {| goto_result := Val tt;
     has_iframe := true;
     calendar_text := fun _ => str "October 2025";
     has_next_arrow := false;
     day_cell := None;
     day_query_result := None;
     days_listing_result := None;
     day_texts := [str "6"; str " 7 "; str "Sun"; str "8"];
     screenshot_result := fun _ => Val tt |}.

(** The day queries raise, everything else answers. *)
Definition flaky_site : site :=
  {| goto_result := Val tt;
     has_iframe := false;
     calendar_text := fun _ => str "Welcome to the museum";
     has_next_arrow := false;
     day_cell := None;
     day_query_result := Some (Error (str "Execution context was destroyed"));
     days_listing_result := None;
     day_texts := [];
     screenshot_result := fun _ => Val tt |}.

Definition site_with_cell (c : cell) : site :=
  {| goto_result := Val tt;
     has_iframe := true;
     calendar_text := fun _ => str "October 2025";
     has_next_arrow := false;
     day_cell := Some c;
     day_query_result := None;
     days_listing_result := None;
     day_texts := [];
     screenshot_result := fun _ => Val tt |}.

(** A button of a closed day marked with the class "pointer-disabled". *)
Definition disabled_cell : cell :=
  {| cell_class := str "day pointer-disabled";
     cell_html := str "<span class='title-day'>7</span>";
     cell_available := false;
     cell_sold_out := false;
     cell_few_left := false |}.

(** A button with the class "sold-out-layout" and no icon. *)
Definition sold_out_cell : cell :=
  {| cell_class := str "day sold-out-layout";
     cell_html := str "<span class='title-day'>7</span>";
     cell_available := false;
     cell_sold_out := false;
     cell_few_left := false |}.

(** The browser [b] with another answer to its screenshot calls. *)
Definition with_screenshot (b : Browser nat)
    (shoot : doc -> text -> nat -> outcome unit * nat) : Browser nat :=
  {| goto := goto b;
     wait_for_timeout := wait_for_timeout b;
     query_selector := query_selector b;
     query_selector_all := query_selector_all b;
     is_visible := is_visible b;
     click := click b;
     fill := fill b;
     get_attribute := get_attribute b;
     content_frame := content_frame b;
     body_inner_text := body_inner_text b;
     inner_text := inner_text b;
     inner_html := inner_html b;
     tag_name := tag_name b;
     closest_button := closest_button b;
     screenshot := shoot;
     context_close := context_close b;
     browser_close := browser_close b |}.

(** The calendar of [arrow_site] on a page that closes when the arrow is
    clicked for the second time: from then on no screenshot can be taken. *)
Definition closing_browser : Browser nat :=
  with_screenshot (browser arrow_site)
    (fun _ _ clicks =>
       (if Nat.leb 2 clicks
        then Exc (Error (str "Target page has been closed"))
        else Val tt, clicks)).

Definition oct_7 : text := str "2025-10-07".
Definition oct_8 : text := str "2025-10-08".
Definition oct_9 : text := str "2025-10-09".

Definition run (st : site) (dates : list text) : ending * state nat :=
  run_script (browser st) runtime config dates 0.

End Sim.

(** ** Vocabulary of the properties *)

Definition not_notify (ev : event) : bool := negb (is_notify ev).

Definition not_summary (ev : event) : bool := negb (is_summary ev).

Definition not_next_click (ev : event) : bool := negb (is_next_click ev).

(** The lines of the summary table for the entries [rs]. *)
Definition summary_events (rs : list entry) : list event :=
  ev_print msg_summary_header :: map (fun r => ev_print (msg_summary_row r)) rs.

(** The evidence field fits the report. *)
Definition bounded (r : entry) : Prop := List.length (e_evidence r) <= 300.

(** One of the markers the cell rule knows is present. *)
Definition has_marker (button_class button_html : text)
    (available_img few_left_img sold_out_img : bool) : Prop :=
  available_img = true \/ few_left_img = true \/ sold_out_img = true
  \/ Infix (str "sold-out-layout") button_class
  \/ Infix (str "pointer-none") button_class
  \/ (Infix (str "day-active") button_class /\ Infix (str "aval") button_html).

(** *** The markers of the full-page heuristic, character by character *)

(** The characters that [re.I] accepts where a pattern has the lowercase
    ASCII letter [l]: the letter, its capital and, for i, k and s, the
    letters U+0130 and U+0131, U+212A and U+017F. *)
Definition stands_for (l c : codepoint) : Prop :=
  (c = l \/ c + 32 = l
   \/ (l = 105 /\ (c = 304 \/ c = 305))
   \/ (l = 107 /\ c = 8490)
   \/ (l = 115 /\ c = 383))%N.

(** [u] is the lowercase ASCII word [w] in some capitalisation. *)
Definition written (w : string) (u : text) : Prop :=
  Forall2 stands_for (str w) u.

(** The text holds "sold out" or "fully booked", with any run of whitespace
    between the two words, or "unavailable", in any capitalisation, or one of
    the crosses U+00D7, U+2715 and U+2716. *)
Definition negative_marker (t : text) : Prop :=
  (exists u ws v,
     written "sold" u /\ forallb is_space ws = true /\ written "out" v /\
     Infix (u ++ ws ++ v) t)
  \/ (exists u ws v,
        written "fully" u /\ forallb is_space ws = true /\ written "booked" v /\
        Infix (u ++ ws ++ v) t)
  \/ (exists u, written "unavailable" u /\ Infix u t)
  \/ In 215%N t \/ In 10005%N t \/ In 10006%N t.

(** The text holds an open circle, U+25CB or U+25EF, or the triangle
    U+25B3. *)
Definition positive_marker (t : text) : Prop :=
  In 9675%N t \/ In 9711%N t \/ In 9651%N t.

(** The date string has three fields separated by hyphens, each of which
    [int] accepts. *)
Definition well_formed_date (R : Runtime) (d : text) : Prop :=
  exists ty tm td y m dd,
    unpack3 (split_on 45%N d) = Val (ty, tm, td) /\
    py_int R ty = Val y /\ py_int R tm = Val m /\ py_int R td = Val dd.

Section Vocabulary.

Variables (W : Type) (B : Browser W) (R : Runtime).

(** *** Relations between the state before and the state after *)

(** Every run of [m] takes a state to one related to it by [Rl]. *)
Definition moves (Rl : state W -> state W -> Prop) {A} (m : M W A) : Prop :=
  forall s, Rl s (snd (m s)).

(** The relations [moves] is used with: reflexive, transitive and blind to
    the browser's world. *)
Record frame_rel (Rl : state W -> state W -> Prop) : Prop := {
  fr_refl : forall s, Rl s s;
  fr_trans : forall a b c, Rl a b -> Rl b c -> Rl a c;
  fr_world : forall w s, Rl s (set_world w s);
}.

(** The events added between two states, all of which satisfy [P]. *)
Definition grows (P : event -> bool) (s s' : state W) : Prop :=
  exists evs, trace s' = trace s ++ evs /\ forallb P evs = true.

(** The value of [f] is the same in both states. *)
Definition keeps {A} (f : state W -> A) (s s' : state W) : Prop := f s' = f s.

(** The variables of the date loop. *)
Definition loop_variables (s : state W) : Verdict * list text * list entry :=
  (verdict s, evidence s, results s).

(** What a call into the browser cannot change. *)
Definition script_variables (s : state W) : list event * Verdict * list text :=
  (trace s, verdict s, evidence s).

(** The entries already recorded stay within the bound. *)
Definition keeps_bounded (s s' : state W) : Prop :=
  Forall bounded (results s) -> Forall bounded (results s').

(** Between two states either no notification was sent, or the heuristic
    line was printed with [True] for a page text the browser returned. *)
Definition notified_after_heuristic (s s' : state W) : Prop :=
  exists evs,
    trace s' = trace s ++ evs /\
    (forallb not_notify evs = true \/
     (In (ev_print (msg_heuristic true)) evs /\
      exists w full_text w',
        body_inner_text B Page w = (Val full_text, w') /\
        looks_available full_text = true)).

(** What the button step reads from the button [b], starting in the world
    [w]: the class attribute (the empty string when absent), the first 200
    characters of the inner HTML and whether each of the three icons is
    found. *)
Definition reads_button (b : elem) (w : W) (button_class button_html : text)
    (available_img few_left_img sold_out_img : bool) : Prop :=
  exists c h av sold few w1 w2 w3 w4 w5,
    get_attribute B b (str "class") w = (Val c, w1) /\
    inner_html B b w1 = (Val h, w2) /\
    query_selector B (in_elem b) sel_available_img w2 = (Val av, w3) /\
    query_selector B (in_elem b) sel_sold_out_img w3 = (Val sold, w4) /\
    query_selector B (in_elem b) sel_few_left_img w4 = (Val few, w5) /\
    button_class = match c with Some c' => c' | None => [] end /\
    button_html = take 200 h /\
    available_img = truthy av /\ few_left_img = truthy few /\
    sold_out_img = truthy sold.

(** The verdict [v] of the inspection of [day] begun in the state [s] comes
    from a marker: the selector chain found an element, the button of that
    element was found, and what the browser answered for that button carries
    a marker, to which the cell rule gives [v]. *)
Definition from_marker (cal : doc) (day : Z) (s : state W) (v : Verdict) : Prop :=
  exists de s1 b s2 cls html a f so,
    find_day B cal (day_selectors day) s = (Val (Some de), s1) /\
    parent_button B R cal de s1 = (Val (Some b), s2) /\
    reads_button b (world s2) cls html a f so /\
    has_marker cls html a f so /\
    v = fst (cell_rule UNSURE cls html a f so).


(** *** Outcomes *)

(** Whenever [m] returns, the states before and after are related by [T]. *)
Definition on_return (T : state W -> state W -> Prop) {A} (m : M W A) : Prop :=
  forall s a s', m s = (Val a, s') -> T s s'.

(** [m] returns from every state. *)
Definition returns {A} (m : M W A) : Prop :=
  forall s, exists a, fst (m s) = Val a.


(** *** Entries *)

(** The entry [e] is what the loop records for the date [d]: the verdict
    and the evidence that the guarded inspection of the day of [d] leaves
    when it is started with the verdict UNSURE and no evidence. *)
Definition classified (d : text) (e : entry) : Prop :=
  exists cal year month day (sp sp' s0 s1 : state W),
    parse_date R d sp = (Val (year, month, day), sp') /\
    verdict s0 = UNSURE /\ evidence s0 = [] /\
    inspect_date B R cal day s0 = (Val tt, s1) /\
    e = make_entry d (verdict s1) (evidence s1).

End Vocabulary.

(** ** Vocabulary of the further properties *)

(** Two characters that are equal up to ASCII case. *)
Definition same_letter (c c' : codepoint) : Prop :=
  lower_ascii c = lower_ascii c'.

(** The three symbols of [AVAILABILITY_POSITIVE]. *)
Definition positive_symbols : list codepoint := circle_chars ++ [triangle_char].

(** ** The requested dates (lines 232-239) *)

Module Args.

Fixpoint lstrip (t : text) : text :=
  match t with
  | c :: t' => if is_space c then lstrip t' else t
  | [] => []
  end.

(** The text does not begin with whitespace. *)
Definition no_lead (t : text) : Prop :=
  match t with
  | c :: _ => is_space c = false
  | [] => True
  end.

(** [s.strip()]. *)
Definition strip (t : text) : text := rev (lstrip (rev (lstrip t))).

(** [[d.strip() for d in parts if d.strip()]]. *)
Fixpoint stripped_nonempty (parts : list text) : list text :=
  match parts with
  | [] => []
  | d :: rest =>
      match strip d with
      | [] => stripped_nonempty rest
      | c :: s => (c :: s) :: stripped_nonempty rest
      end
  end.

(** [[d.strip() for d in s.split(',') if d.strip()]]. *)
Definition split_dates (s : text) : list text :=
  stripped_nonempty (split_on 44%N s).

(** The list [dates]: from [--dates] when it is a non-empty string, else
    from the variable [TARGET_DATES] when it is one, else the single
    [TARGET_DATE]. *)
Definition select_dates (cfg : Config) (args_dates env_dates : option text)
  : list text :=
  match args_dates with
  | Some (c :: s) => split_dates (c :: s)
  | _ =>
      match env_dates with
      | Some (c :: s) => split_dates (c :: s)
      | _ => [TARGET_DATE cfg]
      end
  end.

(** A date as the list holds it: not empty, without whitespace at either
    end and without a comma. *)
Definition clean (d : text) : Prop :=
  d <> [] /\ strip d = d /\ ~ In 44%N d.

(** [p] is [d] with whitespace around it. *)
Definition padded (d p : text) : Prop :=
  exists ws1 ws2,
    forallb is_space ws1 = true /\ forallb is_space ws2 = true /\
    p = ws1 ++ d ++ ws2.

End Args.

(** ** The entry points as the interpreter runs them *)

(** [parser.parse_args()]: the namespace, with [args.dates] being [None]
    when the option is absent, or the end of the process, with status 2
    after a usage error and with status 0 after [--help]. *)
Inductive parsed_args :=
| Namespace (dates : option text)
| UsageError
| HelpShown.

Section Process.

Variables (W : Type) (OS : Host W) (B : Browser W) (R : Runtime).

Local Notation "m ;; k" := (bind m (fun _ => k))
  (at level 61, right associativity).

(** Lines 145-147 and 249-251. *)
Definition open_page : M W unit :=
  call (launch OS) ;; call (new_context OS) ;; call (new_page OS).

(** [with sync_playwright() as p: body]: the manager is entered and, once
    entered, left whatever the body does; it does not swallow an
    exception of the body. *)
Definition with_playwright {A} (body : M W A) : M W A :=
  call (playwright_start OS) ;; finally body (call (playwright_stop OS)).

(** Lines 142-213: the function [main]. *)
Definition main_function (cfg : Config) : M W Z :=
  with_playwright (open_page ;; main B R cfg).

(** Lines 242-493: the script once its dates are known. *)
Definition script (cfg : Config) (dates : list text) : M W unit :=
  call (makedirs OS) ;;
  with_playwright (open_page ;; multi_date B R cfg dates).

(** The process that runs the file as a script.  The module level (lines
    47-86) yields the constants or raises; [parse_args] (line 230) yields the
    namespace or ends the process; then the dates are chosen (lines 232-239)
    and the script runs.  An exception that leaves the file ends the process
    with a traceback. *)
Definition run_process (module_level : outcome Config) (args : parsed_args)
    (env_dates : option text) (w : W) : ending * state W :=
  match module_level with
  | Exc e => (Traceback e, init_state w)
  | Val cfg =>
      match args with
      | UsageError => (Exit 2, init_state w)
      | HelpShown => (Exit 0, init_state w)
      | Namespace args_dates =>
          match script cfg (Args.select_dates cfg args_dates env_dates)
                  (init_state w) with
          | (Val _, s) => (Exit 0, s)
          | (Exc e, s) => (Traceback e, s)
          end
      end
  end.

(** The calls that precede the [try] statement of the script, and of
    [main], in their order. *)
Definition before_try : M W unit :=
  call (makedirs OS) ;; call (playwright_start OS) ;; open_page.

Definition before_main_try : M W unit :=
  call (playwright_start OS) ;; open_page.

End Process.

Definition is_close (ev : event) : bool :=
  match ev with
  | ev_close_context | ev_close_browser => true
  | _ => false
  end.

Definition not_close (ev : event) : bool := negb (is_close ev).

(** What the [finally] block adds to the trace when [context.close()] has
    the outcome [r]: [browser.close()] is reached only if it returned. *)
Definition closing_events (r : outcome unit) : list event :=
  match r with
  | Val _ => [ev_close_context; ev_close_browser]
  | Exc _ => [ev_close_context]
  end.

(** The exit code [main] returns for what its [try] body did. *)
Definition code_of {A} (r : outcome A) : Z :=
  match r with
  | Val _ => 0
  | Exc (PlaywrightTimeoutError _) => 2
  | Exc _ => 3
  end.

Section MoreVocabulary.

Variables (W : Type) (B : Browser W) (cfg : Config).

(** The notifications of one announcement, for the channels the
    configuration enables, in the order in which [main] calls them. *)
Definition configured_notifications : list event :=
  (if DESKTOP_NOTIFY cfg
   then [ev_notify Desktop (str "Chichu tickets available!") (availability_message cfg)]
   else [])
  ++ (if nonempty (TELEGRAM_BOT_TOKEN cfg) && nonempty (TELEGRAM_CHAT_ID cfg)
      then [ev_notify Telegram [] (availability_message cfg)]
      else [])
  ++ (if nonempty (EMAIL_FROM cfg) && nonempty (EMAIL_TO cfg)
         && nonempty (SMTP_PASS cfg)
      then [ev_notify Email (str "Chichu tickets available!") (availability_message cfg)]
      else []).

(** A run of [m] sends nothing, or exactly the configured notifications. *)
Definition notifies_as_configured {A} (m : M W A) : Prop :=
  forall s, exists evs,
    trace (snd (m s)) = trace s ++ evs /\
    (filter is_notify evs = [] \/ filter is_notify evs = configured_notifications).

(** Evidence was only appended, and no empty string was. *)
Definition evidence_extended (s s' : state W) : Prop :=
  exists added,
    evidence s' = evidence s ++ added /\ Forall (fun e => e <> []) added.

(** At least one string was appended to the evidence. *)
Definition evidence_added (s s' : state W) : Prop :=
  exists e rest,
    evidence s' = evidence s ++ e :: rest /\ Forall (fun e => e <> []) (e :: rest).

(** The selectors [sels], queried in order from the world [w], all find
    nothing and leave the world [w']. *)
Inductive misses (d : doc) : list selector -> W -> W -> Prop :=
| misses_nil w : misses d [] w w
| misses_cons sel sels w w1 w2 :
    query_selector B (in_doc d) sel w = (Val None, w1) ->
    misses d sels w1 w2 ->
    misses d (sel :: sels) w w2.

End MoreVocabulary.

(** A page that shows an open circle, and no calendar iframe. *)
Definition open_site : Sim.site :=
  {| Sim.goto_result := Val tt;
     Sim.has_iframe := false;
     Sim.calendar_text := fun _ => str "7 " ++ [9675%N];
     Sim.has_next_arrow := false;
     Sim.day_cell := None;
     Sim.day_query_result := None;
     Sim.days_listing_result := None;
     Sim.day_texts := [];
     Sim.screenshot_result := fun _ => Val tt |}.

(** * Properties *)

(** ** Texts and patterns *)

Module TextFacts.

Lemma prefix_of_spec (p t : text) :
  prefix_of p t = true <-> exists post, t = p ++ post.
Proof.
  revert t; induction p as [|a p IH]; intros t; simpl.
  - split; [intros _; now exists t | reflexivity].
  - destruct t as [|b t].
    + split; [discriminate | intros [post H]; discriminate].
    + rewrite andb_true_iff, N.eqb_eq, IH. split.
      * intros [-> [post ->]]. now exists post.
      * intros [post H]. injection H as -> ->. split; [reflexivity | now exists post].
Qed.

Lemma contains_Infix (needle hay : text) :
  contains needle hay = true <-> Infix needle hay.
Proof.
  unfold Infix. induction hay as [|c hay IH].
  - simpl. rewrite orb_false_r, prefix_of_spec. split.
    + intros [post H]. now exists [], post.
    + intros [pre [post H]]. destruct pre; [now exists post | discriminate].
  - cbn [contains]. rewrite orb_true_iff, prefix_of_spec, IH. split.
    + intros [[post H] | [pre [post H]]].
      * now exists [], post.
      * exists (c :: pre), post. simpl. now rewrite H.
    + intros [pre [post H]]. destruct pre as [|c' pre].
      * left. now exists post.
      * right. injection H as _ H. now exists pre, post.
Qed.

Lemma contains_not_Infix (needle hay : text) :
  contains needle hay = false <-> ~ Infix needle hay.
Proof.
  rewrite <- contains_Infix. destruct (contains needle hay); split; congruence.
Qed.

Lemma take_length (n : nat) (s : text) : List.length (take n s) <= n.
Proof. unfold take. rewrite length_firstn. lia. Qed.

End TextFacts.

Module RegexFacts.

Lemma match_here_star (a : atom) (p : pattern) (t : text) :
  match_here (Many a :: p) t =
  match_here p t ||
  match t with
  | [] => false
  | c :: t' => atom_match a c && match_here (Many a :: p) t'
  end.
Proof. destruct t; reflexivity. Qed.

Lemma match_here_sound (p : pattern) :
  forall t, match_here p t = true ->
            exists m rest, t = m ++ rest /\ matches p m.
Proof.
  induction p as [|[a|a] p IH]; intros t H.
  - exists [], t. split; [reflexivity | constructor].
  - destruct t as [|c t]; [discriminate|]. simpl in H.
    apply andb_true_iff in H as [Ha H]. apply IH in H as (m & rest & -> & Hm).
    exists (c :: m), rest. split; [reflexivity | now constructor].
  - induction t as [|c t IHt]; rewrite match_here_star in H.
    + rewrite orb_false_r in H. apply IH in H as (m & rest & E & Hm).
      exists m, rest. split; [assumption | now apply matches_many_stop].
    + apply orb_true_iff in H as [H | H].
      * apply IH in H as (m & rest & E & Hm).
        exists m, rest. split; [assumption | now apply matches_many_stop].
      * apply andb_true_iff in H as [Ha H].
        apply IHt in H as (m & rest & -> & Hm).
        exists (c :: m), rest. split; [reflexivity | now apply matches_many_more].
Qed.

Lemma match_here_complete (p : pattern) (m : text) :
  matches p m -> forall rest, match_here p (m ++ rest) = true.
Proof.
  induction 1 as [|a c p m Ha _ IH|a p m _ IH|a c p m Ha _ IH]; intros rest.
  - reflexivity.
  - simpl. now rewrite Ha, IH.
  - rewrite match_here_star, IH. reflexivity.
  - rewrite match_here_star. simpl. rewrite Ha, IH. apply orb_true_r.
Qed.

Lemma search_occurs (p : pattern) (t : text) :
  search p t = true <-> occurs p t.
Proof.
  unfold occurs. induction t as [|c t IH].
  - simpl. rewrite orb_false_r. split.
    + intros H. apply match_here_sound in H as (m & rest & E & Hm).
      exists [], m, rest. now split.
    + intros (pre & m & post & E & Hm).
      destruct pre; [|discriminate]. simpl in E. rewrite E.
      now apply match_here_complete.
  - cbn [search]. rewrite orb_true_iff, IH. split.
    + intros [H | (pre & m & post & E & Hm)].
      * apply match_here_sound in H as (m & rest & E & Hm).
        exists [], m, rest. now split.
      * exists (c :: pre), m, post. split; [simpl; now rewrite E | assumption].
    + intros (pre & m & post & E & Hm). destruct pre as [|c' pre].
      * left. simpl in E. rewrite E. now apply match_here_complete.
      * right. injection E as _ E. now exists pre, m, post.
Qed.

Lemma any_search_spec (pats : list pattern) (t : text) :
  any_search pats t = true <-> exists p, In p pats /\ occurs p t.
Proof.
  induction pats as [|pat pats IH]; simpl.
  - split; [discriminate | intros (p & [] & _)].
  - destruct (search pat t) eqn:E.
    + split; [intros _ | reflexivity].
      exists pat. split; [now left | now apply search_occurs].
    + rewrite IH. split.
      * intros (p & Hin & Hp). exists p. split; [now right | assumption].
      * intros (p & [<- | Hin] & Hp).
        -- apply search_occurs in Hp. congruence.
        -- now exists p.
Qed.

Lemma any_search_none (pats : list pattern) (t : text) :
  any_search pats t = false <-> forall p, In p pats -> ~ occurs p t.
Proof.
  split.
  - intros H p Hin Hp.
    assert (any_search pats t = true) by (apply any_search_spec; now exists p).
    congruence.
  - intros H. destruct (any_search pats t) eqn:E; [|reflexivity].
    apply any_search_spec in E as (p & Hin & Hp). now destruct (H p Hin).
Qed.

(** A literal word of the source occurs in a text that contains it. *)
Lemma matches_lits (s : text) :
  matches (map (fun c => Once (Lit c)) s) s.
Proof.
  induction s as [|c s IH]; simpl; constructor; [|assumption].
  unfold atom_match, ci_match. now rewrite N.eqb_refl.
Qed.

End RegexFacts.
Import TextFacts RegexFacts.

(** ** Case, whitespace and the markers in a text *)

Module HeuristicFacts.

Local Open Scope N_scope.

Ltac decide_N :=
  repeat match goal with
         | |- context [(?a =? ?b)] => destruct (N.eqb_spec a b); try lia
         | |- context [(?a <=? ?b)] => destruct (N.leb_spec a b); try lia
         end.

Lemma lower_ascii_cases c :
  (65 <= c <= 90 /\ lower_ascii c = c + 32) \/
  ((c < 65 \/ 90 < c) /\ lower_ascii c = c).
Proof.
  unfold lower_ascii.
  destruct (N.leb_spec 65 c), (N.leb_spec c 90); simpl;
    [left | right | right | right]; (split; [lia | reflexivity]).
Qed.

Lemma lower_ascii_idempotent c : lower_ascii (lower_ascii c) = lower_ascii c.
Proof.
  destruct (lower_ascii_cases c) as [[H ->] | [H ->]].
  - destruct (lower_ascii_cases (c + 32)) as [[H' _] | [_ ->]]; [lia | reflexivity].
  - destruct (lower_ascii_cases c) as [[H' _] | [_ ->]]; [lia | reflexivity].
Qed.

Lemma same_letter_cases c c' :
  same_letter c c' -> c = c' \/ (65 <= c <= 122 /\ 65 <= c' <= 122).
Proof.
  unfold same_letter.
  destruct (lower_ascii_cases c) as [[H ->] | [H ->]],
           (lower_ascii_cases c') as [[H' ->] | [H' ->]]; lia.
Qed.

Lemma ci_match_same p c c' :
  same_letter c c' -> ci_match p c = ci_match p c'.
Proof.
  intros H. destruct (same_letter_cases H) as [-> | [Hc Hc']]; [reflexivity|].
  unfold ci_match. unfold same_letter in H. rewrite H.
  assert (E : forall n, 128 <= n -> (c =? n) = false /\ (c' =? n) = false).
  { intros n Hn. split; apply N.eqb_neq; lia. }
  destruct (E 8490) as [-> ->]; [lia|]. destruct (E 304) as [-> ->]; [lia|].
  destruct (E 305) as [-> ->]; [lia|]. destruct (E 383) as [-> ->]; [lia|].
  reflexivity.
Qed.

Lemma is_space_same c c' : same_letter c c' -> is_space c = is_space c'.
Proof.
  intros H. destruct (same_letter_cases H) as [-> | [Hc Hc']]; [reflexivity|].
  unfold is_space. decide_N; reflexivity.
Qed.

Lemma atom_match_same a c c' :
  same_letter c c' -> atom_match a c = atom_match a c'.
Proof.
  intros H. destruct a as [p|cs|]; simpl.
  - now apply ci_match_same.
  - induction cs as [|p cs IH]; [reflexivity|]. simpl.
    now rewrite (ci_match_same p H), IH.
  - now apply is_space_same.
Qed.

Lemma match_here_same p : forall t t',
  Forall2 same_letter t t' -> match_here p t = match_here p t'.
Proof.
  induction p as [|[a|a] p IH]; intros t t' H.
  - reflexivity.
  - destruct H as [|c c' t t' Hc H]; [reflexivity|]. simpl.
    now rewrite (atom_match_same a Hc), (IH _ _ H).
  - induction H as [|c c' t t' Hc H IHt].
    + reflexivity.
    + rewrite (match_here_star a p (c :: t)), (match_here_star a p (c' :: t')).
      rewrite (IH (c :: t) (c' :: t')) by now constructor.
      now rewrite (atom_match_same a Hc), IHt.
Qed.

Lemma search_same p t t' :
  Forall2 same_letter t t' -> search p t = search p t'.
Proof.
  induction 1 as [|c c' t t' Hc H IH]; [reflexivity|].
  cbn [search]. rewrite IH. f_equal. apply match_here_same. now constructor.
Qed.

Lemma any_search_same pats t t' :
  Forall2 same_letter t t' -> any_search pats t = any_search pats t'.
Proof.
  intros H. induction pats as [|p pats IH]; [reflexivity|]. simpl.
  now rewrite (search_same p H), IH.
Qed.

Lemma same_letter_refl t : Forall2 same_letter t t.
Proof. induction t; constructor; [reflexivity | assumption]. Qed.

Lemma same_letter_lower t : Forall2 same_letter (map lower_ascii t) t.
Proof.
  induction t as [|c t IH]; constructor; [|exact IH].
  apply lower_ascii_idempotent.
Qed.

Lemma occurs_app_l p a b : occurs p a -> occurs p (a ++ b).
Proof.
  intros (pre & m & post & -> & Hm). exists pre, m, (post ++ b).
  split; [now rewrite <- !app_assoc | exact Hm].
Qed.

Lemma occurs_app_r p a b : occurs p b -> occurs p (a ++ b).
Proof.
  intros (pre & m & post & -> & Hm). exists (a ++ pre), m, post.
  split; [now rewrite <- !app_assoc | exact Hm].
Qed.

Lemma occurs_single a t :
  occurs [Once a] t <-> exists c, In c t /\ atom_match a c = true.
Proof.
  split.
  - intros (pre & m & post & -> & Hm). inversion Hm as [|a0 c p m0 Ha Hn| |]; subst.
    exists c. split; [|exact Ha]. apply in_or_app. right. now left.
  - intros (c & Hin & Ha). apply in_split in Hin as (pre & post & ->).
    exists pre, [c], post. split; [reflexivity|]. constructor; [exact Ha | constructor].
Qed.

Lemma ci_match_symbol p c : 128 <= p -> ci_match p c = true -> c = p.
Proof.
  intros Hp. unfold ci_match.
  destruct (lower_ascii_cases p) as [[H _] | [_ ->]]; [lia|].
  assert (E : forall n, n < 128 -> (p =? n) = false).
  { intros n Hn. apply N.eqb_neq. lia. }
  rewrite (E 107), (E 105), (E 115) by lia. simpl. rewrite !orb_false_r.
  intros H. apply N.eqb_eq in H.
  destruct (lower_ascii_cases c) as [[Hc Hl] | [_ Hl]]; rewrite Hl in H; lia.
Qed.

Lemma positive_occurs t :
  (exists p, In p AVAILABILITY_POSITIVE /\ occurs p t) <->
  exists c, In c t /\ In c positive_symbols.
Proof.
  split.
  - intros (p & [<- | [<- | []]] & Ho); apply occurs_single in Ho as (c & Hin & Ha);
      exists c; (split; [exact Hin|]).
    + simpl in Ha. rewrite orb_false_r in Ha. apply orb_true_iff in Ha as [Ha | Ha];
        apply ci_match_symbol in Ha; try (compute; discriminate); subst;
        simpl; auto.
    + simpl in Ha. apply ci_match_symbol in Ha; [|compute; discriminate].
      subst. simpl. auto.
  - intros (c & Hin & [<- | [<- | [<- | []]]]).
    + exists [Once (OneOf circle_chars)]. split; [now left|].
      apply occurs_single. now exists 9675.
    + exists [Once (OneOf circle_chars)]. split; [now left|].
      apply occurs_single. now exists 9711.
    + exists [Once (Lit triangle_char)]. split; [right; now left|].
      apply occurs_single. now exists triangle_char.
Qed.

Lemma matches_lits_then (s : text) p m :
  matches p m -> matches (map (fun c => Once (Lit c)) s ++ p) (s ++ m).
Proof.
  intros H. induction s as [|c s IH]; simpl; [exact H|].
  constructor; [|exact IH]. unfold atom_match, ci_match. now rewrite N.eqb_refl.
Qed.

Lemma matches_spaces_then ws p m :
  forallb is_space ws = true -> matches p m ->
  matches (Many Space :: p) (ws ++ m).
Proof.
  intros Hs H. induction ws as [|c ws IH]; simpl.
  - now apply matches_many_stop.
  - simpl in Hs. apply andb_true_iff in Hs as [Hc Hs].
    apply matches_many_more; [exact Hc | now apply IH].
Qed.

Lemma spaced_words_occur (w1 w2 ws : text) a b :
  forallb is_space ws = true ->
  occurs (map (fun c => Once (Lit c)) w1 ++ [Many Space]
          ++ map (fun c => Once (Lit c)) w2)
    (a ++ w1 ++ ws ++ w2 ++ b).
Proof.
  intros Hs. exists a, (w1 ++ ws ++ w2), b.
  split; [now rewrite <- !app_assoc|].
  apply matches_lits_then. simpl. apply matches_spaces_then; [exact Hs|].
  rewrite <- (app_nil_r w2) at 2. rewrite <- (app_nil_r (map _ w2)).
  apply matches_lits_then. constructor.
Qed.

End HeuristicFacts.
Import HeuristicFacts.

Module MarkerFacts.

Local Open Scope N_scope.

Lemma ci_match_stands p c :
  97 <= lower_ascii p <= 122 ->
  ci_match p c = true <-> stands_for (lower_ascii p) c.
Proof.
  intros Hp. unfold ci_match, stands_for.
  rewrite !orb_true_iff, !andb_true_iff, !orb_true_iff, !N.eqb_eq.
  destruct (lower_ascii_cases c) as [[Hc ->] | [Hc ->]]; lia.
Qed.

Lemma word_forms (P : text) u :
  Forall (fun p => 97 <= lower_ascii p <= 122) P ->
  Forall2 (fun p c => ci_match p c = true) P u <->
  Forall2 stands_for (map lower_ascii P) u.
Proof.
  intros HP. revert u. induction HP as [|p P Hp _ IH]; intros u; simpl.
  - split; intros H; inversion H; constructor.
  - split; intros H; inversion H; subst; constructor;
      try (now apply IH); now apply (ci_match_stands p).
Qed.

Lemma matches_nil_inv m : matches [] m -> m = [].
Proof. now inversion 1. Qed.

Lemma matches_word_inv (P : text) p : forall m,
  matches (map (fun c => Once (Lit c)) P ++ p) m ->
  exists u m', m = u ++ m' /\ Forall2 (fun q c => ci_match q c = true) P u /\
               matches p m'.
Proof.
  induction P as [|q P IH]; intros m H; simpl in H.
  - exists [], m. repeat split; [constructor | exact H].
  - inversion H as [|a c p0 m0 Ha Hm| |]; subst.
    apply IH in Hm as (u & m' & -> & Hu & Hm').
    exists (c :: u), m'. repeat split; [now constructor | exact Hm'].
Qed.

Lemma matches_word_then (P : text) u p m :
  Forall2 (fun q c => ci_match q c = true) P u -> matches p m ->
  matches (map (fun c => Once (Lit c)) P ++ p) (u ++ m).
Proof.
  intros H Hm. induction H as [|q c P u Hq _ IH]; simpl; [exact Hm|].
  now constructor.
Qed.

Lemma matches_spaces_inv q m :
  matches q m -> forall p, q = Many Space :: p ->
  exists ws m', m = ws ++ m' /\ forallb is_space ws = true /\ matches p m'.
Proof.
  induction 1 as [|a c p0 m _ _ _|a p0 m Hm _|a c p0 m Ha _ IH]; intros p E;
    try discriminate.
  - injection E as -> ->. exists [], m. now repeat split.
  - injection E as -> ->. destruct (IH p eq_refl) as (ws & m' & -> & Hs & Hm').
    exists (c :: ws), m'. simpl in Ha |- *. rewrite Ha, Hs. now repeat split.
Qed.

(** The two-word patterns. *)
Lemma two_words_occur (P1 P2 : text) t :
  occurs (map (fun c => Once (Lit c)) P1 ++ [Many Space]
          ++ map (fun c => Once (Lit c)) P2) t <->
  exists u ws v,
    Forall2 (fun q c => ci_match q c = true) P1 u /\
    forallb is_space ws = true /\
    Forall2 (fun q c => ci_match q c = true) P2 v /\
    Infix (u ++ ws ++ v) t.
Proof.
  split.
  - intros (pre & m & post & -> & Hm).
    apply matches_word_inv in Hm as (u & m1 & -> & Hu & Hm).
    simpl in Hm. apply (fun H => matches_spaces_inv H eq_refl) in Hm
      as (ws & m2 & -> & Hs & Hm).
    rewrite <- (app_nil_r (map _ P2)) in Hm.
    apply matches_word_inv in Hm as (v & m3 & -> & Hv & Hm).
    apply matches_nil_inv in Hm as ->. rewrite app_nil_r.
    exists u, ws, v. repeat split; try assumption. now exists pre, post.
  - intros (u & ws & v & Hu & Hs & Hv & pre & post & ->).
    exists pre, (u ++ ws ++ v), post. split; [reflexivity|].
    apply matches_word_then; [exact Hu|]. simpl.
    apply matches_spaces_then; [exact Hs|].
    rewrite <- (app_nil_r v), <- (app_nil_r (map _ P2)).
    apply matches_word_then; [exact Hv | constructor].
Qed.

Lemma one_word_occurs (P : text) t :
  occurs (map (fun c => Once (Lit c)) P) t <->
  exists u, Forall2 (fun q c => ci_match q c = true) P u /\ Infix u t.
Proof.
  split.
  - intros (pre & m & post & -> & Hm).
    rewrite <- (app_nil_r (map _ P)) in Hm.
    apply matches_word_inv in Hm as (u & m1 & -> & Hu & Hm).
    apply matches_nil_inv in Hm as ->. rewrite app_nil_r.
    exists u. split; [exact Hu | now exists pre, post].
  - intros (u & Hu & pre & post & ->).
    exists pre, u, post. split; [reflexivity|].
    rewrite <- (app_nil_r u), <- (app_nil_r (map _ P)).
    apply matches_word_then; [exact Hu | constructor].
Qed.

Lemma written_word (P : string) (w : string) u :
  map lower_ascii (str P) = str w ->
  forallb (fun p => (97 <=? lower_ascii p) && (lower_ascii p <=? 122)) (str P) = true ->
  Forall2 (fun q c => ci_match q c = true) (str P) u <-> written w u.
Proof.
  intros E Hr. unfold written. rewrite <- E. apply word_forms.
  apply Forall_forall. intros p Hin.
  rewrite forallb_forall in Hr. specialize (Hr p Hin).
  apply andb_true_iff in Hr as [H1 H2].
  apply N.leb_le in H1, H2. now split.
Qed.

Lemma crosses_occur t :
  occurs [Once (OneOf cross_chars)] t <-> In 215 t \/ In 10005 t \/ In 10006 t.
Proof.
  rewrite occurs_single. split.
  - intros (c & Hin & Ha). simpl in Ha. rewrite orb_false_r in Ha.
    apply orb_true_iff in Ha as [Ha | Ha];
      [|apply orb_true_iff in Ha as [Ha | Ha]];
      apply ci_match_symbol in Ha; try (compute; discriminate); subst; auto.
  - intros [H | [H | H]]; eexists; (split; [exact H | reflexivity]).
Qed.

Lemma negative_occurs t :
  (exists p, In p AVAILABILITY_NEGATIVE /\ occurs p t) <-> negative_marker t.
Proof.
  unfold negative_marker.
  rewrite <- (crosses_occur t).
  assert (S : forall (P1 P2 w1 w2 : string),
             map lower_ascii (str P1) = str w1 ->
             forallb (fun p => (97 <=? lower_ascii p) && (lower_ascii p <=? 122))
               (str P1) = true ->
             map lower_ascii (str P2) = str w2 ->
             forallb (fun p => (97 <=? lower_ascii p) && (lower_ascii p <=? 122))
               (str P2) = true ->
             occurs (lits P1 ++ [Many Space] ++ lits P2) t <->
             exists u ws v, written w1 u /\ forallb is_space ws = true /\
                            written w2 v /\ Infix (u ++ ws ++ v) t).
  { intros P1 P2 w1 w2 E1 R1 E2 R2. unfold lits. rewrite two_words_occur.
    split; intros (u & ws & v & Hu & Hs & Hv & Hi); exists u, ws, v;
      (repeat split; [ | exact Hs | | exact Hi]);
      first [ now apply (written_word P1 w1 u E1 R1)
            | now apply (written_word P2 w2 v E2 R2) ]. }
  assert (U : occurs (lits "Unavailable") t <->
              exists u, written "unavailable" u /\ Infix u t).
  { unfold lits. rewrite one_word_occurs.
    split; intros (u & Hu & Hi); exists u; (split; [|exact Hi]);
      now apply (written_word "Unavailable" "unavailable" u). }
  rewrite <- (S "Sold" "out" "sold" "out")%string by reflexivity.
  rewrite <- (S "Fully" "booked" "fully" "booked")%string by reflexivity.
  rewrite <- U.
  split.
  - intros (p & [<- | [<- | [<- | [<- | []]]]] & Ho); auto.
  - intros [H | [H | [H | H]]]; eexists; (split; [|exact H]); simpl; auto.
Qed.

Lemma positive_marker_occurs t :
  (exists p, In p AVAILABILITY_POSITIVE /\ occurs p t) <-> positive_marker t.
Proof.
  rewrite positive_occurs. unfold positive_marker. split.
  - intros (c & Hin & [<- | [<- | [<- | []]]]); auto.
  - intros [H | [H | H]]; eexists; (split; [exact H|]); simpl; auto.
Qed.

Lemma negative_marker_search t :
  any_search AVAILABILITY_NEGATIVE t = true <-> negative_marker t.
Proof. now rewrite any_search_spec, negative_occurs. Qed.

Lemma positive_marker_search t :
  any_search AVAILABILITY_POSITIVE t = true <-> positive_marker t.
Proof. now rewrite any_search_spec, positive_marker_occurs. Qed.

(** The answer in terms of the markers. *)
Lemma looks_available_markers t :
  looks_available t = true <-> ~ negative_marker t /\ positive_marker t.
Proof.
  unfold looks_available.
  rewrite <- negative_marker_search, <- positive_marker_search.
  destruct (any_search AVAILABILITY_NEGATIVE t),
           (any_search AVAILABILITY_POSITIVE t); split;
    try discriminate; try (intros [H1 H2]; congruence); intros _;
    split; congruence.
Qed.

End MarkerFacts.
Import MarkerFacts.

(** Settles [written w u] for a given word. *)
Ltac written_so :=
  unfold written; cbn;
  repeat (apply Forall2_cons; [unfold stands_for; lia|]); apply Forall2_nil.

(** ** The full-page heuristic *)

(** C1.  [looks_available] is a total function of the page text.  If the
    text holds a negative marker, the answer is [False], whatever else the
    text holds: "Sold out" or "Fully booked" with any whitespace, or none,
    between the two words, "Unavailable", each in any capitalisation, or one
    of the crosses U+00D7, U+2715 and U+2716.  If it holds no negative marker
    and holds a positive one, an open circle U+25CB or U+25EF or the triangle
    U+25B3, the answer is [True]; if it holds no marker of either class, the
    answer is [False].  A text that holds "Sold out" and then an open circle
    is answered [False]. *)
Theorem looks_available_negative_first (t : text) :
  (negative_marker t -> looks_available t = false) /\
  (~ negative_marker t -> positive_marker t -> looks_available t = true) /\
  (~ negative_marker t -> ~ positive_marker t -> looks_available t = false) /\
  (forall a b c : text,
     t = a ++ str "Sold out" ++ b ++ [9675%N] ++ c ->
     looks_available t = false).
Proof.
  assert (N : negative_marker t -> looks_available t = false).
  { intros H. destruct (looks_available t) eqn:E; [|reflexivity].
    apply looks_available_markers in E as [E _]. now destruct E. }
  split; [exact N|]. split; [|split].
  - intros Hn Hp. now apply looks_available_markers.
  - intros Hn Hp. destruct (looks_available t) eqn:E; [|reflexivity].
    apply looks_available_markers in E as [_ E]. now destruct Hp.
  - intros a b c ->. apply N. left.
    exists (str "Sold"), (str " "), (str "out").
    split; [|split; [reflexivity|split]].
    + written_so.
    + written_so.
    + exists a, (b ++ [9675%N] ++ c). now rewrite <- !app_assoc.
Qed.

Lemma looks_available_sold_out_circle :
  looks_available (str "Status: Sold out " ++ [9675%N]) = false.
Proof.
  apply (proj2 (proj2 (proj2 (looks_available_negative_first _)))
           (str "Status: ") (str " ") []).
  reflexivity.
Defined.

(** ** The state-and-exception computations *)

Section MonadFacts.

Variable W : Type.
Local Abbreviation state := (state W).
Local Abbreviation M := (M W).

Lemma bind_val {A C} (m : M A) (k : A -> M C) s a s1 :
  m s = (Val a, s1) -> bind m k s = k a s1.
Proof. unfold bind. now intros ->. Qed.

Lemma bind_exc {A C} (m : M A) (k : A -> M C) s e s1 :
  m s = (Exc e, s1) -> bind m k s = (Exc e, s1).
Proof. unfold bind. now intros ->. Qed.

Lemma bind_val_inv {A C} (m : M A) (k : A -> M C) s c s' :
  bind m k s = (Val c, s') ->
  exists a s1, m s = (Val a, s1) /\ k a s1 = (Val c, s').
Proof.
  unfold bind. destruct (m s) as [[a|e] s1]; intros H.
  - now exists a, s1.
  - discriminate.
Qed.

Lemma bind_exc_inv {A C} (m : M A) (k : A -> M C) s e s' :
  bind m k s = (Exc e, s') ->
  m s = (Exc e, s') \/ exists a s1, m s = (Val a, s1) /\ k a s1 = (Exc e, s').
Proof.
  unfold bind. destruct (m s) as [[a|e0] s1]; intros H.
  - right. now exists a, s1.
  - left. now injection H as -> ->.
Qed.

(** A handler that returns makes the whole [try] return. *)
Lemma try_except_returns {A} (m : M A) (h : exn -> M A) s :
  (forall e s1, exists a, fst (h e s1) = Val a) ->
  exists a, fst (try_except m h s) = Val a.
Proof.
  intros Hh. unfold try_except. destruct (m s) as [[a|e] s1].
  - now exists a.
  - apply Hh.
Qed.

Section Moves.

Variable Rl : state -> state -> Prop.
Hypothesis F : frame_rel Rl.

Lemma moves_ret {A} (a : A) : moves Rl (ret a).
Proof. intros s. apply (fr_refl F). Qed.

Lemma moves_raise {A} (e : exn) : moves Rl (@raise W A e).
Proof. intros s. apply (fr_refl F). Qed.

Lemma moves_of_outcome {A} (o : outcome A) : moves Rl (of_outcome o).
Proof. intros s. apply (fr_refl F). Qed.

Lemma moves_read {A} (f : state -> A) : moves Rl (read f).
Proof. intros s. apply (fr_refl F). Qed.

Lemma moves_call {A} (op : W -> outcome A * W) : moves Rl (call op).
Proof.
  intros s. unfold call. destruct (op (world s)) as [r w]. apply (fr_world F).
Qed.

Lemma moves_modify (f : state -> state) :
  (forall s, Rl s (f s)) -> moves Rl (modify f).
Proof. intros H s. apply H. Qed.

Lemma moves_bind {A C} (m : M A) (k : A -> M C) :
  moves Rl m -> (forall a, moves Rl (k a)) -> moves Rl (bind m k).
Proof.
  intros Hm Hk s. unfold bind. specialize (Hm s).
  destruct (m s) as [[a|e] s1]; simpl in Hm.
  - eapply (fr_trans F); [exact Hm | apply Hk].
  - exact Hm.
Qed.

Lemma moves_try {A} (m : M A) (h : exn -> M A) :
  moves Rl m -> (forall e, moves Rl (h e)) -> moves Rl (try_except m h).
Proof.
  intros Hm Hh s. unfold try_except. specialize (Hm s).
  destruct (m s) as [[a|e] s1]; simpl in Hm.
  - exact Hm.
  - eapply (fr_trans F); [exact Hm | apply Hh].
Qed.

Lemma moves_finally {A} (m : M A) (f : M unit) :
  moves Rl m -> moves Rl f -> moves Rl (finally m f).
Proof.
  intros Hm Hf s. unfold finally. specialize (Hm s).
  destruct (m s) as [r s1]; simpl in Hm. specialize (Hf s1).
  destruct (f s1) as [[u|e] s2]; simpl in Hf |- *;
    eapply (fr_trans F); eassumption.
Qed.

End Moves.

Lemma grows_frame (P : event -> bool) : frame_rel (@grows W P).
Proof.
  split.
  - intros s. exists []. now rewrite app_nil_r.
  - intros a b c (e1 & H1 & P1) (e2 & H2 & P2). exists (e1 ++ e2).
    rewrite H2, H1, app_assoc, forallb_app, P1, P2. now split.
  - intros w s. exists []. simpl. now rewrite app_nil_r.
Qed.

Lemma grows_event (P : event -> bool) (ev : event) (s : state) :
  P ev = true -> grows P s (add_event ev s).
Proof. intros H. exists [ev]. simpl. now rewrite H. Qed.

Lemma grows_same_trace (P : event -> bool) (s s' : state) :
  trace s' = trace s -> grows P s s'.
Proof. intros H. exists []. now rewrite app_nil_r. Qed.

End MonadFacts.

Ltac head_of t :=
  lazymatch t with
  | ?f _ => head_of f
  | _ => t
  end.

(** Walks through straight-line code; [prim] settles what a [modify] does
    and [known] the parts that have a lemma of their own. *)
Ltac moves_walk F prim known :=
  repeat (intros;
    first
      [ solve [known]
      | lazymatch goal with
        | |- moves _ (bind _ _) => apply (moves_bind F)
        | |- moves _ (try_except _ _) => apply (moves_try F)
        | |- moves _ (finally _ _) => apply (moves_finally F)
        | |- moves _ (ret _) => apply (moves_ret F)
        | |- moves _ (raise _) => apply (moves_raise F)
        | |- moves _ (of_outcome _) => apply (moves_of_outcome F)
        | |- moves _ (read _) => apply (moves_read F)
        | |- moves _ (call _) => apply (moves_call F)
        | |- moves _ (modify _) => apply moves_modify; intros; prim
        | |- moves _ (match ?x with _ => _ end) => destruct x
        | |- moves _ ?m => let h := head_of m in unfold h
        end ]).

Section Loops.

Variables (W : Type) (B : Browser W) (R : Runtime) (cfg : Config).
Variable Rl : state W -> state W -> Prop.
Hypothesis F : frame_rel Rl.

Lemma moves_find_day cal sels : moves Rl (find_day B cal sels).
Proof.
  induction sels as [|sel sels IH]; simpl;
    moves_walk F idtac ltac:(exact IH).
Qed.

Lemma moves_collect_days days : moves Rl (collect_days B R days).
Proof.
  induction days as [|d days IH]; simpl;
    moves_walk F idtac ltac:(exact IH).
Qed.

Lemma moves_try_selectors sels :
  (forall e s, Rl s (add_event (ev_click at_date_cell e) s)) ->
  moves Rl (try_selectors B sels).
Proof.
  intros H. induction sels as [|sel sels IH]; simpl;
    moves_walk F ltac:(apply H) ltac:(exact IH).
Qed.

Lemma moves_print_rows rs :
  (forall r s, In r rs -> Rl s (add_event (ev_print (msg_summary_row r)) s)) ->
  moves Rl (@print_rows W rs).
Proof.
  induction rs as [|r rs IH]; intros H; simpl.
  - apply (moves_ret F).
  - moves_walk F ltac:(apply H; now left) ltac:(apply IH; intros; apply H; now right).
Qed.

Lemma moves_date_loop ds :
  (forall d, moves Rl (check_date B R d)) -> moves Rl (date_loop B R ds).
Proof.
  intros H. induction ds as [|d ds IH]; simpl.
  - apply (moves_ret F).
  - apply (moves_bind F); [apply H | intros _; exact IH].
Qed.

End Loops.

(** ** What the parts of the script add to the trace *)

Ltac grows_prim :=
  first [ apply grows_same_trace; reflexivity
        | apply grows_event; solve [auto | reflexivity] ].

Section Grows.

Variables (W : Type) (B : Browser W) (R : Runtime) (cfg : Config).
Variable P : event -> bool.

Let F := grows_frame W P.

Lemma grows_close_all :
  P ev_close_context = true -> P ev_close_browser = true ->
  moves (grows P) (close_all B).
Proof. intros H1 H2. moves_walk F grows_prim fail. Qed.

Lemma grows_dismiss_popup :
  (forall e, P (ev_click at_popup_ok e) = true) ->
  moves (grows P) (dismiss_popup B).
Proof. intros H. moves_walk F grows_prim fail. Qed.

Lemma grows_find_iframe :
  (forall e, P (ev_click at_next_before e) = true) ->
  moves (grows P) (find_iframe B R).
Proof. intros H. moves_walk F grows_prim fail. Qed.


Lemma grows_navigate_in_loop cal y m :
  (forall e, P (ev_click at_next_in_loop e) = true) ->
  moves (grows P) (navigate_in_loop B cal y m).
Proof. intros H. moves_walk F grows_prim fail. Qed.

Lemma grows_inspect_date cal day :
  (forall l, P (ev_print (msg_available_days l)) = true) ->
  moves (grows P) (inspect_date B R cal day).
Proof.
  intros H.
  moves_walk F grows_prim
    ltac:(first [apply (moves_find_day B F) | apply (moves_collect_days B R F)]).
Qed.

Lemma grows_take_screenshot cal d :
  (forall t p, P (ev_screenshot t p) = true) ->
  moves (grows P) (take_screenshot B cal d).
Proof. intros H. moves_walk F grows_prim fail. Qed.

Lemma grows_check_date d :
  (forall e, P (ev_click at_next_in_loop e) = true) ->
  (forall l, P (ev_print (msg_available_days l)) = true) ->
  (forall t p, P (ev_screenshot t p) = true) ->
  moves (grows P) (check_date B R d).
Proof.
  intros H1 H2 H3. unfold check_date.
  moves_walk F grows_prim
    ltac:(first [ apply grows_navigate_in_loop; assumption
                | apply grows_inspect_date; assumption
                | apply grows_take_screenshot; assumption ]).
Qed.

Lemma grows_print_summary :
  (forall ev, is_summary ev = true -> P ev = true) ->
  moves (grows P) (@print_summary W).
Proof.
  intros H.
  moves_walk F grows_prim
    ltac:(apply (moves_print_rows F); intros; apply grows_event; now apply H).
Qed.

(** Everything the multi-date script does before it prints the summary. *)
Lemma grows_until_summary ds :
  (forall e, P (ev_click at_popup_ok e) = true) ->
  (forall e, P (ev_click at_next_before e) = true) ->
  (forall e, P (ev_click at_next_in_loop e) = true) ->
  (forall l, P (ev_print (msg_available_days l)) = true) ->
  (forall t p, P (ev_screenshot t p) = true) ->
  moves (grows P) (visit_and_check B R cfg ds).
Proof.
  intros H1 H2 H3 H4 H5. unfold visit_and_check.
  repeat (apply (moves_bind F); [|intros _]).
  - apply (moves_call F).
  - apply (moves_call F).
  - now apply grows_dismiss_popup.
  - now apply grows_find_iframe.
  - apply (moves_date_loop F). intros d. now apply grows_check_date.
Qed.

End Grows.

(** ** Notifications *)

Section Notifications.

Variables (W : Type) (B : Browser W) (R : Runtime) (cfg : Config).

Lemma notified_frame : frame_rel (notified_after_heuristic B).
Proof.
  split.
  - intros s. exists []. rewrite app_nil_r. split; [reflexivity | now left].
  - intros a b c (e1 & H1 & P1) (e2 & H2 & P2). exists (e1 ++ e2).
    split; [now rewrite H2, H1, app_assoc|].
    destruct P1 as [P1 | [I1 X1]].
    + destruct P2 as [P2 | [I2 X2]].
      * left. now rewrite forallb_app, P1, P2.
      * right. split; [apply in_or_app; now right | exact X2].
    + right. split; [apply in_or_app; now left | exact X1].
  - intros w s. exists []. simpl. rewrite app_nil_r. split; [reflexivity | now left].
Qed.

Lemma notified_quiet_event (ev : event) (s : state W) :
  is_notify ev = false -> notified_after_heuristic B s (add_event ev s).
Proof.
  intros H. exists [ev]. split; [reflexivity|]. left.
  unfold not_notify. simpl. now rewrite H.
Qed.

(** The three channels are reached only behind the heuristic line. *)
Lemma announce_after_page_text :
  moves (notified_after_heuristic B)
    (bind (call (body_inner_text B Page))
       (fun full_text =>
          bind (announce cfg (looks_available full_text))
            (fun _ => ret 0%Z))).
Proof.
  intros s. unfold bind at 1. unfold call.
  destruct (body_inner_text B Page (world s)) as [[full_text|e] w] eqn:E.
  - destruct (looks_available full_text) eqn:L.
    + assert (G : exists evs,
                 trace (snd (bind (announce cfg true) (fun _ => ret 0%Z)
                               (set_world w s))) = trace s ++ evs /\
                 In (ev_print (msg_heuristic true)) evs).
      { unfold announce, desktop_notify, telegram_notify, email_notify.
        destruct (negb (DESKTOP_NOTIFY cfg)),
          (negb (nonempty (TELEGRAM_BOT_TOKEN cfg) && nonempty (TELEGRAM_CHAT_ID cfg))),
          (negb (nonempty (EMAIL_FROM cfg) && nonempty (EMAIL_TO cfg)
                 && nonempty (SMTP_PASS cfg)));
          cbn; repeat rewrite <- app_assoc; eexists; (split; [reflexivity|]);
          now left. }
      destruct G as (evs & Ht & Hin). exists evs. split; [exact Ht|].
      right. split; [exact Hin|]. now exists (world s), full_text, w.
    + exists [ev_print (msg_heuristic false)]. split; [reflexivity|]. now left.
  - exists []. simpl. rewrite app_nil_r. split; [reflexivity | now left].
Qed.

Lemma main_notified : moves (notified_after_heuristic B) (main B R cfg).
Proof.
  pose proof notified_frame as F.
  unfold main, main_try.
  moves_walk F ltac:(apply notified_quiet_event; reflexivity)
    ltac:(first [ apply announce_after_page_text
                | apply (moves_try_selectors B F); intros;
                  apply notified_quiet_event; reflexivity ]).
Qed.

Lemma multi_date_quiet ds :
  moves (grows not_notify) (multi_date B R cfg ds).
Proof.
  pose proof (grows_frame W not_notify) as F.
  unfold multi_date, script_body.
  repeat (apply (moves_bind F); [|intros _]).
  apply (moves_finally F).
  - apply (moves_bind F).
    + now apply grows_until_summary.
    + intros _. apply grows_print_summary. now intros [| | [] | | |].
  - now apply grows_close_all.
Qed.

(** C10.  A run of the multi-date script adds no notification to the
    trace, whatever the browser answers and whatever verdicts come out.  A
    run of [main] adds a notification only after the heuristic line was
    printed with [True], for a page text on which [looks_available] is
    [True]. *)
Theorem notifications_only_from_main :
  (forall ds s,
     exists evs,
       trace (snd (multi_date B R cfg ds s)) = trace s ++ evs /\
       existsb is_notify evs = false) /\
  (forall s,
     exists evs,
       trace (snd (main B R cfg s)) = trace s ++ evs /\
       (existsb is_notify evs = true ->
        In (ev_print (msg_heuristic true)) evs /\
        exists w full_text w',
          body_inner_text B Page w = (Val full_text, w') /\
          looks_available full_text = true)).
Proof.
  split.
  - intros ds s. destruct (multi_date_quiet ds s) as (evs & Ht & Hq).
    exists evs. split; [exact Ht|].
    clear Ht. induction evs as [|ev evs IH]; [reflexivity|].
    simpl in Hq |- *. apply andb_true_iff in Hq as [H1 H2].
    unfold not_notify in H1. apply negb_true_iff in H1. rewrite H1. now apply IH.
  - intros s. destruct (main_notified s) as (evs & Ht & [Hq | Hn]).
    + exists evs. split; [exact Ht|]. intros Hex.
      apply existsb_exists in Hex as (ev & Hin & Hev).
      rewrite forallb_forall in Hq. apply Hq in Hin.
      unfold not_notify in Hin. now rewrite Hev in Hin.
    + exists evs. split; [exact Ht|]. now intros _.
Qed.

End Notifications.

(** ** The evidence field *)

Section EvidenceBound.

Variables (W : Type) (B : Browser W) (R : Runtime) (cfg : Config).

Lemma keeps_bounded_frame : frame_rel (@keeps_bounded W).
Proof.
  split; unfold keeps_bounded.
  - auto.
  - auto.
  - intros w s H. exact H.
Qed.

Lemma make_entry_bounded d v ev : bounded (make_entry d v ev).
Proof. unfold bounded, make_entry. cbn [e_evidence]. apply take_length. Qed.

Ltac bounded_prim :=
  first [ exact (fun H => H)
        | intros H; apply Forall_app; split;
          [exact H | constructor; [apply make_entry_bounded | constructor]] ].

Lemma check_date_bounded d : moves (@keeps_bounded W) (check_date B R d).
Proof.
  pose proof keeps_bounded_frame as F.
  moves_walk F bounded_prim
    ltac:(first [ apply (moves_find_day B F)
                | apply (moves_collect_days B R F) ]).
Qed.

Lemma multi_date_bounded ds : moves (@keeps_bounded W) (multi_date B R cfg ds).
Proof.
  pose proof keeps_bounded_frame as F.
  unfold multi_date, script_body, visit_and_check.
  moves_walk F bounded_prim
    ltac:(first [ apply (moves_print_rows F); intros; exact (fun H => H)
                | apply (moves_date_loop F); exact check_date_bounded ]).
Qed.

(** C9.  In the results of a run of the multi-date script every evidence
    field is at most 300 characters long; the field is the evidence strings
    joined by "; " and cut to its first 300 characters. *)
Theorem evidence_field_at_most_300 (ds : list text) (w : W) :
  Forall (fun r => List.length (e_evidence r) <= 300)
    (results (snd (run_script B R cfg ds w))) /\
  (forall d v ev,
     e_evidence (make_entry d v ev) = firstn 300 (join (str "; ") ev)).
Proof.
  split; [|reflexivity].
  pose proof (multi_date_bounded ds (init_state w)) as H.
  unfold run_script. destruct (multi_date B R cfg ds (init_state w)) as [[u|e] s];
    cbn [snd] in *; apply H; constructor.
Qed.

End EvidenceBound.

(** ** Returning and raising *)

Section ReturnFacts.

Variable W : Type.

Lemma on_return_bind (Rl T : state W -> state W -> Prop) {A C}
    (m : M W A) (k : A -> M W C) :
  (forall a b c, Rl a b -> T b c -> T a c) ->
  moves Rl m -> (forall a, on_return T (k a)) -> on_return T (bind m k).
Proof.
  intros Hcomp Hm Hk s c s' H.
  apply bind_val_inv in H as (a & s1 & Hms & Hks).
  specialize (Hm s). rewrite Hms in Hm. simpl in Hm.
  eapply Hcomp; [exact Hm | eapply Hk; exact Hks].
Qed.

Lemma returns_ret {A} (a : A) : returns (@ret W A a).
Proof. intros s. now exists a. Qed.

Lemma returns_modify (f : state W -> state W) : returns (modify f).
Proof. intros s. now exists tt. Qed.

Lemma returns_read {A} (f : state W -> A) : returns (read f).
Proof. intros s. now exists (f s). Qed.

Lemma returns_bind {A C} (m : M W A) (k : A -> M W C) :
  returns m -> (forall a, returns (k a)) -> returns (bind m k).
Proof.
  intros Hm Hk s. unfold bind. destruct (Hm s) as [a Ha].
  destruct (m s) as [[a'|e] s1]; simpl in Ha; [|discriminate]. apply Hk.
Qed.

Lemma returns_try {A} (m : M W A) (h : exn -> M W A) :
  (forall e, returns (h e)) -> returns (try_except m h).
Proof.
  intros Hh s. unfold try_except. destruct (m s) as [[a|e] s1].
  - now exists a.
  - apply Hh.
Qed.

Lemma finally_exc {A} (m : M W A) (f : M W unit) s e s1 :
  m s = (Exc e, s1) -> exists e', fst (finally m f s) = Exc e'.
Proof.
  intros H. unfold finally. rewrite H.
  destruct (f s1) as [[u|e'] s2]; [now exists e | now exists e'].
Qed.

Lemma finally_val_inv {A} (m : M W A) (f : M W unit) s a s' :
  finally m f s = (Val a, s') ->
  exists s1, m s = (Val a, s1) /\ f s1 = (Val tt, s').
Proof.
  unfold finally. destruct (m s) as [r s1]. destruct (f s1) as [[[]|e] s2] eqn:E.
  - intros H. injection H as -> ->. now exists s1.
  - discriminate.
Qed.

End ReturnFacts.

(** ** One turn of the date loop *)

Section DateLoop.

Variables (W : Type) (B : Browser W) (R : Runtime) (cfg : Config).

Lemma keeps_frame {A} (f : state W -> A) :
  (forall w s, f (set_world w s) = f s) -> frame_rel (keeps f).
Proof.
  intros H. split; unfold keeps.
  - reflexivity.
  - intros a b c H1 H2. now rewrite H2.
  - exact H.
Qed.

Lemma keeps_results_frame : frame_rel (keeps (@results W)).
Proof. now apply keeps_frame. Qed.

Lemma keeps_loop_variables_frame : frame_rel (keeps (@loop_variables W)).
Proof. now apply keeps_frame. Qed.

Lemma keeps_verdict_frame : frame_rel (keeps (@verdict W)).
Proof. now apply keeps_frame. Qed.

Lemma parse_date_keeps d : moves (keeps (@results W)) (parse_date R d).
Proof. moves_walk keeps_results_frame ltac:(reflexivity) fail. Qed.

Lemma navigate_keeps cal y m :
  moves (keeps (@results W)) (navigate_in_loop B cal y m).
Proof. moves_walk keeps_results_frame ltac:(reflexivity) fail. Qed.

Lemma inspect_date_keeps cal day :
  moves (keeps (@results W)) (inspect_date B R cal day).
Proof.
  pose proof keeps_results_frame as F.
  moves_walk F ltac:(reflexivity)
    ltac:(first [apply (moves_find_day B F) | apply (moves_collect_days B R F)]).
Qed.

Lemma take_screenshot_keeps cal d :
  moves (keeps (@loop_variables W)) (take_screenshot B cal d).
Proof. moves_walk keeps_loop_variables_frame ltac:(reflexivity) fail. Qed.

Ltac state_of Hm L :=
  match type of Hm with
  | ?m ?s = (_, ?s1) =>
      let K := fresh "K" in
      pose proof (L s) as K; rewrite Hm in K; unfold keeps in K; simpl in K
  end.

(** What a turn that returns has recorded. *)
Lemma check_date_returns d s a s' :
  check_date B R d s = (Val a, s') ->
  exists e, results s' = results s ++ [e] /\ e_date e = d /\ classified B R d e.
Proof.
  unfold check_date. intros H.
  apply bind_val_inv in H as (cal & sa & Hcal & H).
  unfold calendar_page, read in Hcal. injection Hcal as <- <-.
  apply bind_val_inv in H as ([[y m] day] & sb & Hparse & H).
  state_of Hparse (parse_date_keeps d).
  apply bind_val_inv in H as ([] & sc & Hnav & H).
  state_of Hnav (navigate_keeps
                   match iframe_calendar s with
                   | Some fr => Frame fr
                   | None => Page
                   end y m).
  apply bind_val_inv in H as ([] & sd & Hv & H).
  unfold modify in Hv. injection Hv as <-.
  apply bind_val_inv in H as ([] & s0 & He & H).
  unfold modify in He. injection He as <-.
  apply bind_val_inv in H as ([] & s1 & Hins & H).
  state_of Hins (inspect_date_keeps
                   match iframe_calendar s with
                   | Some fr => Frame fr
                   | None => Page
                   end day).
  apply bind_val_inv in H as ([] & s2 & Hshot & H).
  state_of Hshot (take_screenshot_keeps
                    match iframe_calendar s with
                    | Some fr => Frame fr
                    | None => Page
                    end d).
  unfold loop_variables in K2. injection K2 as Kv Ke Kr.
  unfold record_result, modify in H. injection H as _ <-. simpl.
  rewrite Kv, Ke, Kr, K1, K0, K.
  eexists. split; [reflexivity|]. split; [reflexivity|].
  eexists _, y, m, day, s, sb, _, s1.
  split; [exact Hparse|]. split; [|split; [|split; [exact Hins | reflexivity]]];
    reflexivity.
Qed.

Lemma date_loop_returns ds : forall s a s',
  date_loop B R ds s = (Val a, s') ->
  exists es, results s' = results s ++ es /\ Forall2 (classified B R) ds es
             /\ map e_date es = ds.
Proof.
  induction ds as [|d ds IH]; intros s a s' H.
  - injection H as _ <-. exists []. rewrite app_nil_r. repeat split. constructor.
  - simpl in H. apply bind_val_inv in H as ([] & s1 & Hd & H).
    apply check_date_returns in Hd as (e & He & Hde & Hc).
    apply IH in H as (es & Hes & Hf & Hm).
    exists (e :: es). rewrite Hes, He, <- app_assoc. repeat split.
    + now constructor.
    + simpl. now rewrite Hde, Hm.
Qed.

End DateLoop.

(** ** How a run ends *)

Section Ending.

Variables (W : Type) (B : Browser W) (R : Runtime) (cfg : Config).

Lemma print_rows_run rs : forall s : state W,
  fst (print_rows rs s) = Val tt /\
  trace (snd (print_rows rs s))
  = trace s ++ map (fun r => ev_print (msg_summary_row r)) rs /\
  results (snd (print_rows rs s)) = results s.
Proof.
  induction rs as [|r rs IH]; intros s.
  - simpl. now rewrite app_nil_r.
  - cbn [print_rows]. unfold bind, print, emit, modify.
    destruct (IH (add_event (ev_print (msg_summary_row r)) s)) as (H1 & H2 & H3).
    repeat split; [exact H1 | | exact H3].
    rewrite H2. simpl. now rewrite <- app_assoc.
Qed.

Lemma print_summary_run (s : state W) :
  fst (print_summary s) = Val tt /\
  trace (snd (print_summary s)) = trace s ++ summary_events (results s) /\
  results (snd (print_summary s)) = results s.
Proof.
  unfold print_summary, bind, print, emit, modify, read. cbn [results add_event].
  destruct (print_rows_run (results s) (add_event (ev_print msg_summary_header) s))
    as (H1 & H2 & H3).
  repeat split; [exact H1 | | exact H3].
  rewrite H2. unfold summary_events. simpl. now rewrite <- app_assoc.
Qed.

Lemma close_all_returns (s : state W) a s' :
  close_all B s = (Val a, s') ->
  trace s' = trace s ++ [ev_close_context; ev_close_browser] /\
  results s' = results s.
Proof.
  unfold close_all, bind, emit, modify, call. simpl.
  destruct (context_close B (world s)) as [[[]|e] w1]; [|discriminate].
  simpl. destruct (browser_close B w1) as [[[]|e] w2]; [|discriminate].
  intros H. injection H as _ <-. simpl. now rewrite <- app_assoc.
Qed.

Lemma close_all_succeeds (s : state W) :
  (forall w, fst (context_close B w) = Val tt) ->
  (forall w, fst (browser_close B w) = Val tt) ->
  fst (close_all B s) = Val tt.
Proof.
  intros H1 H2. unfold close_all, bind, emit, modify, call. simpl.
  specialize (H1 (world s)).
  destruct (context_close B (world s)) as [[[]|e] w1]; [|discriminate].
  simpl. specialize (H2 w1).
  destruct (browser_close B w1) as [[[]|e] w2]; [|discriminate]. reflexivity.
Qed.

Lemma visit_and_check_keeps_prefix :
  moves (keeps (@results W)) (dismiss_popup B) /\
  moves (keeps (@results W)) (find_iframe B R).
Proof.
  split; moves_walk (keeps_results_frame W) ltac:(reflexivity) fail.
Qed.

Lemma visit_and_check_returns ds :
  on_return (fun s s' =>
               exists es, results s' = results s ++ es /\
                          Forall2 (classified B R) ds es /\
                          map e_date es = ds)
    (visit_and_check B R cfg ds).
Proof.
  pose proof (keeps_results_frame W) as F.
  assert (Hcomp : forall a b c : state W,
             keeps (@results W) a b ->
             (exists es, results c = results b ++ es /\
                         Forall2 (classified B R) ds es /\ map e_date es = ds) ->
             exists es, results c = results a ++ es /\
                        Forall2 (classified B R) ds es /\ map e_date es = ds).
  { intros a b c Hab (es & H1 & H2). exists es. unfold keeps in Hab.
    now rewrite <- Hab. }
  unfold visit_and_check.
  eapply on_return_bind; [exact Hcomp|apply (moves_call F)|intros _].
  eapply on_return_bind; [exact Hcomp|apply (moves_call F)|intros _].
  eapply on_return_bind; [exact Hcomp|apply visit_and_check_keeps_prefix|intros _].
  eapply on_return_bind; [exact Hcomp|apply visit_and_check_keeps_prefix|intros _].
  intros s a s' H. eapply date_loop_returns; eassumption.
Qed.

Lemma forallb_not_summary evs :
  forallb not_summary evs = true -> existsb is_summary evs = false.
Proof.
  induction evs as [|ev evs IH]; [reflexivity|]. simpl.
  intros H. apply andb_true_iff in H as [H1 H2]. unfold not_summary in H1.
  apply negb_true_iff in H1. rewrite H1. now apply IH.
Qed.

Lemma main_try_returns_zero s c s' :
  main_try B R cfg s = (Val c, s') -> c = 0%Z.
Proof.
  unfold main_try. intros H.
  repeat (apply bind_val_inv in H as (? & ? & _ & H)).
  unfold ret in H. now injection H as <-.
Qed.

Lemma main_except_returns e (s : state W) :
  fst (main_except e s) = Val (match e with
                               | PlaywrightTimeoutError _ => 2
                               | _ => 3
                               end)%Z.
Proof. destruct e; reflexivity. Qed.

Lemma finally_close_all {A} (m : M W A) (s : state W) :
  trace (snd (finally m (close_all B) s))
  = trace (snd (m s))
    ++ closing_events (fst (context_close B (world (snd (m s))))).
Proof.
  unfold finally. destruct (m s) as [r s1]. cbn [snd].
  unfold close_all, bind, emit, modify, call. cbn [world add_event].
  destruct (context_close B (world s1)) as [[u|e] w1]; cbn [fst closing_events].
  - cbn [world set_world add_event].
    destruct (browser_close B w1) as [[u'|e] w2]; simpl; now rewrite <- app_assoc.
  - reflexivity.
Qed.

(** A run whose visit raises prints no summary and ends with a
    traceback. *)
Lemma aborted_visit_no_summary ds w e s1 :
  visit_and_check B R cfg ds (init_state w) = (Exc e, s1) ->
  (exists e', fst (run_script B R cfg ds w) = Traceback e') /\
  existsb is_summary (trace (snd (run_script B R cfg ds w))) = false.
Proof.
  intros Hv.
  assert (E : script_body B R cfg ds (init_state w) = (Exc e, s1)).
  { unfold script_body. now apply bind_exc. }
  destruct (@grows_until_summary W B R cfg not_summary ds) with (s := init_state w)
    as (evs1 & H1 & Q1); try reflexivity.
  rewrite Hv in H1. cbn [snd init_state trace app] in H1.
  pose proof (@grows_close_all W B not_summary eq_refl eq_refl s1)
    as (evs2 & H2 & Q2).
  assert (T : trace (snd (multi_date B R cfg ds (init_state w))) = evs1 ++ evs2).
  { unfold multi_date, finally. rewrite E.
    destruct (close_all B s1) as [[u|e0] s2]; cbn [snd] in *; now rewrite H2, H1. }
  destruct (@finally_exc W unit _ (close_all B) _ _ _ E) as [e' E'].
  fold (multi_date B R cfg ds) in E'.
  unfold run_script.
  destruct (multi_date B R cfg ds (init_state w)) as [[u|e0] s'];
    cbn [fst snd] in *; [discriminate|].
  split; [now exists e0|].
  rewrite T. apply forallb_not_summary. now rewrite forallb_app, Q1, Q2.
Qed.

End Ending.

(** ** Exceptions during the inspection of a date *)

Section InspectionErrors.

Variables (W : Type) (B : Browser W) (R : Runtime) (cfg : Config).

Lemma returns_call {A} (op : W -> outcome A * W) :
  (forall w, exists a, fst (op w) = Val a) -> returns (call op).
Proof.
  intros H s. unfold call. destruct (H (world s)) as [a Ha].
  destruct (op (world s)) as [r w1]. now exists a.
Qed.

Lemma returns_finally {A} (m : M W A) (f : M W unit) :
  returns m -> returns f -> returns (finally m f).
Proof.
  intros Hm Hf s. unfold finally. destruct (Hm s) as [a Ha].
  destruct (m s) as [r s1]. cbn [fst] in Ha. subst r.
  destruct (Hf s1) as [u Hu]. destruct (f s1) as [[u'|e] s2]; [|discriminate].
  now exists a.
Qed.

Lemma inspect_date_returns cal day : returns (inspect_date B R cal day).
Proof.
  apply returns_try. intros e. unfold append_evidence. apply returns_modify.
Qed.

Lemma parse_date_returns d :
  well_formed_date R d -> returns (@parse_date W R d).
Proof.
  intros (ty & tm & td & y & m & dd & Hu & Hy & Hm & Hd) s.
  unfold parse_date, bind, of_outcome, ret. rewrite Hu, Hy, Hm, Hd.
  now exists (y, m, dd).
Qed.

Lemma take_screenshot_returns cal d :
  (forall p w, fst (screenshot B Page p w) = Val tt) ->
  returns (take_screenshot B cal d).
Proof.
  intros H. apply returns_try. intros _. unfold shot, emit.
  apply returns_bind; [apply returns_modify | intros _].
  apply returns_call. intros w. exists tt. apply H.
Qed.

Lemma check_date_completes d :
  well_formed_date R d ->
  (forall p w, fst (screenshot B Page p w) = Val tt) ->
  returns (check_date B R d).
Proof.
  intros Hd Hs. unfold check_date.
  apply returns_bind; [apply returns_read | intros cal].
  apply returns_bind; [now apply parse_date_returns | intros [[y m] day]].
  apply returns_bind;
    [apply returns_try; intros _; apply returns_ret | intros _].
  apply returns_bind; [apply returns_modify | intros _].
  apply returns_bind; [apply returns_modify | intros _].
  apply returns_bind; [apply inspect_date_returns | intros _].
  apply returns_bind; [now apply take_screenshot_returns | intros _].
  apply returns_modify.
Qed.

Lemma date_loop_completes ds :
  Forall (well_formed_date R) ds ->
  (forall p w, fst (screenshot B Page p w) = Val tt) ->
  returns (date_loop B R ds).
Proof.
  intros Hd Hs. induction Hd as [|d ds H _ IH]; cbn [date_loop].
  - apply returns_ret.
  - apply returns_bind; [now apply check_date_completes | intros _; exact IH].
Qed.

Lemma print_summary_returns : returns (@print_summary W).
Proof. intros s. exists tt. apply print_summary_run. Qed.

Lemma multi_date_completes ds :
  (forall w, fst (goto B (TARGET_URL cfg) (TIMEOUT_MS cfg) w) = Val tt) ->
  (forall ms w, fst (wait_for_timeout B Page ms w) = Val tt) ->
  (forall p w, fst (screenshot B Page p w) = Val tt) ->
  (forall w, fst (context_close B w) = Val tt) ->
  (forall w, fst (browser_close B w) = Val tt) ->
  Forall (well_formed_date R) ds ->
  returns (multi_date B R cfg ds).
Proof.
  intros Hg Hw Hs Hc Hb Hd. unfold multi_date. apply returns_finally.
  - unfold script_body, visit_and_check.
    apply returns_bind; [|intros _; apply print_summary_returns].
    apply returns_bind;
      [apply returns_call; intros w; exists tt; apply Hg | intros _].
    apply returns_bind;
      [apply returns_call; intros w; exists tt; apply Hw | intros _].
    apply returns_bind;
      [apply returns_try; intros _; apply returns_ret | intros _].
    apply returns_bind;
      [apply returns_try; intros _; apply returns_ret | intros _].
    now apply date_loop_completes.
  - intros s. exists tt. now apply close_all_succeeds.
Qed.

(** C4, as amended.  An exception raised inside the guarded inspection of
    a date is caught there and appended to that date's evidence as
    "error: ..." followed by its text, and the guarded inspection itself
    never raises.  Whenever the run reaches its end, the results hold exactly
    one entry per requested date, in order, each one the verdict and evidence
    of that date's own inspection begun afresh.  The run does reach its end
    when every date string is well formed and [page.goto], the waits on the
    page, the screenshot of the top-level page and the closing of the session
    do not raise, whatever the inspections raise. *)
Theorem inspection_error_is_recorded (ds : list text) (w : W) :
  (forall cal day s e s1,
     inspect_body B R cal day s = (Exc e, s1) ->
     inspect_date B R cal day s
     = (Val tt, set_evidence (evidence s1 ++ [str "error: " ++ exn_str e]) s1)) /\
  (forall cal day s, fst (inspect_date B R cal day s) = Val tt) /\
  (fst (run_script B R cfg ds w) = Exit 0 ->
   let rs := results (snd (run_script B R cfg ds w)) in
   List.length rs = List.length ds /\ map e_date rs = ds /\
   Forall2 (classified B R) ds rs) /\
  ((forall w0, fst (goto B (TARGET_URL cfg) (TIMEOUT_MS cfg) w0) = Val tt) ->
   (forall ms w0, fst (wait_for_timeout B Page ms w0) = Val tt) ->
   (forall p w0, fst (screenshot B Page p w0) = Val tt) ->
   (forall w0, fst (context_close B w0) = Val tt) ->
   (forall w0, fst (browser_close B w0) = Val tt) ->
   Forall (well_formed_date R) ds ->
   fst (run_script B R cfg ds w) = Exit 0).
Proof.
  split; [|split; [|split]].
  - intros cal day s e s1 H. unfold inspect_date, try_except. now rewrite H.
  - intros cal day s. destruct (inspect_date_returns cal day s) as [[] H].
    exact H.
  - unfold run_script.
    destruct (multi_date B R cfg ds (init_state w)) as [[[]|e] s'] eqn:E;
      [intros _ | discriminate].
    cbn [snd]. unfold multi_date in E.
    apply finally_val_inv in E as (s1 & Hbody & Hclose).
    apply close_all_returns in Hclose as [_ Hr].
    unfold script_body in Hbody.
    apply bind_val_inv in Hbody as ([] & s2 & Hvisit & Hsum).
    pose proof (print_summary_run s2) as (_ & _ & Hsr).
    rewrite Hsum in Hsr. cbn [snd] in Hsr.
    apply visit_and_check_returns in Hvisit as (es & Hes & Hf & Hmap).
    cbn [init_state results app] in Hes.
    rewrite Hr, Hsr, Hes. repeat split; [|exact Hmap|exact Hf].
    rewrite <- Hmap. now rewrite length_map.
  - intros Hg Hw Hs Hc Hb Hd. unfold run_script.
    destruct (multi_date_completes Hg Hw Hs Hc Hb Hd (init_state w)) as [[] H].
    destruct (multi_date B R cfg ds (init_state w)) as [[u|e] s'];
      [reflexivity | discriminate].
Qed.

End InspectionErrors.

(** ** The turns of the date loop, one after the other *)

Section Turns.

Variables (W : Type) (B : Browser W) (R : Runtime) (cfg : Config).

Lemma date_loop_app pre rest (s : state W) :
  date_loop B R (pre ++ rest) s
  = bind (date_loop B R pre) (fun _ => date_loop B R rest) s.
Proof.
  revert s. induction pre as [|d pre IH]; intros s; [reflexivity|].
  cbn [app date_loop]. unfold bind.
  destruct (check_date B R d s) as [[u|e] s1]; [|reflexivity].
  rewrite IH. reflexivity.
Qed.

Lemma visit_and_check_app pre rest (s : state W) :
  visit_and_check B R cfg (pre ++ rest) s
  = bind (visit_and_check B R cfg pre) (fun _ => date_loop B R rest) s.
Proof.
  unfold visit_and_check, bind.
  destruct (call (goto B (TARGET_URL cfg) (TIMEOUT_MS cfg)) s) as [[u|e] s1];
    [|reflexivity].
  destruct (wait B Page 1200 s1) as [[u1|e] s2]; [|reflexivity].
  destruct (dismiss_popup B s2) as [[u2|e] s3]; [|reflexivity].
  destruct (find_iframe B R s3) as [[u3|e] s4]; [|reflexivity].
  rewrite date_loop_app. reflexivity.
Qed.

(** The dates after one whose turn raises are not reached. *)
Lemma visit_and_check_aborts pre d post (s sa : state W) e sb :
  visit_and_check B R cfg pre s = (Val tt, sa) ->
  check_date B R d sa = (Exc e, sb) ->
  visit_and_check B R cfg (pre ++ d :: post) s = (Exc e, sb).
Proof.
  intros Hpre Hd. rewrite visit_and_check_app. erewrite bind_val by exact Hpre.
  cbn [date_loop]. now apply bind_exc.
Qed.

(** The turn that raised, when the loop raises. *)
Lemma date_loop_raised ds : forall (s : state W) e sb,
  date_loop B R ds s = (Exc e, sb) ->
  exists pre d post sa,
    ds = pre ++ d :: post /\ date_loop B R pre s = (Val tt, sa) /\
    check_date B R d sa = (Exc e, sb).
Proof.
  induction ds as [|d ds IH]; intros s e sb H; [discriminate|].
  cbn [date_loop] in H. apply bind_exc_inv in H as [H | ([] & s1 & H1 & H2)].
  - now exists [], d, ds, s.
  - apply IH in H2 as (pre & d' & post & sa & -> & Hpre & Hd).
    exists (d :: pre), d', post, sa. repeat split; [|exact Hd].
    cbn [date_loop]. erewrite bind_val by exact H1. exact Hpre.
Qed.

Lemma parse_date_state d (s : state W) : snd (parse_date R d s) = s.
Proof.
  unfold parse_date, bind, of_outcome, ret.
  destruct (unpack3 (split_on 45%N d)) as [[[ty tm] td]|e]; [|reflexivity].
  destruct (py_int R ty); [|reflexivity].
  destruct (py_int R tm); [|reflexivity].
  now destruct (py_int R td).
Qed.

Lemma navigate_in_loop_returns cal y m (s : state W) :
  fst (navigate_in_loop B cal y m s) = Val tt.
Proof.
  unfold navigate_in_loop, try_except.
  match goal with |- context [match ?x with _ => _ end] => destruct x as [[[]|e] s1] end;
    reflexivity.
Qed.

Lemma bind_modify {C} (f : state W -> state W) (k : unit -> M W C) s :
  bind (modify f) k s = k tt (f s).
Proof. reflexivity. Qed.

(** The state in which the turn of a well-formed date asks for its
    screenshot, and what the turn does from there. *)
Lemma check_date_parsed d (s : state W) cal y m day :
  calendar_page s = (Val cal, s) ->
  fst (parse_date R d s) = Val (y, m, day) ->
  check_date B R d s
  = bind (take_screenshot B cal d) (fun _ => record_result d)
      (snd (inspect_date B R cal day
              (set_evidence [] (set_verdict UNSURE
                 (snd (navigate_in_loop B cal y m s)))))).
Proof.
  intros Hcal Hp. unfold check_date.
  erewrite bind_val by exact Hcal.
  assert (E : parse_date R d s = (Val (y, m, day), s)).
  { rewrite (surjective_pairing (parse_date R d s)), Hp, parse_date_state.
    reflexivity. }
  erewrite bind_val by exact E. cbv beta iota.
  pose proof (navigate_in_loop_returns cal y m s) as Hn.
  destruct (navigate_in_loop B cal y m s) as [rn sn] eqn:En.
  cbn [fst snd] in *. subst rn.
  erewrite bind_val by exact En. rewrite !bind_modify.
  destruct (inspect_date_returns B R cal day
              (set_evidence [] (set_verdict UNSURE sn))) as [[] Hi].
  destruct (inspect_date B R cal day (set_evidence [] (set_verdict UNSURE sn)))
    as [ri si] eqn:Ei.
  cbn [fst snd] in *. subst ri.
  erewrite bind_val by exact Ei. reflexivity.
Qed.

Lemma take_screenshot_fails cal d (s : state W) e1 w1 e w2 :
  screenshot B cal (screenshot_path d) (world s) = (Exc e1, w1) ->
  screenshot B Page (screenshot_path d) w1 = (Exc e, w2) ->
  take_screenshot B cal d s
  = (Exc e,
     set_world w2 (add_event (ev_screenshot Page (screenshot_path d))
       (set_world w1 (add_event (ev_screenshot cal (screenshot_path d)) s)))).
Proof.
  intros H1 H2.
  unfold take_screenshot, try_except, shot, bind, emit, modify, call.
  cbn [world add_event]. rewrite H1. cbn [world set_world add_event].
  now rewrite H2.
Qed.

Lemma take_screenshot_raised cal d (s : state W) e sb :
  take_screenshot B cal d s = (Exc e, sb) ->
  exists e1 w1 w2,
    screenshot B cal (screenshot_path d) (world s) = (Exc e1, w1) /\
    screenshot B Page (screenshot_path d) w1 = (Exc e, w2).
Proof.
  unfold take_screenshot, try_except, shot, bind, emit, modify, call.
  cbn [world add_event].
  destruct (screenshot B cal (screenshot_path d) (world s)) as [[u|e1] w1];
    [discriminate|].
  cbn [world set_world add_event].
  destruct (screenshot B Page (screenshot_path d) w1) as [[u|e2] w2] eqn:E2;
    [discriminate|].
  intros H. injection H as -> _. now exists e1, w1, w2.
Qed.

(** A turn raises only when the date cannot be parsed or when both
    screenshot attempts raise. *)
Lemma check_date_raised d (s : state W) e sb :
  check_date B R d s = (Exc e, sb) ->
  fst (parse_date R d s) = Exc e \/
  exists cal y m day e1 w1 w2,
    calendar_page s = (Val cal, s) /\
    fst (parse_date R d s) = Val (y, m, day) /\
    screenshot B cal (screenshot_path d)
      (world (snd (inspect_date B R cal day
                     (set_evidence [] (set_verdict UNSURE
                        (snd (navigate_in_loop B cal y m s)))))))
    = (Exc e1, w1) /\
    screenshot B Page (screenshot_path d) w1 = (Exc e, w2).
Proof.
  intros H.
  destruct (parse_date R d s) as [[[[y m] day]|e0] sp] eqn:E.
  - right.
    assert (Hcal : calendar_page s
                   = (Val match iframe_calendar s with
                          | Some fr => Frame fr
                          | None => Page
                          end, s)) by reflexivity.
    rewrite (check_date_parsed d Hcal (y := y) (m := m) (day := day)) in H
      by now rewrite E.
    apply bind_exc_inv in H as [H | (u & s1 & _ & H)]; [|discriminate].
    apply take_screenshot_raised in H as (e1 & w1 & w2 & H1 & H2).
    eexists _, y, m, day, e1, w1, w2. now repeat split.
  - left. unfold check_date in H.
    erewrite bind_val in H by reflexivity.
    erewrite bind_exc in H by exact E. now injection H as ->.
Qed.

(** A run whose visit raises: the session is closed, nothing else is
    done, and the exception ends the run unless closing raises one of its
    own. *)
Lemma aborted_run ds w e (s1 : state W) :
  visit_and_check B R cfg ds (init_state w) = (Exc e, s1) ->
  let final := run_script B R cfg ds w in
  (exists e', fst final = Traceback e') /\
  (forall w3 w4,
     context_close B (world s1) = (Val tt, w3) ->
     browser_close B w3 = (Val tt, w4) ->
     fst final = Traceback e) /\
  trace (snd final)
  = trace s1 ++ closing_events (fst (context_close B (world s1))) /\
  existsb is_summary (trace (snd final)) = false /\
  results (snd final) = results s1.
Proof.
  intros Hv. cbv zeta.
  destruct (aborted_visit_no_summary B R cfg ds w Hv) as [Ht Hs].
  assert (E : script_body B R cfg ds (init_state w) = (Exc e, s1)).
  { unfold script_body. now apply bind_exc. }
  assert (T : trace (snd (run_script B R cfg ds w))
              = trace s1 ++ closing_events (fst (context_close B (world s1)))).
  { pose proof (finally_close_all B (script_body B R cfg ds) (init_state w)) as T.
    rewrite E in T. cbn [snd] in T. fold (multi_date B R cfg ds) in T.
    unfold run_script.
    now destruct (multi_date B R cfg ds (init_state w)) as [[u|e0] s']. }
  split; [exact Ht|]. split; [|split; [exact T|split; [exact Hs|]]].
  - intros w3 w4 Hc Hb. unfold run_script, multi_date, finally. rewrite E.
    unfold close_all, bind, emit, modify, call. cbn [world add_event].
    rewrite Hc. cbn [world set_world add_event]. now rewrite Hb.
  - pose proof (moves_finally (keeps_results_frame W)
                  (m := script_body B R cfg ds) (f := close_all B)) as K.
    unfold run_script, multi_date, finally. rewrite E.
    assert (Kc : moves (keeps (@results W)) (close_all B))
      by (moves_walk (keeps_results_frame W) ltac:(reflexivity) fail).
    specialize (Kc s1). unfold keeps in Kc.
    now destruct (close_all B s1) as [[u|e0] s2].
Qed.

End Turns.

(** ** Screenshots *)

Section Screenshots.

Variables (W : Type) (B : Browser W) (R : Runtime) (cfg : Config).

(** C5, as amended.  The screenshot is first asked of the calendar
    document.  If that call returns, no other attempt is made.  If it raises,
    exactly one more attempt is made, on the top-level page, and what that
    attempt does is what the step does: when it raises too, the exception
    leaves the step.  Nothing catches it, for any date of a batch: when the
    run has reached a date and both attempts of that date raise, the later
    dates are not reached, no entry is recorded for the date, the session is
    closed right after the second attempt, no line of the summary is printed
    and the run ends with a traceback, of the second attempt's exception
    when closing returns. *)
Theorem screenshot_one_fallback (cal : doc) (d : text) (s : state W) :
  let path := screenshot_path d in
  (forall w1,
     screenshot B cal path (world s) = (Val tt, w1) ->
     fst (take_screenshot B cal d s) = Val tt /\
     trace (snd (take_screenshot B cal d s))
     = trace s ++ [ev_screenshot cal path]) /\
  (forall e1 w1 r w2,
     screenshot B cal path (world s) = (Exc e1, w1) ->
     screenshot B Page path w1 = (r, w2) ->
     fst (take_screenshot B cal d s) = r /\
     trace (snd (take_screenshot B cal d s))
     = trace s ++ [ev_screenshot cal path; ev_screenshot Page path]) /\
  (forall pre post w0 sa cal0 y m day e1 w1 e w2,
     visit_and_check B R cfg pre (init_state w0) = (Val tt, sa) ->
     calendar_page sa = (Val cal0, sa) ->
     fst (parse_date R d sa) = Val (y, m, day) ->
     let sc := snd (inspect_date B R cal0 day
                      (set_evidence [] (set_verdict UNSURE
                         (snd (navigate_in_loop B cal0 y m sa))))) in
     screenshot B cal0 path (world sc) = (Exc e1, w1) ->
     screenshot B Page path w1 = (Exc e, w2) ->
     let final := run_script B R cfg (pre ++ d :: post) w0 in
     (exists e', fst final = Traceback e') /\
     (forall w3 w4,
        context_close B w2 = (Val tt, w3) -> browser_close B w3 = (Val tt, w4) ->
        fst final = Traceback e) /\
     trace (snd final)
     = trace sc ++ [ev_screenshot cal0 path; ev_screenshot Page path]
       ++ closing_events (fst (context_close B w2)) /\
     existsb is_summary (trace (snd final)) = false /\
     results (snd final) = results sa).
Proof.
  cbv zeta. split; [|split].
  - intros w1 H.
    unfold take_screenshot, try_except, shot, bind, emit, modify, call.
    cbn [world add_event]. rewrite H. split; reflexivity.
  - intros e1 w1 r w2 H1 H2.
    unfold take_screenshot, try_except, shot, bind, emit, modify, call.
    cbn [world add_event]. rewrite H1. cbn [world set_world add_event].
    rewrite H2. cbn [fst snd trace set_world].
    split; [reflexivity|]. simpl. now rewrite <- app_assoc.
  - intros pre post w0 sa cal0 y m day e1 w1 e w2 Hpre Hcal Hp H1 H2.
    pose proof (take_screenshot_fails B cal0 d _ H1 H2) as Hs.
    pose proof (check_date_parsed B R d Hcal Hp) as Hd.
    erewrite bind_exc in Hd by exact Hs.
    pose proof (@visit_and_check_aborts W B R cfg pre d post (init_state w0)
                  sa e _ Hpre Hd) as Hv.
    destruct (@aborted_run W B R cfg _ _ _ _ Hv) as (Ht & Hc & Htr & Hsum & Hres).
    cbn [world set_world add_event trace results] in Hc, Htr, Hres.
    split; [exact Ht|]. split; [exact Hc|]. split; [|split; [exact Hsum|]].
    + rewrite Htr. rewrite <- app_assoc. rewrite <- app_assoc. reflexivity.
    + rewrite Hres.
      rewrite (inspect_date_keeps B R cal0 day _). cbn [results set_evidence set_verdict].
      apply (navigate_keeps B cal0 y m sa).
Qed.

End Screenshots.

(** ** How a run of the script ends *)

Section ProcessEnding.

Variables (W : Type) (OS : Host W) (B : Browser W) (R : Runtime).

(** What the calls before the [try] leave of a fresh state. *)
Lemma before_try_fresh w r (s0 : state W) :
  before_try OS (init_state w) = (r, s0) -> s0 = init_state (world s0).
Proof.
  unfold before_try, open_page, bind, call. cbn [world init_state].
  destruct (makedirs OS w) as [[u|e] w1]; cbn [world set_world];
    [|intros H; now injection H as _ <-].
  destruct (playwright_start OS w1) as [[u1|e] w2]; cbn [world set_world];
    [|intros H; now injection H as _ <-].
  destruct (launch OS w2) as [[u2|e] w3]; cbn [world set_world];
    [|intros H; now injection H as _ <-].
  destruct (new_context OS w3) as [[u3|e] w4]; cbn [world set_world];
    [|intros H; now injection H as _ <-].
  destruct (new_page OS w4) as [[u4|e] w5]; cbn [world set_world];
    intros H; now injection H as _ <-.
Qed.

(** Once the page exists the script is its [try] statement, followed by
    the exit of the Playwright manager. *)
Lemma script_opened cfg dates (s s0 : state W) :
  before_try OS s = (Val tt, s0) ->
  script OS B R cfg dates s
  = finally (multi_date B R cfg dates) (call (playwright_stop OS)) s0.
Proof.
  unfold before_try, script, with_playwright, open_page, finally, bind, call.
  destruct (makedirs OS (world s)) as [[u|e] w1]; cbn [world set_world];
    [|discriminate].
  destruct (playwright_start OS w1) as [[u1|e] w2]; cbn [world set_world];
    [|discriminate].
  destruct (launch OS w2) as [[u2|e] w3]; cbn [world set_world];
    [|discriminate].
  destruct (new_context OS w3) as [[u3|e] w4]; cbn [world set_world];
    [|discriminate].
  destruct (new_page OS w4) as [[[]|e] w5]; cbn [world set_world];
    [|discriminate].
  intros H. now injection H as <-.
Qed.

(** When one of these calls raises, an exception leaves the script and
    the trace is as it was. *)
Lemma script_not_opened cfg dates (s : state W) e s1 :
  before_try OS s = (Exc e, s1) ->
  exists e', fst (script OS B R cfg dates s) = Exc e' /\
             trace (snd (script OS B R cfg dates s)) = trace s.
Proof.
  unfold before_try, script, with_playwright, open_page, finally, bind, call.
  destruct (makedirs OS (world s)) as [[u|e0] w1]; cbn [world set_world];
    [|intros _; now exists e0].
  destruct (playwright_start OS w1) as [[u1|e0] w2]; cbn [world set_world];
    [|intros _; now exists e0].
  destruct (launch OS w2) as [[u2|e0] w3]; cbn [world set_world];
    [|intros _; destruct (playwright_stop OS w3) as [[u'|e'] w'];
      [now exists e0 | now exists e']].
  destruct (new_context OS w3) as [[u3|e0] w4]; cbn [world set_world];
    [|intros _; destruct (playwright_stop OS w4) as [[u'|e'] w'];
      [now exists e0 | now exists e']].
  destruct (new_page OS w4) as [[u4|e0] w5]; cbn [world set_world];
    [discriminate|].
  intros _; destruct (playwright_stop OS w5) as [[u'|e'] w'];
    [now exists e0 | now exists e'].
Qed.

Lemma close_all_keeps_results : moves (keeps (@results W)) (close_all B).
Proof. moves_walk (keeps_results_frame W) ltac:(reflexivity) fail. Qed.

(** The [try] statement of the script when its body raises. *)
Lemma multi_date_aborted cfg dates w e (s1 : state W) :
  script_body B R cfg dates (init_state w) = (Exc e, s1) ->
  (exists e' s2, multi_date B R cfg dates (init_state w) = (Exc e', s2)) /\
  existsb is_summary (trace (snd (multi_date B R cfg dates (init_state w))))
  = false /\
  trace (snd (multi_date B R cfg dates (init_state w)))
  = trace s1 ++ closing_events (fst (context_close B (world s1))).
Proof.
  intros E.
  assert (Hv : visit_and_check B R cfg dates (init_state w) = (Exc e, s1)).
  { unfold script_body in E.
    apply bind_exc_inv in E as [E | (u & s' & _ & E)]; [exact E|].
    destruct (print_summary_returns s') as [u' Hu]. now rewrite E in Hu. }
  destruct (aborted_run B R cfg dates w Hv) as ((e' & He) & _ & Ht & Hs & _).
  unfold run_script in He, Ht, Hs.
  destruct (multi_date B R cfg dates (init_state w)) as [[u|e0] s2];
    cbn [fst snd] in *; [discriminate|].
  split; [now exists e0, s2|]. now split.
Qed.

(** The [try] statement of the script when its body returns. *)
Lemma multi_date_summarised cfg dates w (s1 : state W) :
  script_body B R cfg dates (init_state w) = (Val tt, s1) ->
  (exists before,
     trace (snd (multi_date B R cfg dates (init_state w)))
     = before ++ summary_events (results s1)
       ++ closing_events (fst (context_close B (world s1))) /\
     existsb is_summary before = false) /\
  results (snd (multi_date B R cfg dates (init_state w))) = results s1 /\
  map e_date (results s1) = dates /\
  (forall s2,
     multi_date B R cfg dates (init_state w) = (Val tt, s2) <->
     close_all B s1 = (Val tt, s2)).
Proof.
  intros E.
  pose proof (finally_close_all B (script_body B R cfg dates) (init_state w)) as T.
  fold (multi_date B R cfg dates) in T. rewrite E in T. cbn [snd] in T.
  unfold script_body in E.
  apply bind_val_inv in E as ([] & sv & Hvisit & Hsum).
  pose proof (print_summary_run sv) as (_ & Hst & Hsr).
  rewrite Hsum in Hst, Hsr. cbn [snd] in Hst, Hsr.
  destruct (@grows_until_summary W B R cfg not_summary dates)
    with (s := init_state w) as (evs & Hevs & Hq); try reflexivity.
  rewrite Hvisit in Hevs. cbn [snd init_state trace app] in Hevs.
  pose proof Hvisit as Hv2.
  apply visit_and_check_returns in Hv2 as (es & Hes & _ & Hmap).
  cbn [init_state results app] in Hes.
  assert (Hb : script_body B R cfg dates (init_state w) = (Val tt, s1)).
  { unfold script_body. erewrite bind_val by exact Hvisit. exact Hsum. }
  split; [|split; [|split]].
  - exists evs. split; [|now apply forallb_not_summary].
    rewrite T, Hst, Hevs, Hsr. now rewrite <- app_assoc.
  - unfold multi_date, finally. rewrite Hb.
    pose proof (close_all_keeps_results s1) as K. unfold keeps in K.
    now destruct (close_all B s1) as [[u|e0] s2].
  - now rewrite Hsr, Hes.
  - intros s2. unfold multi_date, finally. rewrite Hb.
    destruct (close_all B s1) as [[[]|e0] s3]; split; intros H;
      try discriminate; now injection H as <-.
Qed.

(** Only [page.goto], the wait that follows it, the reading of a date and
    the second screenshot attempt of a date can end the body of the
    [try]. *)
Lemma script_body_raised cfg dates (s0 : state W) e s1 :
  script_body B R cfg dates s0 = (Exc e, s1) ->
  (exists w', goto B (TARGET_URL cfg) (TIMEOUT_MS cfg) (world s0) = (Exc e, w')) \/
  (exists wa w',
     goto B (TARGET_URL cfg) (TIMEOUT_MS cfg) (world s0) = (Val tt, wa) /\
     wait_for_timeout B Page 1200 wa = (Exc e, w')) \/
  (exists pre d post sa,
     dates = pre ++ d :: post /\
     visit_and_check B R cfg pre s0 = (Val tt, sa) /\
     (fst (parse_date R d sa) = Exc e \/
      exists cal y m day e1 w1 w2,
        calendar_page sa = (Val cal, sa) /\
        fst (parse_date R d sa) = Val (y, m, day) /\
        screenshot B cal (screenshot_path d)
          (world (snd (inspect_date B R cal day
                         (set_evidence [] (set_verdict UNSURE
                            (snd (navigate_in_loop B cal y m sa)))))))
        = (Exc e1, w1) /\
        screenshot B Page (screenshot_path d) w1 = (Exc e, w2))).
Proof.
  intros E. unfold script_body in E.
  apply bind_exc_inv in E as [E | (u & s' & _ & E)];
    [|destruct (print_summary_returns s') as [u' Hu]; now rewrite E in Hu].
  unfold visit_and_check in E.
  apply bind_exc_inv in E as [E | ([] & sA & Hg & E)].
  { left. unfold call in E.
    destruct (goto B (TARGET_URL cfg) (TIMEOUT_MS cfg) (world s0)) as [r w'].
    injection E as -> _. now exists w'. }
  apply bind_exc_inv in E as [E | ([] & sB & Hw & E)].
  { right. left. unfold call in Hg. unfold wait, call in E.
    destruct (goto B (TARGET_URL cfg) (TIMEOUT_MS cfg) (world s0)) as [r wa].
    injection Hg as -> <-. cbn [world set_world] in E.
    destruct (wait_for_timeout B Page 1200 wa) as [r w'] eqn:Ew.
    injection E as -> _. now exists wa, w'. }
  apply bind_exc_inv in E as [E | ([] & sC & Hp & E)].
  { assert (Hr : returns (dismiss_popup B))
      by (apply returns_try; intros _; apply returns_ret).
    destruct (Hr sB) as [u Hu]. now rewrite E in Hu. }
  apply bind_exc_inv in E as [E | ([] & sD & Hf & E)].
  { assert (Hr : returns (find_iframe B R))
      by (apply returns_try; intros _; apply returns_ret).
    destruct (Hr sC) as [u Hu]. now rewrite E in Hu. }
  apply date_loop_raised in E as (pre & d & post & sa & -> & Hpre & Hd).
  right. right. exists pre, d, post, sa. split; [reflexivity|]. split.
  - unfold visit_and_check.
    erewrite bind_val by exact Hg. erewrite bind_val by exact Hw.
    erewrite bind_val by exact Hp. erewrite bind_val by exact Hf. exact Hpre.
  - now apply check_date_raised in Hd.
Qed.

(** C3, as amended.  How a run of the file as a script ends.  A usage
    error of the command line ends it with exit code 2 and [--help] with exit
    code 0, an exception at the module level with a traceback, each before
    anything else is done; so the exit code is 0, 1 or 2, never 3, and 2
    only for a usage error, not for a navigation timeout.  Otherwise: when
    one of the calls before the [try] raises (making the directory, starting
    Playwright, launching the browser, opening the context or the page), the
    run ends with a traceback, no line of the summary was printed and nothing
    was closed.  When an exception leaves the body of the [try], no line of
    the summary is printed, the session is closed and the run ends with a
    traceback; only [page.goto], the wait after it, the reading of a date
    string and the second screenshot attempt of a date can raise it.  When
    the body reaches its end, the summary is printed, its header and one row
    per date in order, and then the session is closed; the run ends with exit
    code 0 if closing the session and leaving Playwright return, and with a
    traceback after the whole summary if one of them raises.  [main] returns
    2 when [page.goto] raises a timeout and 3 when it raises anything else,
    provided closing the session succeeds, and it returns no value other than
    0, 2 and 3. *)
Theorem multi_date_ending (cfg : Config) (args_dates env_dates : option text)
    (w : W) :
  let dates := Args.select_dates cfg args_dates env_dates in
  let final := run_process OS B R (Val cfg) (Namespace args_dates) env_dates w in
  (run_process OS B R (Val cfg) UsageError env_dates w = (Exit 2, init_state w) /\
   run_process OS B R (Val cfg) HelpShown env_dates w = (Exit 0, init_state w) /\
   forall e a,
     run_process OS B R (Exc e) a env_dates w = (Traceback e, init_state w)) /\
  (forall module_level a,
     let c := exit_code (fst (run_process OS B R module_level a env_dates w)) in
     (c = 0 \/ c = 1 \/ c = 2)%Z /\ (c = 2%Z -> a = UsageError)) /\
  (forall e s1,
     before_try OS (init_state w) = (Exc e, s1) ->
     (exists e', fst final = Traceback e') /\ trace (snd final) = []) /\
  (forall s0,
     before_try OS (init_state w) = (Val tt, s0) ->
     (forall e s1,
        script_body B R cfg dates s0 = (Exc e, s1) ->
        (exists e', fst final = Traceback e') /\
        existsb is_summary (trace (snd final)) = false /\
        trace (snd final)
        = trace s1 ++ closing_events (fst (context_close B (world s1)))) /\
     (forall s1,
        script_body B R cfg dates s0 = (Val tt, s1) ->
        (exists before,
           trace (snd final)
           = before ++ summary_events (results (snd final))
             ++ closing_events (fst (context_close B (world s1))) /\
           existsb is_summary before = false) /\
        map e_date (results (snd final)) = dates /\
        (fst final = Exit 0 \/ exists e, fst final = Traceback e) /\
        (fst final = Exit 0 <->
         exists s2 w',
           close_all B s1 = (Val tt, s2) /\
           playwright_stop OS (world s2) = (Val tt, w')))) /\
  (forall s0 e s1,
     script_body B R cfg dates s0 = (Exc e, s1) ->
     (exists w', goto B (TARGET_URL cfg) (TIMEOUT_MS cfg) (world s0) = (Exc e, w')) \/
     (exists wa w',
        goto B (TARGET_URL cfg) (TIMEOUT_MS cfg) (world s0) = (Val tt, wa) /\
        wait_for_timeout B Page 1200 wa = (Exc e, w')) \/
     (exists pre d post sa,
        dates = pre ++ d :: post /\
        visit_and_check B R cfg pre s0 = (Val tt, sa) /\
        (fst (parse_date R d sa) = Exc e \/
         exists cal y m day e1 w1 w2,
           calendar_page sa = (Val cal, sa) /\
           fst (parse_date R d sa) = Val (y, m, day) /\
           screenshot B cal (screenshot_path d)
             (world (snd (inspect_date B R cal day
                            (set_evidence [] (set_verdict UNSURE
                               (snd (navigate_in_loop B cal y m sa)))))))
           = (Exc e1, w1) /\
           screenshot B Page (screenshot_path d) w1 = (Exc e, w2)))) /\
  (forall s e w',
     goto B (TARGET_URL cfg) (TIMEOUT_MS cfg) (world s) = (Exc e, w') ->
     (forall w0, fst (context_close B w0) = Val tt) ->
     (forall w0, fst (browser_close B w0) = Val tt) ->
     fst (main B R cfg s) = Val (match e with
                                 | PlaywrightTimeoutError _ => 2
                                 | _ => 3
                                 end)%Z) /\
  (forall s c, fst (main B R cfg s) = Val c -> c = 0 \/ c = 2 \/ c = 3)%Z.
Proof.
  cbv zeta.
  set (dates := Args.select_dates cfg args_dates env_dates).
  assert (Fin : run_process OS B R (Val cfg) (Namespace args_dates) env_dates w
                = match script OS B R cfg dates (init_state w) with
                  | (Val _, s) => (Exit 0, s)
                  | (Exc e, s) => (Traceback e, s)
                  end) by reflexivity.
  split; [|split; [|split; [|split; [|split; [|split]]]]].
  - repeat split.
  - intros [c|e] a; cbv zeta.
    + destruct a as [ad| |]; cbn [run_process fst exit_code];
        [|split; [auto | reflexivity]|split; [auto | discriminate]].
      destruct (script OS B R c (Args.select_dates c ad env_dates) (init_state w))
        as [[u|e] s]; cbn [fst exit_code]; (split; [auto | discriminate]).
    + cbn [run_process fst exit_code]. split; [auto | discriminate].
  - intros e s1 Hb. rewrite Fin.
    destruct (script_not_opened cfg dates (init_state w) Hb) as (e' & He & Ht).
    destruct (script OS B R cfg dates (init_state w)) as [[u|e0] s'];
      cbn [fst snd] in *; [discriminate|].
    split; [now exists e0 | exact Ht].
  - intros s0 Hb. rewrite Fin, (script_opened cfg dates (init_state w) Hb).
    rewrite (before_try_fresh w Hb).
    set (w5 := world s0). unfold finally.
    split.
    + intros e s1 E.
      destruct (multi_date_aborted cfg dates w5 E) as ((e' & s2 & Hm) & Hs & Ht).
      rewrite Hm in *. cbn [snd] in Hs, Ht. unfold call.
      destruct (playwright_stop OS (world s2)) as [[u|e0] w6]; cbn [fst snd trace set_world];
        (split; [eauto|]); now split.
    + intros s1 E.
      destruct (multi_date_summarised cfg dates w5 E)
        as ((before & Ht & Hq) & Hr & Hm & Hc).
      destruct (multi_date B R cfg dates (init_state w5)) as [[[]|e0] s2] eqn:Em;
        cbn [snd] in Ht, Hr; unfold call;
        destruct (playwright_stop OS (world s2)) as [[[]|e1] w6] eqn:Es;
        cbn [fst snd trace results set_world]; rewrite Hr;
        (split; [now exists before|]); (split; [exact Hm|]).
      * split; [now left|]. split; [intros _|reflexivity].
        exists s2, w6. split; [now apply Hc | exact Es].
      * split; [right; now exists e1|]. split; [discriminate|].
        intros (s3 & w' & H1 & H2). apply Hc in H1. injection H1 as <-.
        rewrite Es in H2. discriminate.
      * split; [right; now exists e0|]. split; [discriminate|].
        intros (s3 & w' & H1 & _). apply Hc in H1. discriminate.
      * split; [right; now exists e1|]. split; [discriminate|].
        intros (s3 & w' & H1 & _). apply Hc in H1. discriminate.
  - intros s0 e s1 E. eapply script_body_raised. exact E.
  - intros s e w' Hg Hc Hb.
    assert (E : main_try B R cfg s = (Exc e, set_world w' s)).
    { unfold main_try. apply bind_exc. unfold call. now rewrite Hg. }
    unfold main, finally, try_except. rewrite E.
    pose proof (main_except_returns e (set_world w' s)) as Hx.
    destruct (main_except e (set_world w' s)) as [r s1]. cbn [fst] in Hx.
    pose proof (close_all_succeeds B s1 Hc Hb) as Hcl.
    destruct (close_all B s1) as [[u|e0] s2]; cbn [fst] in Hcl; [|discriminate].
    exact Hx.
  - intros s c Hm.
    destruct (main B R cfg s) as [r s'] eqn:E. cbn [fst] in Hm. subst r.
    unfold main in E. apply finally_val_inv in E as (s1 & Htry & _).
    unfold try_except in Htry.
    destruct (main_try B R cfg s) as [[c0|e] s0] eqn:E0.
    + injection Htry as -> _. left. eapply main_try_returns_zero; eassumption.
    + pose proof (main_except_returns e s0) as Hx. rewrite Htry in Hx.
      cbn [fst] in Hx. injection Hx as ->. destruct e; auto.
Qed.

End ProcessEnding.

(** ** A date whose cell is not found *)

Section NotFound.

Variables (W : Type) (B : Browser W) (R : Runtime) (cfg : Config).

Lemma keeps_script_variables_frame : frame_rel (keeps (@script_variables W)).
Proof. now apply keeps_frame. Qed.

Lemma find_day_keeps cal sels :
  moves (keeps (@script_variables W)) (find_day B cal sels).
Proof. apply moves_find_day. apply keeps_script_variables_frame. Qed.

Lemma collect_days_keeps days :
  moves (keeps (@script_variables W)) (collect_days B R days).
Proof. apply moves_collect_days. apply keeps_script_variables_frame. Qed.

(** The listing step prints one line when it returns and none when it
    raises. *)
Lemma list_days_run cal (s : state W) :
  match list_days B R cal s with
  | (Val _, s') =>
      exists all_days w1 days s1,
        query_selector_all B cal sel_all_title_days (world s) = (Val all_days, w1) /\
        collect_days B R all_days (set_world w1 s) = (Val days, s1) /\
        s' = add_event (ev_print (msg_available_days days)) s1 /\
        script_variables s1 = script_variables s
  | (Exc e, s') => script_variables s' = script_variables s
  end.
Proof.
  unfold list_days, bind, call, print, emit, modify.
  destruct (query_selector_all B cal sel_all_title_days (world s))
    as [[all_days|e] w1] eqn:Eq; [|reflexivity].
  pose proof (collect_days_keeps all_days (set_world w1 s)) as K.
  destruct (collect_days B R all_days (set_world w1 s)) as [[days|e] s1] eqn:Ec;
    unfold keeps in K; cbn [snd] in K.
  - exists all_days, w1, days, s1. now repeat split.
  - exact K.
Qed.

Lemma inspect_date_not_found (cal : doc) (day : Z) (s s1 : state W) :
  verdict s = UNSURE -> evidence s = [] ->
  find_day B cal (day_selectors day) s = (Val None, s1) ->
  let s2 := set_evidence (evidence s1 ++ [str "date element not found"]) s1 in
  let final := inspect_date B R cal day s in
  fst final = Val tt /\
  verdict (snd final) = UNSURE /\
  (forall u s3,
     list_days B R cal s2 = (Val u, s3) ->
     evidence (snd final) = [str "date element not found"] /\
     exists all_days w1 days s',
       query_selector_all B cal sel_all_title_days (world s1) = (Val all_days, w1) /\
       collect_days B R all_days (set_world w1 s2) = (Val days, s') /\
       trace (snd final) = trace s ++ [ev_print (msg_available_days days)]) /\
  (forall e s3,
     list_days B R cal s2 = (Exc e, s3) ->
     evidence (snd final)
     = [str "date element not found"; str "error: " ++ exn_str e] /\
     trace (snd final) = trace s).
Proof.
  intros Hv He Hfind. cbv zeta.
  pose proof (find_day_keeps cal (day_selectors day) s) as K.
  rewrite Hfind in K. unfold keeps, script_variables in K. cbn [snd] in K.
  injection K as Kt Kv Ke.
  assert (E : inspect_body B R cal day s
              = list_days B R cal
                  (set_evidence (evidence s1 ++ [str "date element not found"]) s1)).
  { unfold inspect_body. unfold bind at 1. rewrite Hfind. reflexivity. }
  unfold inspect_date, try_except. rewrite E.
  pose proof (list_days_run cal
                (set_evidence (evidence s1 ++ [str "date element not found"]) s1))
    as L.
  destruct (list_days B R cal
              (set_evidence (evidence s1 ++ [str "date element not found"]) s1))
    as [[[]|e] s3] eqn:El.
  - destruct L as (all_days & w1 & days & s' & Hq & Hc & -> & Hk).
    unfold script_variables in Hk. cbn [trace verdict evidence set_evidence] in Hk.
    injection Hk as Ht Hvd Hev.
    cbn [fst snd verdict evidence trace add_event].
    rewrite Hvd, Kv, Hv, Hev, Ke, He, Ht, Kt.
    split; [reflexivity|]. split; [reflexivity|]. split.
    + intros u s3 H. injection H as <-. split; [reflexivity|].
      exists all_days, w1, days, s'. rewrite Ke, He in Hc.
      split; [exact Hq|]. split; [exact Hc | reflexivity].
    + intros e s3 H. discriminate.
  - unfold script_variables in L. cbn [trace verdict evidence set_evidence] in L.
    injection L as Ht Hvd Hev.
    unfold append_evidence, modify.
    cbn [fst snd verdict evidence trace set_evidence].
    rewrite Hvd, Kv, Hv, Hev, Ke, He, Ht, Kt.
    split; [reflexivity|]. split; [reflexivity|]. split.
    + intros u s0 H. discriminate.
    + intros e0 s0 H. injection H as <- <-. split; reflexivity.
Qed.

Lemma find_day_none cal day (s : state W) w1 w2 w3 :
  query_selector B (in_doc cal) (sel_title_day day) (world s) = (Val None, w1) ->
  query_selector B (in_doc cal) (sel_button_text day) w1 = (Val None, w2) ->
  query_selector B (in_doc cal) (sel_span_text day) w2 = (Val None, w3) ->
  find_day B cal (day_selectors day) s = (Val None, set_world w3 s).
Proof.
  intros H1 H2 H3. unfold day_selectors, find_day, bind, query, call.
  rewrite H1. cbn [world set_world]. rewrite H2. cbn [world set_world].
  rewrite H3. reflexivity.
Qed.

(** C8, as amended.  When none of the three selectors (the day as a
    [.title-day] element, as a button, as a span, tried in this order) finds
    an element, the guarded inspection returns, leaves the verdict as the
    loop set it, UNSURE, and the evidence begins with "date element not
    found".  If the query for the day elements and the reading of their texts
    return, the texts that are numbers are printed as one line and nothing
    else is added to the evidence; if one of them raises, no such line is
    printed and "error: ..." is added to the evidence.  In both cases the
    loop goes on to the screenshot of this date. *)
Theorem date_element_not_found (cal : doc) (day : Z) (s : state W)
    (w1 w2 w3 : W) :
  verdict s = UNSURE -> evidence s = [] ->
  query_selector B (in_doc cal) (sel_title_day day) (world s) = (Val None, w1) ->
  query_selector B (in_doc cal) (sel_button_text day) w1 = (Val None, w2) ->
  query_selector B (in_doc cal) (sel_span_text day) w2 = (Val None, w3) ->
  let s2 := set_evidence (evidence s ++ [str "date element not found"])
              (set_world w3 s) in
  let final := inspect_date B R cal day s in
  fst final = Val tt /\
  verdict (snd final) = UNSURE /\
  (forall u s3,
     list_days B R cal s2 = (Val u, s3) ->
     evidence (snd final) = [str "date element not found"] /\
     exists all_days w4 days s',
       query_selector_all B cal sel_all_title_days w3 = (Val all_days, w4) /\
       collect_days B R all_days (set_world w4 s2) = (Val days, s') /\
       trace (snd final) = trace s ++ [ev_print (msg_available_days days)]) /\
  (forall e s3,
     list_days B R cal s2 = (Exc e, s3) ->
     evidence (snd final)
     = [str "date element not found"; str "error: " ++ exn_str e] /\
     trace (snd final) = trace s).
Proof.
  intros Hv He H1 H2 H3.
  exact (@inspect_date_not_found cal day s (set_world w3 s) Hv He
           (find_day_none cal day s H1 H2 H3)).
Qed.

End NotFound.

(** ** The cell rule *)

Section CellRule.

Variables (W : Type) (B : Browser W) (R : Runtime) (cfg : Config).

(** C2, as amended.  The rule is an exclusive first match, in this
    order: the "available" icon gives AVAILABLE; the "only one left" icon
    gives AVAILABLE; the "sold out" icon gives UNAVAILABLE; a class attribute
    that contains "sold-out-layout" gives UNAVAILABLE with the evidence
    "sold-out-layout class"; one that contains "pointer-none" gives
    UNAVAILABLE; one that contains "day-active" gives AVAILABLE when the first
    200 characters of the inner HTML contain "aval" and UNSURE when they do
    not; otherwise the verdict stays as it was, UNSURE.  The button step
    reads the class, the inner HTML and the three icons, in this order, and
    applies the rule to them. *)
Theorem cell_rule_first_match (v : Verdict) (cls html : text) (a f so : bool) :
  (a = true ->
   cell_rule v cls html a f so = (AVAILABLE, str "available.svg found")) /\
  (a = false -> f = true ->
   cell_rule v cls html a f so = (AVAILABLE, str "only_one_left.svg found")) /\
  (a = false -> f = false -> so = true ->
   cell_rule v cls html a f so = (UNAVAILABLE, str "sold_out.svg found")) /\
  (a = false -> f = false -> so = false ->
   (Infix (str "sold-out-layout") cls ->
    cell_rule v cls html a f so = (UNAVAILABLE, str "sold-out-layout class")) /\
   (~ Infix (str "sold-out-layout") cls -> Infix (str "pointer-none") cls ->
    cell_rule v cls html a f so
    = (UNAVAILABLE, str "pointer-none class (closed)")) /\
   (~ Infix (str "sold-out-layout") cls -> ~ Infix (str "pointer-none") cls ->
    Infix (str "day-active") cls ->
    (Infix (str "aval") html ->
     cell_rule v cls html a f so = (AVAILABLE, str "day-active + aval found")) /\
    (~ Infix (str "aval") html ->
     cell_rule v cls html a f so
     = (UNSURE, str "day-active but no clear availability indicator"))) /\
   (~ Infix (str "sold-out-layout") cls -> ~ Infix (str "pointer-none") cls ->
    ~ Infix (str "day-active") cls ->
    cell_rule v cls html a f so = (v, str "unknown button state: " ++ cls))) /\
  (forall b (s : state W) c w1 h w2 av w3 sold w4 few w5,
     get_attribute B b (str "class") (world s) = (Val c, w1) ->
     inner_html B b w1 = (Val h, w2) ->
     query_selector B (in_elem b) sel_available_img w2 = (Val av, w3) ->
     query_selector B (in_elem b) sel_sold_out_img w3 = (Val sold, w4) ->
     query_selector B (in_elem b) sel_few_left_img w4 = (Val few, w5) ->
     let rule := cell_rule (verdict s)
                   (match c with Some c' => c' | None => [] end)
                   (take 200 h) (truthy av) (truthy few) (truthy sold) in
     classify_button B b s
     = (Val tt, set_evidence (evidence s ++ [snd rule])
                  (set_verdict (fst rule) (set_world w5 s)))).
Proof.
  split; [|split; [|split; [|split]]].
  - intros ->. reflexivity.
  - intros -> ->. reflexivity.
  - intros -> -> ->. reflexivity.
  - intros -> -> ->. unfold cell_rule. repeat split.
    + intros H. apply contains_Infix in H. now rewrite H.
    + intros H1 H2. apply contains_not_Infix in H1. apply contains_Infix in H2.
      now rewrite H1, H2.
    + intros H4. apply contains_not_Infix in H. apply contains_not_Infix in H0.
      apply contains_Infix in H1, H4. now rewrite H, H0, H1, H4.
    + intros H4. apply contains_not_Infix in H, H0, H4.
      apply contains_Infix in H1. now rewrite H, H0, H1, H4.
    + intros H1 H2 H3. apply contains_not_Infix in H1, H2, H3.
      now rewrite H1, H2, H3.
  - intros b s c w1 h w2 av w3 sold w4 few w5 H1 H2 H3 H4 H5. cbv zeta.
    unfold classify_button, bind, call, query, read, append_evidence, modify.
    rewrite H1. cbn -[take cell_rule str call]. unfold call. cbn [world set_world].
    rewrite H2. cbn -[take cell_rule str call]. unfold call. cbn [world set_world].
    rewrite H3. cbn -[take cell_rule str call]. unfold call. cbn [world set_world].
    rewrite H4. cbn -[take cell_rule str call]. unfold call. cbn [world set_world].
    rewrite H5. cbn -[take cell_rule str].
    destruct (cell_rule (verdict s) match c with Some c' => c' | None => [] end
                (take 200 h) (truthy av) (truthy few) (truthy sold)) as [v' e'].
    reflexivity.
Qed.

(** Which branch fired: none, the inconclusive one, or one with a
    marker, in which case the verdict does not depend on the old one. *)
Lemma cell_rule_cases v cls html a f so :
  fst (cell_rule v cls html a f so) = v \/
  fst (cell_rule v cls html a f so) = UNSURE \/
  (has_marker cls html a f so /\
   fst (cell_rule v cls html a f so) = fst (cell_rule UNSURE cls html a f so)).
Proof.
  unfold cell_rule, has_marker.
  destruct a; [right; right; split; [now left | reflexivity]|].
  destruct f; [right; right; split; [right; now left | reflexivity]|].
  destruct so; [right; right; split; [right; right; now left | reflexivity]|].
  destruct (contains (str "sold-out-layout") cls) eqn:E1.
  { right; right. split; [|reflexivity].
    do 3 right. left. now apply contains_Infix. }
  destruct (contains (str "pointer-none") cls) eqn:E2.
  { right; right. split; [|reflexivity].
    do 4 right. left. now apply contains_Infix. }
  destruct (contains (str "day-active") cls) eqn:E3; [|now left].
  destruct (contains (str "aval") html) eqn:E4; [|right; now left].
  right; right. split; [|reflexivity].
  do 5 right. split; now apply contains_Infix.
Qed.

End CellRule.

(** ** Verdicts and markers *)

Section Markers.

Variables (W : Type) (B : Browser W) (R : Runtime) (cfg : Config).

Lemma completed_run_results ds (w : W) :
  fst (run_script B R cfg ds w) = Exit 0 ->
  Forall2 (classified B R) ds (results (snd (run_script B R cfg ds w))).
Proof.
  unfold run_script.
  destruct (multi_date B R cfg ds (init_state w)) as [[[]|e] s'] eqn:E;
    [intros _ | discriminate].
  cbn [snd]. unfold multi_date in E.
  apply finally_val_inv in E as (s1 & Hbody & Hclose).
  apply close_all_returns in Hclose as [_ Hr].
  unfold script_body in Hbody.
  apply bind_val_inv in Hbody as ([] & s2 & Hvisit & Hsum).
  pose proof (print_summary_run s2) as (_ & _ & Hsr).
  rewrite Hsum in Hsr. cbn [snd] in Hsr.
  apply visit_and_check_returns in Hvisit as (es & Hes & Hf & _).
  cbn [init_state results app] in Hes. now rewrite Hr, Hsr, Hes.
Qed.

Lemma classify_button_verdict b (s : state W) :
  verdict s = UNSURE ->
  verdict (snd (classify_button B b s)) = UNSURE \/
  exists cls html a f so,
    reads_button B b (world s) cls html a f so /\
    has_marker cls html a f so /\
    verdict (snd (classify_button B b s)) = fst (cell_rule UNSURE cls html a f so).
Proof.
  intros Hs.
  unfold classify_button, bind, call, query, read, append_evidence, modify.
  destruct (get_attribute B b (str "class") (world s)) as [[c|e] w1] eqn:H1;
    cbn -[take cell_rule str call]; [|now left].
  unfold call. cbn [world set_world].
  destruct (inner_html B b w1) as [[h|e] w2] eqn:H2;
    cbn -[take cell_rule str call]; [|now left].
  unfold call. cbn [world set_world].
  destruct (query_selector B (in_elem b) sel_available_img w2) as [[av|e] w3] eqn:H3;
    cbn -[take cell_rule str call]; [|now left].
  unfold call. cbn [world set_world].
  destruct (query_selector B (in_elem b) sel_sold_out_img w3) as [[sold|e] w4] eqn:H4;
    cbn -[take cell_rule str call]; [|now left].
  unfold call. cbn [world set_world].
  destruct (query_selector B (in_elem b) sel_few_left_img w4) as [[few|e] w5] eqn:H5;
    cbn -[take cell_rule str]; [|now left].
  rewrite Hs.
  pose proof (cell_rule_cases UNSURE match c with Some c' => c' | None => [] end
                (take 200 h) (truthy av) (truthy few) (truthy sold)) as C.
  destruct (cell_rule UNSURE match c with Some c' => c' | None => [] end
              (take 200 h) (truthy av) (truthy few) (truthy sold)) as [v' e'] eqn:E.
  cbn [fst snd verdict set_evidence set_verdict] in *.
  destruct C as [-> | [-> | [Hm Hv]]]; [now left | now left |].
  right. exists match c with Some c' => c' | None => [] end, (take 200 h),
    (truthy av), (truthy few), (truthy sold).
  split; [|split; [exact Hm | now rewrite E]].
  exists c, h, av, sold, few, w1, w2, w3, w4, w5. now repeat split.
Qed.

Lemma inspect_date_verdict_eq cal day (s : state W) :
  verdict (snd (inspect_date B R cal day s))
  = verdict (snd (inspect_body B R cal day s)).
Proof.
  unfold inspect_date, try_except.
  now destruct (inspect_body B R cal day s) as [[u|e] s1].
Qed.

Lemma parent_button_keeps_verdict cal de :
  moves (keeps (@verdict W)) (parent_button B R cal de).
Proof. moves_walk (keeps_verdict_frame W) ltac:(reflexivity) fail. Qed.

Lemma not_found_keeps_verdict cal :
  moves (keeps (@verdict W))
    (bind (append_evidence (str "date element not found"))
       (fun _ => list_days B R cal)).
Proof.
  pose proof (keeps_verdict_frame W) as F.
  moves_walk F ltac:(reflexivity) ltac:(apply (moves_collect_days B R F)).
Qed.

(** The verdict an inspection leaves, begun with UNSURE. *)
Lemma inspect_date_verdict cal day (s : state W) :
  verdict s = UNSURE ->
  verdict (snd (inspect_date B R cal day s)) = UNSURE \/
  from_marker B R cal day s (verdict (snd (inspect_date B R cal day s))).
Proof.
  intros Hs. rewrite inspect_date_verdict_eq.
  remember (inspect_body B R cal day s) as r eqn:Er. unfold inspect_body in Er.
  pose proof (moves_find_day B (keeps_verdict_frame W) cal (day_selectors day) s) as K1.
  unfold keeps in K1.
  destruct (find_day B cal (day_selectors day) s) as [[[de|]|e] s1] eqn:Hf;
    cbn [snd] in K1;
    [erewrite bind_val in Er by exact Hf ..
    |erewrite bind_exc in Er by exact Hf]; cbv beta iota in Er.
  - pose proof (parent_button_keeps_verdict cal de s1) as K2.
    unfold keeps in K2.
    destruct (parent_button B R cal de s1) as [[[b|]|e] s2] eqn:Hp;
      cbn [snd] in K2;
      [erewrite bind_val in Er by exact Hp ..
      |erewrite bind_exc in Er by exact Hp]; subst r.
    + assert (V2 : verdict s2 = UNSURE) by congruence.
      destruct (classify_button_verdict b s2 V2)
        as [C | (cls & html & a & f & so & Hr & Hm & Hv)]; [now left|].
      right. exists de, s1, b, s2, cls, html, a, f, so. now repeat split.
    + left. cbn. congruence.
    + left. cbn [snd]. congruence.
  - subst r. left. rewrite (not_found_keeps_verdict cal s1). congruence.
  - subst r. left. cbn [snd]. congruence.
Qed.

(** C7, as amended.  In the cell path a verdict other than UNSURE comes
    only from a marker that the browser reported for the button of the day:
    the selector chain found an element, its button was found, the class, the
    inner HTML and the three icons were read from that button, a marker is
    among them (an icon, or one of the class names, the last of them together
    with the HTML marker) and the verdict is what the cell rule gives for
    them.  This holds after every guarded inspection begun with UNSURE and
    for the entry of every date of a run that reaches its end.  The full-page
    path has two verdicts only: it says AVAILABLE exactly when the text holds
    a positive marker and no negative one, and it says UNAVAILABLE otherwise,
    also when the text holds no marker at all. *)
Theorem verdict_needs_marker_in_cell_path :
  (forall cal day (s : state W),
     verdict s = UNSURE ->
     let v := verdict (snd (inspect_date B R cal day s)) in
     v = UNSURE \/ from_marker B R cal day s v) /\
  (forall ds (w : W),
     fst (run_script B R cfg ds w) = Exit 0 ->
     Forall2 (fun d r =>
                e_verdict r = UNSURE \/
                exists cal year month day (sp sp' s0 : state W),
                  parse_date R d sp = (Val (year, month, day), sp') /\
                  verdict s0 = UNSURE /\
                  from_marker B R cal day s0 (e_verdict r))
       ds (results (snd (run_script B R cfg ds w)))) /\
  (forall t,
     page_verdict t = AVAILABLE <-> positive_marker t /\ ~ negative_marker t) /\
  (forall t, page_verdict t = AVAILABLE \/ page_verdict t = UNAVAILABLE) /\
  (forall t,
     ~ negative_marker t -> ~ positive_marker t -> page_verdict t = UNAVAILABLE).
Proof.
  assert (P : forall t, page_verdict t = AVAILABLE <-> looks_available t = true).
  { intros t. unfold page_verdict. destruct (looks_available t); split;
      congruence. }
  split; [|split; [|split; [|split]]].
  - intros cal day s H. cbv zeta. now apply inspect_date_verdict.
  - intros ds w H. apply completed_run_results in H.
    induction H as [|d r ds rs
                      (cal & y & m & day & sp & sp' & s0 & s1 & Hp & Hv & _ & Hi & ->)
                      _ IH];
      constructor; [|exact IH].
    pose proof (inspect_date_verdict cal day s0 Hv) as M.
    rewrite Hi in M. cbn [snd] in M. cbn [e_verdict make_entry].
    destruct M as [M | M]; [now left | right].
    now exists cal, y, m, day, sp, sp', s0.
  - intros t. rewrite P, looks_available_markers. tauto.
  - intros t. unfold page_verdict. destruct (looks_available t); auto.
  - intros t Hn Hp. destruct (page_verdict t) eqn:E; [|reflexivity|].
    + apply P, looks_available_markers in E. tauto.
    + unfold page_verdict in E. destruct (looks_available t); discriminate.
Qed.

End Markers.

(** ** Clicks on the next-month arrow *)

Section Clicks.

Variables (W : Type) (B : Browser W) (R : Runtime) (cfg : Config).











Let F := grows_frame W not_next_click.
















End Clicks.

(** ** Runs on the simulated site *)

Module Runs.

Import Sim.

Example looks_available_few_left :
  looks_available ([9651%N] ++ str " few slots") = true.
Proof. reflexivity. Qed.

Example looks_available_no_marker :
  looks_available (str "Welcome to the museum") = false.
Proof. reflexivity. Qed.

Example looks_available_ignores_case_and_spacing :
  looks_available (str "SOLD   OUT") = false /\
  looks_available (str "fullybooked " ++ [9675%N]) = false.
Proof. split; reflexivity. Qed.

(** A button whose class contains "sold-out-layout" and that carries no
    icon. *)
Lemma sold_out_layout_cell :
  cell_rule UNSURE (str "day sold-out-layout") [] false false false
  = (UNAVAILABLE, str "sold-out-layout class").
Proof.
  apply (cell_rule_first_match (browser blank_site) UNSURE
           (str "day sold-out-layout") [] false false false);
    try reflexivity.
  apply contains_Infix. reflexivity.
Defined.

(** A button whose class contains "pointer-disabled" and that carries no
    icon: the run records UNSURE for it. *)
Lemma pointer_disabled_cell_stays_unsure :
  Infix (str "pointer-disabled") (cell_class disabled_cell) /\
  results (snd (run (site_with_cell disabled_cell) [oct_7]))
  = [ {| e_date := oct_7; e_verdict := UNSURE;
         e_evidence := str "unknown button state: day pointer-disabled" |} ].
Proof.
  split; [apply contains_Infix|]; reflexivity.
Qed.

(** [page.goto] times out: the run ends with a traceback and prints no
    summary. *)
Lemma goto_timeout_ends_in_traceback :
  fst (run_process host (browser unreachable_site) runtime (Val config)
         (Namespace (Some oct_7)) None 0)
  = Traceback (PlaywrightTimeoutError (str "Timeout 45000ms exceeded.")) /\
  exit_code (fst (run_process host (browser unreachable_site) runtime
                    (Val config) (Namespace (Some oct_7)) None 0)) = 1%Z /\
  existsb is_summary
    (trace (snd (run_process host (browser unreachable_site) runtime
                   (Val config) (Namespace (Some oct_7)) None 0))) = false /\
  fst (run unreachable_site [oct_7])
  = Traceback (PlaywrightTimeoutError (str "Timeout 45000ms exceeded.")).
Proof. repeat split. Qed.

Lemma goto_timeout_by_theorem :
  (exists e,
     fst (run_process host (browser unreachable_site) runtime (Val config)
            (Namespace (Some oct_7)) None 0) = Traceback e) /\
  existsb is_summary
    (trace (snd (run_process host (browser unreachable_site) runtime
                   (Val config) (Namespace (Some oct_7)) None 0))) = false /\
  fst (main (browser unreachable_site) runtime config (init_state 0)) = Val 2%Z.
Proof.
  pose proof (multi_date_ending host (browser unreachable_site) runtime config
                (Some oct_7) None 0) as (_ & _ & _ & H4 & _ & H6 & _).
  cbv zeta in H4.
  destruct (H4 (init_state 0) eq_refl) as [Hb _].
  destruct (Hb (PlaywrightTimeoutError (str "Timeout 45000ms exceeded."))
              (init_state 0) eq_refl) as (He & Hs & _).
  split; [exact He|]. split; [exact Hs|].
  apply (H6 (init_state 0)
            (PlaywrightTimeoutError (str "Timeout 45000ms exceeded.")) 0);
    reflexivity.
Defined.

(** The inspection of the first date raises and is caught, then both
    screenshots raise: the run ends there, with no entry and no summary. *)
Lemma inspection_error_then_abort :
  fst (inspect_body (browser crashed_site) runtime Page 7 (init_state 0))
  = Exc (Error (str "Target page has been closed")) /\
  fst (run crashed_site [oct_7; oct_8])
  = Traceback (Error (str "Target page has been closed")) /\
  results (snd (run crashed_site [oct_7; oct_8])) = [] /\
  existsb is_summary (trace (snd (run crashed_site [oct_7; oct_8]))) = false.
Proof. repeat split. Qed.

Lemma well_formed_oct_7 : well_formed_date runtime oct_7.
Proof.
  exists (str "2025"), (str "10"), (str "07"), 2025%Z, 10%Z, 7%Z.
  repeat split.
Defined.

Lemma well_formed_oct_8 : well_formed_date runtime oct_8.
Proof.
  exists (str "2025"), (str "10"), (str "08"), 2025%Z, 10%Z, 8%Z.
  repeat split.
Defined.

Lemma inspection_errors_do_not_stop_the_run :
  fst (run flaky_site [oct_7; oct_8]) = Exit 0 /\
  map e_evidence (results (snd (run flaky_site [oct_7; oct_8])))
  = [str "error: Execution context was destroyed";
     str "error: Execution context was destroyed"].
Proof.
  split; [|reflexivity].
  apply (inspection_error_is_recorded (browser flaky_site) runtime config
           [oct_7; oct_8] 0); try (intros; reflexivity).
  repeat constructor; [apply well_formed_oct_7 | apply well_formed_oct_8].
Defined.

(** Both screenshots of the first date raise: two attempts, then the run
    ends with a traceback and prints no summary. *)
Lemma screenshot_failure_aborts :
  fst (run no_screenshot_site [oct_7; oct_8])
  = Traceback (Error (str "Unable to capture screenshot")) /\
  filter is_screenshot (trace (snd (run no_screenshot_site [oct_7; oct_8])))
  = [ev_screenshot (Frame the_frame) (str "screenshots/2025_10_07.png");
     ev_screenshot Page (str "screenshots/2025_10_07.png")] /\
  existsb is_summary (trace (snd (run no_screenshot_site [oct_7; oct_8]))) = false.
Proof. repeat split. Qed.

(** The page closes at the second click on the arrow: the first of three
    dates is recorded, both attempts of the second date raise, the third
    date is not reached and nothing is printed. *)
Lemma screenshot_failure_by_theorem :
  fst (run_script closing_browser runtime config [oct_7; oct_8; oct_9] 0)
  = Traceback (Error (str "Target page has been closed")) /\
  existsb is_summary
    (trace (snd (run_script closing_browser runtime config
                   [oct_7; oct_8; oct_9] 0))) = false /\
  map e_date
    (results (snd (run_script closing_browser runtime config
                     [oct_7; oct_8; oct_9] 0))) = [oct_7].
Proof.
  pose proof (screenshot_one_fallback closing_browser runtime config
                Page oct_8 (init_state 0)) as (_ & _ & H).
  let sa := eval vm_compute in
              (snd (visit_and_check closing_browser runtime config [oct_7]
                      (init_state 0))) in
  specialize (H [oct_7] [oct_9] 0%nat sa (Frame the_frame) 2025%Z 10%Z 8%Z
                (Error (str "Target page has been closed")) 2%nat
                (Error (str "Target page has been closed")) 2%nat).
  cbv zeta in H. cbn [app] in H.
  edestruct H as (_ & Hc & _ & Hs & Hr); [vm_compute; reflexivity ..|].
  split; [apply (Hc 2%nat 2%nat); vm_compute; reflexivity|].
  split; [exact Hs|]. rewrite Hr. vm_compute. reflexivity.
Defined.



Example september_one_click :
  next_clicks (trace (snd (run september_site [oct_7; oct_8]))) = 1.
Proof. reflexivity. Qed.

(** A page text without any marker gets the verdict UNAVAILABLE. *)
Lemma unavailable_without_marker :
  ~ negative_marker (str "Welcome to the museum") /\
  ~ positive_marker (str "Welcome to the museum") /\
  page_verdict (str "Welcome to the museum") = UNAVAILABLE.
Proof.
  split; [|split; [|reflexivity]].
  - rewrite <- negative_marker_search. discriminate.
  - rewrite <- positive_marker_search. discriminate.
Qed.

(** A button with the class "sold-out-layout" and no icon: the verdict
    UNAVAILABLE comes from that class; and a page text with the triangle is
    AVAILABLE and holds it. *)
Lemma available_page_has_positive_marker :
  from_marker (browser (site_with_cell sold_out_cell)) runtime
    (Frame the_frame) 7 (init_state 0) UNAVAILABLE /\
  positive_marker ([9651%N] ++ str " few slots").
Proof.
  pose proof (verdict_needs_marker_in_cell_path
                (browser (site_with_cell sold_out_cell)) runtime config)
    as (H1 & _ & H3 & _).
  split.
  - destruct (H1 (Frame the_frame) 7%Z (init_state 0) eq_refl) as [H | H].
    + discriminate H.
    + exact H.
  - apply (H3 ([9651%N] ++ str " few slots")). reflexivity.
Defined.

(** No selector finds the day and the query for the day elements raises:
    the evidence holds the error too and no listing is printed. *)
Lemma not_found_and_listing_fails :
  fst (find_day (browser detached_site) (Frame the_frame) (day_selectors 7)
         (init_state 0)) = Val None /\
  results (snd (run detached_site [oct_7]))
  = [ {| e_date := oct_7; e_verdict := UNSURE;
         e_evidence := str "date element not found; error: Frame was detached" |} ] /\
  filter is_day_listing (trace (snd (run detached_site [oct_7]))) = [].
Proof. repeat split. Qed.

Lemma not_found_listing_printed :
  evidence (snd (inspect_date (browser other_days_site) runtime
                   (Frame the_frame) 7 (init_state 0)))
  = [str "date element not found"].
Proof.
  refine (proj1 (proj1 (proj2 (proj2
            (@date_element_not_found nat (browser other_days_site) runtime
               (Frame the_frame) 7%Z (init_state 0) 0 0 0
               eq_refl eq_refl eq_refl eq_refl eq_refl))) tt _ _)).
  reflexivity.
Defined.

Example not_found_run :
  results (snd (run other_days_site [oct_7; oct_8]))
  = [ make_entry oct_7 UNSURE [str "date element not found"];
      make_entry oct_8 UNSURE [str "date element not found"] ] /\
  filter is_day_listing (trace (snd (run other_days_site [oct_7])))
  = [ev_print (msg_available_days [str "6"; str " 7 "; str "8"])].
Proof. split; reflexivity. Qed.

End Runs.

(** * Further properties *)

(** ** The full-page heuristic on arbitrary texts *)


(** X1.  [looks_available] answers [True] only for a text that holds one of
    the three symbols of [AVAILABILITY_POSITIVE] (the two open circles and the
    triangle); a text of ASCII characters only, whatever words it holds, is
    answered [False]. *)
Theorem available_only_with_symbol (t : text) :
  (looks_available t = true ->
   exists c, In c t /\ (c = 9675 \/ c = 9711 \/ c = 9651)%N) /\
  (Forall (fun c => (c < 128)%N) t -> looks_available t = false).
Proof.
  assert (H : looks_available t = true ->
              exists c, In c t /\ (c = 9675 \/ c = 9711 \/ c = 9651)%N).
  { unfold looks_available.
    destruct (any_search AVAILABILITY_NEGATIVE t); [discriminate|].
    destruct (any_search AVAILABILITY_POSITIVE t) eqn:E; [|discriminate].
    intros _. apply any_search_spec, positive_occurs in E as (c & Hin & Hc).
    exists c. split; [exact Hin|]. simpl in Hc. unfold triangle_char in Hc.
    destruct Hc as [<- | [<- | [<- | []]]]; auto. }
  split; [exact H|].
  intros Hascii. destruct (looks_available t) eqn:E; [|reflexivity].
  destruct (H eq_refl) as (c & Hin & Hc). rewrite Forall_forall in Hascii.
  apply Hascii in Hin. lia.
Qed.

Lemma looks_available_same (t t' : text) :
  Forall2 same_letter t t' -> looks_available t = looks_available t'.
Proof.
  intros H. unfold looks_available.
  now rewrite (any_search_same AVAILABILITY_NEGATIVE H),
    (any_search_same AVAILABILITY_POSITIVE H).
Qed.

(** X2.  The answer of [looks_available] does not depend on the ASCII case
    of the text: two texts that differ only in the case of ASCII letters get
    the same answer, and so do a text and its ASCII-lowercased copy. *)
Theorem looks_available_ignores_case (t t' : text) :
  (Forall2 same_letter t t' -> looks_available t = looks_available t') /\
  looks_available (map lower_ascii t) = looks_available t.
Proof.
  split; [apply looks_available_same|].
  apply looks_available_same, same_letter_lower.
Qed.

(** X3.  "Sold out" and "Fully booked" are recognised with any run of
    whitespace between the two words, also none, and in any capitalisation;
    a text that holds one of them is answered [False] whatever surrounds
    it. *)
Theorem spaced_negative_words (a b ws w1 w2 : text) :
  forallb is_space ws = true ->
  (Forall2 same_letter w1 (str "Sold") /\ Forall2 same_letter w2 (str "out")) \/
  (Forall2 same_letter w1 (str "Fully") /\ Forall2 same_letter w2 (str "booked")) ->
  looks_available (a ++ w1 ++ ws ++ w2 ++ b) = false.
Proof.
  intros Hs Hw.
  assert (G : forall x y : text,
             (x = str "Sold" /\ y = str "out") \/
             (x = str "Fully" /\ y = str "booked") ->
             looks_available (a ++ x ++ ws ++ y ++ b) = false).
  { intros x y Hxy. unfold looks_available.
    assert (E : any_search AVAILABILITY_NEGATIVE (a ++ x ++ ws ++ y ++ b) = true).
    { apply any_search_spec. destruct Hxy as [[-> ->] | [-> ->]].
      - eexists. split; [left; reflexivity|].
        apply (spaced_words_occur (str "Sold") (str "out")). exact Hs.
      - eexists. split; [right; left; reflexivity|].
        apply (spaced_words_occur (str "Fully") (str "booked")). exact Hs. }
    now rewrite E. }
  destruct Hw as [[H1 H2] | [H1 H2]].
  - rewrite <- (G (str "Sold") (str "out")) by auto.
    apply looks_available_same.
    repeat (apply Forall2_app); auto using same_letter_refl.
  - rewrite <- (G (str "Fully") (str "booked")) by auto.
    apply looks_available_same.
    repeat (apply Forall2_app); auto using same_letter_refl.
Qed.

(** X4.  The heuristic judges the page as a whole: a negative marker in
    one part of a text makes the whole text unavailable, wherever the part
    stands, and a text made of two parts is available only if neither part
    holds a negative marker and at least one part is available on its
    own. *)
Theorem looks_available_of_parts (a b : text) :
  (any_search AVAILABILITY_NEGATIVE a = true ->
   looks_available (a ++ b) = false /\ looks_available (b ++ a) = false) /\
  (looks_available (a ++ b) = true ->
   any_search AVAILABILITY_NEGATIVE a = false /\
   any_search AVAILABILITY_NEGATIVE b = false /\
   (looks_available a = true \/ looks_available b = true)).
Proof.
  assert (L : forall x y, any_search AVAILABILITY_NEGATIVE x = true ->
                          any_search AVAILABILITY_NEGATIVE (x ++ y) = true /\
                          any_search AVAILABILITY_NEGATIVE (y ++ x) = true).
  { intros x y H. apply any_search_spec in H as (p & Hin & Ho).
    split; apply any_search_spec; exists p;
      (split; [exact Hin|]); [now apply occurs_app_l | now apply occurs_app_r]. }
  split.
  - intros H. destruct (L a b H) as [H1 H2]. unfold looks_available.
    now rewrite H1, H2.
  - intros H.
    assert (Na : any_search AVAILABILITY_NEGATIVE a = false).
    { destruct (any_search AVAILABILITY_NEGATIVE a) eqn:E; [|reflexivity].
      destruct (L a b E) as [E1 _]. unfold looks_available in H.
      now rewrite E1 in H. }
    assert (Nb : any_search AVAILABILITY_NEGATIVE b = false).
    { destruct (any_search AVAILABILITY_NEGATIVE b) eqn:E; [|reflexivity].
      destruct (L b a E) as [_ E1]. unfold looks_available in H.
      now rewrite E1 in H. }
    split; [exact Na|]. split; [exact Nb|].
    unfold looks_available in H |- *. rewrite Na, Nb.
    destruct (any_search AVAILABILITY_NEGATIVE (a ++ b)); [discriminate|].
    destruct (any_search AVAILABILITY_POSITIVE (a ++ b)) eqn:E; [|discriminate].
    apply any_search_spec, positive_occurs in E as (c & Hin & Hc).
    apply in_app_or in Hin as [Hin | Hin]; [left | right].
    + assert (P : any_search AVAILABILITY_POSITIVE a = true)
        by (apply any_search_spec, positive_occurs; now exists c).
      now rewrite P.
    + assert (P : any_search AVAILABILITY_POSITIVE b = true)
        by (apply any_search_spec, positive_occurs; now exists c).
      now rewrite P.
Qed.

(** ** The requested dates *)

Module ArgsFacts.

Import Args.

Lemma lstrip_split t :
  exists sp, t = sp ++ lstrip t /\ forallb is_space sp = true.
Proof.
  induction t as [|c t (sp & E & Hs)]; [now exists []|]. simpl.
  destruct (is_space c) eqn:Ec.
  - exists (c :: sp). simpl. rewrite Ec, Hs. split; [now rewrite <- E | reflexivity].
  - now exists [].
Qed.

Lemma lstrip_no_lead t : no_lead (lstrip t).
Proof.
  induction t as [|c t IH]; simpl; [exact I|].
  destruct (is_space c) eqn:Ec; [exact IH | exact Ec].
Qed.

Lemma lstrip_fixed t : no_lead t -> lstrip t = t.
Proof. destruct t as [|c t]; simpl; [reflexivity|]. now intros ->. Qed.

Lemma lstrip_spaces sp t : forallb is_space sp = true -> lstrip (sp ++ t) = lstrip t.
Proof.
  induction sp as [|c sp IH]; simpl; [reflexivity|].
  intros H. apply andb_true_iff in H as [-> H]. now apply IH.
Qed.

Lemma no_lead_rev_strip_inner u :
  no_lead u -> no_lead (rev (lstrip (rev u))).
Proof.
  intros Hu. destruct (lstrip_split (rev u)) as (sp & E & Hs).
  destruct (lstrip (rev u)) as [|c v] eqn:Ev; [exact I|].
  assert (Eu : u = rev (c :: v) ++ rev sp).
  { rewrite <- rev_app_distr, <- E. now rewrite rev_involutive. }
  simpl in Eu. simpl. destruct (rev v) as [|x r]; simpl in *.
  - subst u. exact Hu.
  - subst u. exact Hu.
Qed.

Lemma strip_trimmed t : no_lead (strip t) /\ no_lead (rev (strip t)).
Proof.
  unfold strip. split.
  - apply no_lead_rev_strip_inner, lstrip_no_lead.
  - rewrite rev_involutive. apply lstrip_no_lead.
Qed.

Lemma strip_fixed t : no_lead t -> no_lead (rev t) -> strip t = t.
Proof.
  intros H1 H2. unfold strip.
  now rewrite (lstrip_fixed t H1), (lstrip_fixed (rev t) H2), rev_involutive.
Qed.

Lemma strip_idempotent t : strip (strip t) = strip t.
Proof. destruct (strip_trimmed t). now apply strip_fixed. Qed.

Lemma lstrip_incl c t : In c (lstrip t) -> In c t.
Proof.
  destruct (lstrip_split t) as (sp & E & _). intros H. rewrite E.
  apply in_or_app. now right.
Qed.

Lemma strip_incl c t : In c (strip t) -> In c t.
Proof.
  unfold strip. intros H. apply in_rev, lstrip_incl in H.
  apply in_rev in H. now apply lstrip_incl.
Qed.

Lemma blank_lstrip t : forallb is_space t = true -> lstrip t = [].
Proof.
  induction t as [|x w IH]; [reflexivity|]. simpl. intros H.
  apply andb_true_iff in H as [-> H]. now apply IH.
Qed.

Lemma blank_strip t : forallb is_space t = true -> strip t = [].
Proof. intros H. unfold strip. now rewrite (blank_lstrip t H). Qed.

Lemma blank_rev t : forallb is_space t = true -> forallb is_space (rev t) = true.
Proof.
  rewrite !forallb_forall. intros H x Hx. apply H. now apply in_rev.
Qed.

Lemma strip_padded ws1 d ws2 :
  forallb is_space ws1 = true -> forallb is_space ws2 = true ->
  strip (ws1 ++ d ++ ws2) = strip d.
Proof.
  intros H1 H2. unfold strip. rewrite (lstrip_spaces ws1 _ H1).
  destruct (lstrip_split d) as (sp & E & Hs).
  pose proof (lstrip_no_lead d) as N.
  destruct (lstrip d) as [|c u] eqn:Ed.
  - rewrite app_nil_r in E. subst sp.
    rewrite (lstrip_spaces d ws2 Hs), (blank_lstrip ws2 H2). reflexivity.
  - assert (L : lstrip (d ++ ws2) = (c :: u) ++ ws2).
    { rewrite E at 1. rewrite <- app_assoc, (lstrip_spaces sp _ Hs).
      simpl in N |- *. now rewrite N. }
    rewrite L, rev_app_distr.
    now rewrite (lstrip_spaces (rev ws2) _ (blank_rev ws2 H2)).
Qed.

Lemma split_on_parts sep t :
  forall p c, In p (split_on sep t) -> In c p -> In c t /\ c <> sep.
Proof.
  induction t as [|x t IH]; intros p c Hp Hc.
  - destruct Hp as [<- | []]. destruct Hc.
  - cbn [split_on] in Hp. destruct (N.eqb_spec x sep) as [-> | Hx].
    + destruct Hp as [<- | Hp]; [destruct Hc|].
      destruct (IH p c Hp Hc). split; [now right | assumption].
    + destruct (split_on sep t) as [|w ws] eqn:E.
      * destruct Hp as [<- | []]. destruct Hc as [<- | []]. split; [now left | exact Hx].
      * destruct Hp as [<- | Hp].
        -- destruct Hc as [<- | Hc]; [split; [now left | exact Hx]|].
           destruct (IH w c (or_introl eq_refl) Hc). split; [now right | assumption].
        -- destruct (IH p c (or_intror Hp) Hc). split; [now right | assumption].
Qed.

Lemma split_on_free sep t : ~ In sep t -> split_on sep t = [t].
Proof.
  induction t as [|x t IH]; intros H; [reflexivity|]. cbn [split_on].
  destruct (N.eqb_spec x sep) as [-> | Hx]; [destruct H; now left|].
  rewrite IH; [reflexivity|]. intros Hin. apply H. now right.
Qed.

Lemma split_on_app sep p t :
  ~ In sep p -> split_on sep (p ++ sep :: t) = p :: split_on sep t.
Proof.
  induction p as [|x p IH]; intros H.
  - simpl. now rewrite N.eqb_refl.
  - simpl. destruct (N.eqb_spec x sep) as [-> | Hx]; [destruct H; now left|].
    rewrite IH; [reflexivity|]. intros Hin. apply H. now right.
Qed.

Lemma split_on_join sep parts :
  parts <> [] -> Forall (fun p => ~ In sep p) parts ->
  split_on sep (join [sep] parts) = parts.
Proof.
  intros Hne H. induction H as [|p parts Hp H IH]; [congruence|].
  destruct parts as [|q parts].
  - simpl. now apply split_on_free.
  - change (join [sep] (p :: q :: parts)) with (p ++ sep :: join [sep] (q :: parts)).
    rewrite (split_on_app sep p _ Hp), IH; [reflexivity | discriminate].
Qed.

Lemma stripped_nonempty_clean ds :
  Forall clean ds -> stripped_nonempty ds = ds.
Proof.
  induction 1 as [|d ds (Hne & Hs & _) _ IH]; [reflexivity|].
  simpl. rewrite Hs, IH. destruct d; [congruence | reflexivity].
Qed.

Lemma stripped_nonempty_padded ds : forall pads,
  Forall clean ds -> Forall2 padded ds pads -> stripped_nonempty pads = ds.
Proof.
  induction ds as [|d ds IH]; intros pads Hc Hp; inversion Hp as [|? p ? ps Hd Hr]; subst.
  - reflexivity.
  - inversion Hc as [|? ? (Hne & Hs & _) Hc']; subst.
    destruct Hd as (ws1 & ws2 & H1 & H2 & ->). simpl.
    rewrite (strip_padded ws1 d ws2 H1 H2), Hs, (IH ps Hc' Hr).
    destruct d; [congruence | reflexivity].
Qed.

End ArgsFacts.
Import ArgsFacts.

(** X5.  Every date that [--dates] or [TARGET_DATES] yields is a non-empty
    string without whitespace at either end and without a comma. *)
Theorem split_dates_are_clean (s : text) :
  Forall Args.clean (Args.split_dates s).
Proof.
  unfold Args.split_dates.
  assert (H : forall p, In p (split_on 44%N s) -> ~ In 44%N p).
  { intros p Hp Hc. now destruct (split_on_parts 44%N s p 44%N Hp Hc). }
  induction (split_on 44%N s) as [|p parts IH]; [constructor|].
  simpl. destruct (Args.strip p) as [|c u] eqn:E.
  - apply IH. intros q Hq. apply H. now right.
  - constructor; [|apply IH; intros q Hq; apply H; now right].
    rewrite <- E. split; [rewrite E; discriminate|].
    split; [apply strip_idempotent|].
    intros Hc. apply strip_incl in Hc. apply (H p); [now left | exact Hc].
Qed.

Lemma padded_comma_free d p :
  Args.clean d -> Args.padded d p -> ~ In 44%N p.
Proof.
  intros (_ & _ & Hd) (ws1 & ws2 & H1 & H2 & ->) Hin.
  rewrite forallb_forall in H1, H2.
  apply in_app_or in Hin as [Hin | Hin]; [apply H1 in Hin; discriminate|].
  apply in_app_or in Hin as [Hin | Hin]; [now apply Hd|].
  apply H2 in Hin. discriminate.
Qed.

(** X6.  Reading back a comma-separated list gives the dates that were
    written: for clean dates joined by commas, with or without whitespace
    around each of them, [split_dates] returns the dates in their order. *)
Theorem split_dates_of_joined (ds pads : list text) :
  Forall Args.clean ds -> Forall2 Args.padded ds pads ->
  Args.split_dates (join (str ",") pads) = ds.
Proof.
  intros Hc Hp. unfold Args.split_dates.
  destruct pads as [|p pads].
  - inversion Hp. reflexivity.
  - change (str ",") with [44%N]. rewrite split_on_join.
    + now apply stripped_nonempty_padded.
    + discriminate.
    + clear - Hc Hp. revert Hc Hp. generalize (p :: pads). clear p pads.
      intros pads Hc Hp. revert Hc.
      induction Hp as [|d q ds qs Hd _ IH]; intros Hc; [constructor|].
      inversion Hc as [|? ? Hcd Hc']; subst.
      constructor; [now apply (padded_comma_free Hcd) | now apply IH].
Qed.

(** X7.  A [--dates] argument that is not empty but holds only commas and
    whitespace yields an empty list of dates: the fallbacks to
    [TARGET_DATES] and [TARGET_DATE] are not used, and the batch has no
    date.  The fallbacks are used only when [--dates] is absent or empty. *)
Theorem blank_dates_argument (cfg : Config) (c : codepoint) (s : text)
    (env_dates : option text) :
  Forall (fun x => x = 44%N \/ is_space x = true) (c :: s) ->
  Args.select_dates cfg (Some (c :: s)) env_dates = [] /\
  Args.select_dates cfg None None = [TARGET_DATE cfg] /\
  Args.select_dates cfg (Some []) None = [TARGET_DATE cfg].
Proof.
  intros H. split; [|split; reflexivity].
  unfold Args.select_dates, Args.split_dates.
  assert (B : forall p, In p (split_on 44%N (c :: s)) -> Args.strip p = []).
  { intros p Hp. apply blank_strip. apply forallb_forall. intros x Hx.
    destruct (split_on_parts 44%N (c :: s) p x Hp Hx) as [Hin Hne].
    rewrite Forall_forall in H. destruct (H x Hin) as [-> | Hs]; [congruence | exact Hs]. }
  induction (split_on 44%N (c :: s)) as [|p parts IH]; [reflexivity|].
  simpl. rewrite (B p) by now left. apply IH. intros q Hq. apply B. now right.
Qed.

(** ** The screenshot files *)

Lemma replace_char_injective (d1 d2 : text) :
  ~ In 95%N d1 -> ~ In 95%N d2 ->
  replace_char 45%N 95%N d1 = replace_char 45%N 95%N d2 -> d1 = d2.
Proof.
  revert d2. induction d1 as [|c d1 IH]; intros [|c' d2] H1 H2 E;
    try discriminate; [reflexivity|].
  simpl in E. injection E as Ec E.
  assert (c = c').
  { destruct (N.eqb_spec c 45), (N.eqb_spec c' 45); subst; try reflexivity.
    - destruct H2. now left.
    - destruct H1. now left. }
  subst c'. f_equal. apply IH; [| |exact E]; intros Hin; [apply H1 | apply H2];
    now right.
Qed.

(** X8.  The screenshot path holds the date with every hyphen replaced by
    an underscore.  Two dates written without underscores have the same
    screenshot file only if they are the same date; a date written with
    underscores in place of hyphens shares the file of the date written with
    hyphens. *)
Theorem screenshot_files (d1 d2 : text) :
  (~ In 45%N (replace_char 45%N 95%N d1)) /\
  (~ In 95%N d1 -> ~ In 95%N d2 ->
   screenshot_path d1 = screenshot_path d2 -> d1 = d2) /\
  screenshot_path (replace_char 45%N 95%N d1) = screenshot_path d1.
Proof.
  split; [|split].
  - unfold replace_char. intros H. apply in_map_iff in H as (c & Hc & _).
    destruct (N.eqb_spec c 45); [discriminate | congruence].
  - intros H1 H2 E. unfold screenshot_path in E.
    apply app_inv_head, app_inv_tail in E. now apply replace_char_injective.
  - unfold screenshot_path. do 2 f_equal. unfold replace_char.
    rewrite map_map. apply map_ext. intros c.
    destruct (N.eqb_spec c 45) as [-> | n]; [reflexivity|].
    apply N.eqb_neq in n. now rewrite n.
Qed.

(** ** Closing the session *)

Section Closing.

Variables (W : Type) (OS : Host W) (B : Browser W) (R : Runtime) (cfg : Config).

Lemma grows_main_body (P : event -> bool) :
  (forall site e, P (ev_click site e) = true) ->
  (forall m, P (ev_print m) = true) ->
  (forall ch a b, P (ev_notify ch a b) = true) ->
  moves (grows P) (try_except (main_try B R cfg) (@main_except W)).
Proof.
  intros H1 H2 H3. pose proof (grows_frame W P) as F.
  moves_walk F grows_prim
    ltac:(apply (moves_try_selectors B F); intros; apply grows_event; apply H1).
Qed.

Lemma grows_script_body (P : event -> bool) ds :
  (forall site e, P (ev_click site e) = true) ->
  (forall m, P (ev_print m) = true) ->
  (forall t p, P (ev_screenshot t p) = true) ->
  moves (grows P) (script_body B R cfg ds).
Proof.
  intros H1 H2 H3. pose proof (grows_frame W P) as F.
  unfold script_body. apply (moves_bind F).
  - apply grows_until_summary; auto.
  - intros _. apply grows_print_summary. intros [| | m | | |]; try discriminate.
    intros _. apply H2.
Qed.

(** X9.  Both entry points close the session on every path.  Whatever the
    body did, [context.close()] is called exactly once, after everything
    else; [browser.close()] is called after it exactly when
    [context.close()] returned, and is not called when it raised. *)
Theorem session_closed_on_every_path :
  (forall ds s,
     let body := script_body B R cfg ds s in
     trace (snd (multi_date B R cfg ds s))
     = trace (snd body)
       ++ closing_events (fst (context_close B (world (snd body)))) /\
     exists evs, trace (snd body) = trace s ++ evs /\ existsb is_close evs = false) /\
  (forall s,
     let body := try_except (main_try B R cfg) (@main_except W) s in
     trace (snd (main B R cfg s))
     = trace (snd body)
       ++ closing_events (fst (context_close B (world (snd body)))) /\
     exists evs, trace (snd body) = trace s ++ evs /\ existsb is_close evs = false).
Proof.
  assert (Q : forall evs, forallb not_close evs = true -> existsb is_close evs = false).
  { induction evs as [|ev evs IH]; [reflexivity|]. simpl. intros H.
    apply andb_true_iff in H as [H1 H2]. unfold not_close in H1.
    apply negb_true_iff in H1. rewrite H1. now apply IH. }
  split.
  - intros ds s. cbv zeta. split; [apply finally_close_all|].
    destruct (@grows_script_body not_close ds) with (s := s) as (evs & E & H);
      try reflexivity.
    exists evs. split; [exact E | now apply Q].
  - intros s. cbv zeta. split; [apply finally_close_all|].
    destruct (@grows_main_body not_close) with (s := s) as (evs & E & H);
      try reflexivity.
    exists evs. split; [exact E | now apply Q].
Qed.

(** ** What [main] returns *)

Lemma main_body_returns : returns (try_except (main_try B R cfg) (@main_except W)).
Proof.
  apply returns_try. intros e s. exists (code_of (@Exc Z e)).
  rewrite main_except_returns. destruct e; reflexivity.
Qed.

Lemma main_code (s : state W) :
  (forall w, fst (context_close B w) = Val tt) ->
  (forall w, fst (browser_close B w) = Val tt) ->
  fst (main B R cfg s) = Val (code_of (fst (main_try B R cfg s))).
Proof.
  intros Hc Hb. unfold main, finally, try_except.
  destruct (main_try B R cfg s) as [[c|e] s1] eqn:E.
  - apply main_try_returns_zero in E. subst c.
    pose proof (close_all_succeeds B s1 Hc Hb) as H.
    destruct (close_all B s1) as [[u|e] s2]; [reflexivity | discriminate].
  - pose proof (main_except_returns e s1) as Hx.
    destruct (main_except e s1) as [r s2]. cbn [fst] in Hx. subst r.
    pose proof (close_all_succeeds B s2 Hc Hb) as H.
    destruct (close_all B s2) as [[u|e0] s3]; [|discriminate].
    destruct e; reflexivity.
Qed.

(** Once the page exists [main] is its [try] statement, followed by the
    exit of the Playwright manager. *)
Lemma main_function_opened (s s0 : state W) :
  before_main_try OS s = (Val tt, s0) ->
  main_function OS B R cfg s
  = finally (main B R cfg) (call (playwright_stop OS)) s0.
Proof.
  unfold before_main_try, main_function, with_playwright, open_page, finally,
    bind, call.
  destruct (playwright_start OS (world s)) as [[u1|e] w2]; cbn [world set_world];
    [|discriminate].
  destruct (launch OS w2) as [[u2|e] w3]; cbn [world set_world];
    [|discriminate].
  destruct (new_context OS w3) as [[u3|e] w4]; cbn [world set_world];
    [|discriminate].
  destruct (new_page OS w4) as [[[]|e] w5]; cbn [world set_world];
    [|discriminate].
  intros H. now injection H as <-.
Qed.

Lemma main_function_not_opened (s : state W) e s1 :
  before_main_try OS s = (Exc e, s1) ->
  (exists e', fst (main_function OS B R cfg s) = Exc e') /\
  trace (snd (main_function OS B R cfg s)) = trace s.
Proof.
  unfold before_main_try, main_function, with_playwright, open_page, finally,
    bind, call.
  destruct (playwright_start OS (world s)) as [[u1|e0] w2]; cbn [world set_world];
    [|intros _; split; [now exists e0 | reflexivity]].
  destruct (launch OS w2) as [[u2|e0] w3]; cbn [world set_world];
    [|intros _; destruct (playwright_stop OS w3) as [[u'|e'] w'];
      (split; [eexists; reflexivity | reflexivity])].
  destruct (new_context OS w3) as [[u3|e0] w4]; cbn [world set_world];
    [|intros _; destruct (playwright_stop OS w4) as [[u'|e'] w'];
      (split; [eexists; reflexivity | reflexivity])].
  destruct (new_page OS w4) as [[u4|e0] w5]; cbn [world set_world];
    [discriminate|].
  intros _; destruct (playwright_stop OS w5) as [[u'|e'] w'];
    (split; [eexists; reflexivity | reflexivity]).
Qed.

(** X10.  [main] lets an exception out only from outside its [try]
    statement's handlers.  When starting Playwright, launching the browser
    and opening the context and the page return, and closing the session and
    leaving Playwright do not raise, it returns 0 when the body of its [try]
    runs to its end, 2 when a [PlaywrightTimeoutError] leaves that body and 3
    when any other exception does.  When one of the calls before the [try]
    raises, an exception leaves [main], which has closed nothing and sent no
    notification; when [context.close()] raises, an exception leaves [main]
    too. *)
Theorem main_returns_a_code (s : state W) :
  (forall s0,
     before_main_try OS s = (Val tt, s0) ->
     (forall w, fst (context_close B w) = Val tt) ->
     (forall w, fst (browser_close B w) = Val tt) ->
     (forall w, fst (playwright_stop OS w) = Val tt) ->
     fst (main_function OS B R cfg s)
     = Val (code_of (fst (main_try B R cfg s0)))) /\
  (forall e s1,
     before_main_try OS s = (Exc e, s1) ->
     (exists e', fst (main_function OS B R cfg s) = Exc e') /\
     trace (snd (main_function OS B R cfg s)) = trace s) /\
  (forall s0 e w',
     before_main_try OS s = (Val tt, s0) ->
     context_close B
       (world (snd (try_except (main_try B R cfg) (@main_except W) s0)))
     = (Exc e, w') ->
     exists e', fst (main_function OS B R cfg s) = Exc e').
Proof.
  split; [|split].
  - intros s0 Hb Hc Hbc Hs. rewrite (main_function_opened s Hb).
    pose proof (main_code s0 Hc Hbc) as Hm. unfold finally.
    destruct (main B R cfg s0) as [r s1]. cbn [fst] in Hm. subst r.
    unfold call. specialize (Hs (world s1)).
    now destruct (playwright_stop OS (world s1)) as [[[]|e] w'].
  - intros e s1. apply main_function_not_opened.
  - intros s0 e w' Hb Hc. rewrite (main_function_opened s Hb).
    unfold finally at 1. unfold main, finally.
    destruct (try_except (main_try B R cfg) (@main_except W) s0) as [r s1].
    cbn [snd] in Hc.
    unfold close_all, bind, emit, modify, call. cbn [world add_event].
    rewrite Hc. cbn [world set_world].
    destruct (playwright_stop OS w') as [[u|e'] w'']; eexists; reflexivity.
Qed.

Lemma fill_date_input_returns : returns (fill_date_input B cfg).
Proof. apply returns_try. intros _. apply returns_ret. Qed.

Lemma pick_calendar_cell_returns : returns (pick_calendar_cell B R cfg).
Proof. apply returns_try. intros _. apply returns_ret. Qed.

Lemma announce_returns b : returns (@announce W cfg b).
Proof.
  unfold announce, print, emit, desktop_notify, telegram_notify, email_notify.
  apply returns_bind; [apply returns_modify|intros _].
  destruct b; [|apply returns_ret].
  repeat (apply returns_bind; [|intros _]);
    match goal with
    | |- returns (if ?c then _ else _) =>
        destruct c; [apply returns_ret | apply returns_modify]
    end.
Qed.

(** X11.  The date picker is best effort: when [page.goto], the final wait
    of 1500 ms and the reading of the page text do not raise, the body of
    [main] runs to its end and [main] returns 0 if closing succeeds, whatever
    the queries, the clicks, the filling of the date input and the parsing of
    [TARGET_DATE] do. *)
Theorem date_picker_failures_are_ignored (s : state W) :
  (forall w, fst (goto B (TARGET_URL cfg) (TIMEOUT_MS cfg) w) = Val tt) ->
  (forall w, fst (wait_for_timeout B Page 1500 w) = Val tt) ->
  (forall w, exists t, fst (body_inner_text B Page w) = Val t) ->
  (exists s', main_try B R cfg s = (Val 0%Z, s')) /\
  ((forall w, fst (context_close B w) = Val tt) ->
   (forall w, fst (browser_close B w) = Val tt) ->
   fst (main B R cfg s) = Val 0%Z).
Proof.
  intros Hg Hw Ht.
  assert (H : returns (main_try B R cfg)).
  { unfold main_try.
    apply returns_bind; [apply returns_call; intros w; exists tt; apply Hg|intros _].
    apply returns_bind; [apply fill_date_input_returns|intros _].
    apply returns_bind; [apply pick_calendar_cell_returns|intros _].
    apply returns_bind; [apply returns_call; intros w; exists tt; apply Hw|intros _].
    apply returns_bind; [apply returns_call; exact Ht|intros t].
    apply returns_bind; [apply announce_returns|intros _]. apply returns_ret. }
  destruct (H s) as [c Hc].
  destruct (main_try B R cfg s) as [[c'|e] s1] eqn:E; cbn [fst] in Hc; [|discriminate].
  pose proof (main_try_returns_zero _ _ _ _ E) as ->.
  split; [now exists s1|].
  intros Hcc Hcb. rewrite (main_code s Hcc Hcb), E. reflexivity.
Qed.

End Closing.

(** ** The notifications of [main] *)

Section ConfiguredNotifications.

Variables (W : Type) (B : Browser W) (R : Runtime) (cfg : Config).

Lemma filter_quiet evs :
  forallb not_notify evs = true -> filter is_notify evs = [].
Proof.
  induction evs as [|ev evs IH]; [reflexivity|]. simpl. intros H.
  apply andb_true_iff in H as [H1 H2]. unfold not_notify in H1.
  apply negb_true_iff in H1. rewrite H1. now apply IH.
Qed.

Lemma nac_quiet {A} (m : M W A) :
  moves (grows not_notify) m -> notifies_as_configured cfg m.
Proof.
  intros H s. destruct (H s) as (evs & E & Q). exists evs.
  split; [exact E | left; now apply filter_quiet].
Qed.

Lemma nac_quiet_then {A C} (m : M W A) (k : A -> M W C) :
  moves (grows not_notify) m -> (forall a, notifies_as_configured cfg (k a)) ->
  notifies_as_configured cfg (bind m k).
Proof.
  intros Hm Hk s. unfold bind. destruct (Hm s) as (e1 & E1 & Q1).
  destruct (m s) as [[a|e] s1]; cbn [snd] in E1.
  - destruct (Hk a s1) as (e2 & E2 & Q2). exists (e1 ++ e2).
    split; [now rewrite E2, E1, app_assoc|].
    now rewrite filter_app, (filter_quiet _ Q1).
  - exists e1. split; [exact E1 | left; now apply filter_quiet].
Qed.

Lemma nac_then_quiet {A C} (m : M W A) (k : A -> M W C) :
  notifies_as_configured cfg m -> (forall a, moves (grows not_notify) (k a)) ->
  notifies_as_configured cfg (bind m k).
Proof.
  intros Hm Hk s. unfold bind. destruct (Hm s) as (e1 & E1 & Q1).
  destruct (m s) as [[a|e] s1]; cbn [snd] in E1.
  - destruct (Hk a s1) as (e2 & E2 & Q2). exists (e1 ++ e2).
    split; [now rewrite E2, E1, app_assoc|].
    now rewrite filter_app, (filter_quiet _ Q2), app_nil_r.
  - exists e1. now split.
Qed.

Lemma nac_try {A} (m : M W A) (h : exn -> M W A) :
  notifies_as_configured cfg m -> (forall e, moves (grows not_notify) (h e)) ->
  notifies_as_configured cfg (try_except m h).
Proof.
  intros Hm Hh s. unfold try_except. destruct (Hm s) as (e1 & E1 & Q1).
  destruct (m s) as [[a|e] s1]; cbn [snd] in E1.
  - exists e1. now split.
  - destruct (Hh e s1) as (e2 & E2 & Q2). exists (e1 ++ e2).
    split; [now rewrite E2, E1, app_assoc|].
    now rewrite filter_app, (filter_quiet _ Q2), app_nil_r.
Qed.

Lemma nac_finally {A} (m : M W A) (f : M W unit) :
  notifies_as_configured cfg m -> moves (grows not_notify) f ->
  notifies_as_configured cfg (finally m f).
Proof.
  intros Hm Hf s. unfold finally. destruct (Hm s) as (e1 & E1 & Q1).
  destruct (m s) as [r s1]; cbn [snd] in E1.
  destruct (Hf s1) as (e2 & E2 & Q2).
  exists (e1 ++ e2).
  split; [destruct (f s1) as [[u|e] s2]; cbn [snd] in *; now rewrite E2, E1, app_assoc|].
  now rewrite filter_app, (filter_quiet _ Q2), app_nil_r.
Qed.

Lemma announce_events (is_open : bool) (s : state W) :
  trace (snd (announce cfg is_open s))
  = trace s ++ ev_print (msg_heuristic is_open)
      :: (if is_open then configured_notifications cfg else []).
Proof.
  unfold announce, configured_notifications, desktop_notify, telegram_notify,
    email_notify, print, emit, bind, modify, ret.
  destruct is_open; [|reflexivity].
  destruct (DESKTOP_NOTIFY cfg),
    (nonempty (TELEGRAM_BOT_TOKEN cfg) && nonempty (TELEGRAM_CHAT_ID cfg)),
    (nonempty (EMAIL_FROM cfg) && nonempty (EMAIL_TO cfg)
     && nonempty (SMTP_PASS cfg));
    simpl; repeat rewrite <- app_assoc; reflexivity.
Qed.

Lemma filter_configured :
  filter is_notify (configured_notifications cfg) = configured_notifications cfg.
Proof.
  unfold configured_notifications.
  destruct (DESKTOP_NOTIFY cfg),
    (nonempty (TELEGRAM_BOT_TOKEN cfg) && nonempty (TELEGRAM_CHAT_ID cfg)),
    (nonempty (EMAIL_FROM cfg) && nonempty (EMAIL_TO cfg)
     && nonempty (SMTP_PASS cfg)); reflexivity.
Qed.

Lemma nac_announce is_open : notifies_as_configured cfg (@announce W cfg is_open).
Proof.
  intros s. eexists. split; [apply announce_events|]. simpl.
  destruct is_open; [right; apply filter_configured | now left].
Qed.

Lemma main_notifies_as_configured : notifies_as_configured cfg (main B R cfg).
Proof.
  pose proof (grows_frame W not_notify) as F.
  unfold main. apply nac_finally; [|now apply grows_close_all].
  apply nac_try.
  - unfold main_try.
    apply nac_quiet_then; [apply (moves_call F)|intros _].
    apply nac_quiet_then;
      [moves_walk F grows_prim fail|intros _].
    apply nac_quiet_then;
      [moves_walk F grows_prim
         ltac:(apply (moves_try_selectors B F); intros; now apply grows_event)
      |intros _].
    apply nac_quiet_then; [apply (moves_call F)|intros _].
    apply nac_quiet_then; [apply (moves_call F)|intros t].
    apply nac_then_quiet; [apply nac_announce|intros _]. apply (moves_ret F).
  - intros e. moves_walk F grows_prim fail.
Qed.

(** X12.  A run of [main] sends either no notification or exactly one
    round of them: one per enabled channel, in the order desktop, Telegram,
    e-mail, each with the availability message.  A channel is enabled by
    [DESKTOP_NOTIFY], by a non-empty bot token and chat id, by non-empty
    sender, recipient and password; with no channel enabled nothing is ever
    sent, whatever the page shows. *)
Theorem main_notifies_enabled_channels (s : state W) :
  (exists evs,
     trace (snd (main B R cfg s)) = trace s ++ evs /\
     (filter is_notify evs = [] \/
      filter is_notify evs = configured_notifications cfg)) /\
  (forall is_open,
     filter is_notify (trace (snd (announce cfg is_open s)))
     = filter is_notify (trace s)
       ++ (if is_open then configured_notifications cfg else [])) /\
  (DESKTOP_NOTIFY cfg = false ->
   nonempty (TELEGRAM_BOT_TOKEN cfg) && nonempty (TELEGRAM_CHAT_ID cfg) = false ->
   nonempty (EMAIL_FROM cfg) && nonempty (EMAIL_TO cfg)
   && nonempty (SMTP_PASS cfg) = false ->
   filter is_notify (trace (snd (main B R cfg s))) = filter is_notify (trace s)).
Proof.
  split; [apply main_notifies_as_configured|]. split.
  - intros is_open. rewrite announce_events, filter_app. simpl.
    destruct is_open; [now rewrite filter_configured | reflexivity].
  - intros H1 H2 H3.
    destruct (main_notifies_as_configured s) as (evs & E & Q).
    rewrite E, filter_app.
    assert (C : configured_notifications cfg = []).
    { unfold configured_notifications. now rewrite H1, H2, H3. }
    rewrite C in Q. destruct Q as [-> | ->]; apply app_nil_r.
Qed.

End ConfiguredNotifications.

(** ** What an inspection leaves in the evidence *)

Section InspectionOutcome.

Variables (W : Type) (B : Browser W) (R : Runtime) (cfg : Config).

Lemma evidence_extended_frame : frame_rel (@evidence_extended W).
Proof.
  split.
  - intros s. exists []. now rewrite app_nil_r.
  - intros a b c (x & Ex & Hx) (y & Ey & Hy). exists (x ++ y).
    split; [now rewrite Ey, Ex, app_assoc | now apply Forall_app].
  - intros w s. exists []. simpl. now rewrite app_nil_r.
Qed.

Lemma extended_then_added (a b c : state W) :
  evidence_extended a b -> evidence_added b c -> evidence_added a c.
Proof.
  intros (x & Ex & Hx) (e & rest & Ey & Hy). destruct x as [|x0 x].
  - exists e, rest. rewrite Ey, Ex, app_nil_r. now split.
  - exists x0, (x ++ e :: rest). split.
    + rewrite Ey, Ex, <- app_assoc. reflexivity.
    + change (x0 :: x ++ e :: rest) with ((x0 :: x) ++ e :: rest).
      now apply Forall_app.
Qed.

Lemma added_then_extended (a b c : state W) :
  evidence_added a b -> evidence_extended b c -> evidence_added a c.
Proof.
  intros (e & rest & Ex & Hx) (y & Ey & Hy). exists e, (rest ++ y). split.
  - rewrite Ey, Ex, <- app_assoc. reflexivity.
  - change (e :: rest ++ y) with ((e :: rest) ++ y). now apply Forall_app.
Qed.

Lemma append_adds (e : text) (s : state W) :
  e <> [] -> evidence_added s (set_evidence (evidence s ++ [e]) s).
Proof. intros H. exists e, []. split; [reflexivity | now constructor]. Qed.

Lemma append_extends (e : text) (s : state W) :
  e <> [] -> evidence_extended s (set_evidence (evidence s ++ [e]) s).
Proof. intros H. exists [e]. split; [reflexivity | now constructor]. Qed.

Lemma cell_rule_evidence v cls html a f so :
  snd (cell_rule v cls html a f so) <> [].
Proof.
  unfold cell_rule.
  destruct a, f, so, (contains (str "sold-out-layout") cls),
    (contains (str "pointer-none") cls), (contains (str "day-active") cls),
    (contains (str "aval") html); discriminate.
Qed.

Lemma on_return_bind_r (T Rl : state W -> state W -> Prop) {A C}
    (m : M W A) (k : A -> M W C) :
  (forall a b c, T a b -> Rl b c -> T a c) ->
  on_return T m -> (forall a, moves Rl (k a)) -> on_return T (bind m k).
Proof.
  intros Hcomp Hm Hk s c s' H.
  apply bind_val_inv in H as (a & s1 & Hms & Hks).
  specialize (Hk a s1). rewrite Hks in Hk. cbn [snd] in Hk.
  eapply Hcomp; [eapply Hm; exact Hms | exact Hk].
Qed.

Lemma evidence_same (s s' : state W) :
  evidence s' = evidence s -> evidence_extended s s'.
Proof. intros H. exists []. now rewrite app_nil_r. Qed.

Ltac evidence_prim :=
  first [ apply evidence_same; reflexivity
        | apply append_extends; discriminate ].

Lemma rule_tail_adds cls html a f so :
  on_return (@evidence_added W)
    (bind (read (@verdict W))
       (fun current =>
          let '(v, e) := cell_rule current cls html a f so in
          bind (modify (set_verdict v)) (fun _ => append_evidence e))).
Proof.
  intros s u s' E. unfold bind, read, modify, append_evidence in E.
  pose proof (cell_rule_evidence (verdict s) cls html a f so) as N.
  destruct (cell_rule (verdict s) cls html a f so) as [v e].
  injection E as _ <-. exists e, []. split; [reflexivity | now constructor].
Qed.

Lemma list_days_extends cal :
  moves (@evidence_extended W) (list_days B R cal).
Proof.
  pose proof evidence_extended_frame as F.
  moves_walk F evidence_prim ltac:(apply (moves_collect_days B R F)).
Qed.

Lemma inspect_body_adds cal day :
  on_return (@evidence_added W) (inspect_body B R cal day).
Proof.
  pose proof evidence_extended_frame as F.
  unfold inspect_body.
  eapply on_return_bind; [exact extended_then_added|apply (moves_find_day B F)|].
  intros [de|].
  - eapply on_return_bind; [exact extended_then_added| |].
    + moves_walk F evidence_prim fail.
    + intros [b|].
      * unfold classify_button.
        do 5 (eapply on_return_bind;
              [exact extended_then_added|apply (moves_call F)|intros ?]).
        apply rule_tail_adds.
      * intros s u s' E. unfold append_evidence, modify in E.
        injection E as _ <-. now apply append_adds.
  - eapply on_return_bind_r; [exact added_then_extended| |].
    + intros s u s' E. unfold append_evidence, modify in E.
      injection E as _ <-. now apply append_adds.
    + intros _. apply list_days_extends.
Qed.

Lemma rule_tail_extends cls html a f so :
  moves (@evidence_extended W)
    (bind (read (@verdict W))
       (fun current =>
          let '(v, e) := cell_rule current cls html a f so in
          bind (modify (set_verdict v)) (fun _ => append_evidence e))).
Proof.
  intros s. unfold bind, read, modify, append_evidence.
  pose proof (cell_rule_evidence (verdict s) cls html a f so) as N.
  destruct (cell_rule (verdict s) cls html a f so) as [v e]. cbn [snd] in *.
  exists [e]. split; [reflexivity | now constructor].
Qed.

Lemma inspect_body_extends cal day :
  moves (@evidence_extended W) (inspect_body B R cal day).
Proof.
  pose proof evidence_extended_frame as F.
  unfold inspect_body, classify_button.
  moves_walk F evidence_prim
    ltac:(first [ apply (moves_find_day B F)
                | apply (moves_collect_days B R F)
                | apply rule_tail_extends ]).
Qed.

Lemma inspect_date_adds cal day (s : state W) :
  evidence_added s (snd (inspect_date B R cal day s)).
Proof.
  unfold inspect_date, try_except.
  pose proof (inspect_body_extends cal day s) as X.
  destruct (inspect_body B R cal day s) as [[u|e] s1] eqn:E; cbn [snd] in *.
  - eapply inspect_body_adds; exact E.
  - eapply extended_then_added; [exact X|].
    unfold append_evidence, modify. cbn [snd]. apply append_adds. discriminate.
Qed.

Lemma join_nonempty sep e rest : e <> [] -> join sep (e :: rest) <> [].
Proof.
  intros H. destruct e as [|c e]; [congruence|].
  destruct rest; simpl; discriminate.
Qed.

(** X14.  Every inspection leaves at least one string of evidence, none of
    them empty: a rule that fired, an unknown state, a missing element or an
    error.  The evidence field of every entry of a run that reaches its end
    is therefore not empty. *)
Theorem every_entry_has_evidence :
  (forall cal day (s : state W),
     evidence s = [] ->
     evidence (snd (inspect_date B R cal day s)) <> [] /\
     Forall (fun e => e <> []) (evidence (snd (inspect_date B R cal day s)))) /\
  (forall ds (w : W),
     fst (run_script B R cfg ds w) = Exit 0 ->
     Forall (fun r => e_evidence r <> [])
       (results (snd (run_script B R cfg ds w)))).
Proof.
  assert (H : forall cal day (s : state W),
             evidence s = [] ->
             exists e rest,
               evidence (snd (inspect_date B R cal day s)) = e :: rest /\
               Forall (fun e => e <> []) (e :: rest)).
  { intros cal day s He.
    destruct (inspect_date_adds cal day s) as (e & rest & E & N).
    rewrite He in E. now exists e, rest. }
  split.
  - intros cal day s He. destruct (H cal day s He) as (e & rest & -> & N).
    split; [discriminate | exact N].
  - intros ds w Hx. apply completed_run_results in Hx.
    induction Hx as [|d r ds rs
                       (cal & y & m & day & sp & sp' & s0 & s1 & _ & _ & He & Hi & ->)
                       _ IH];
      constructor; [|exact IH].
    destruct (H cal day s0 He) as (e & rest & E & N). rewrite Hi in E.
    cbn [snd] in E. unfold make_entry. cbn [e_evidence]. rewrite E.
    inversion N as [|? ? Hne _]; subst.
    pose proof (join_nonempty (str "; ") rest Hne) as J.
    remember (join (str "; ") (e :: rest)) as j eqn:EJ.
    destruct j as [|c j]; [now destruct J | discriminate].
Qed.

End InspectionOutcome.

(** ** Malformed dates *)

Section MalformedDates.

Variables (W : Type) (B : Browser W) (R : Runtime) (cfg : Config).

Lemma parse_date_well_formed d (s s' : state W) y m dd :
  parse_date R d s = (Val (y, m, dd), s') -> well_formed_date R d.
Proof.
  unfold parse_date, bind, of_outcome, ret.
  destruct (unpack3 (split_on 45%N d)) as [[[ty tm] td]|e] eqn:Eu; [|discriminate].
  destruct (py_int R ty) as [y'|e] eqn:Ey; [|discriminate].
  destruct (py_int R tm) as [m'|e] eqn:Em; [|discriminate].
  destruct (py_int R td) as [d'|e] eqn:Ed; [|discriminate].
  intros _. now exists ty, tm, td, y', m', d'.
Qed.

Lemma classified_dates_well_formed ds es :
  Forall2 (classified B R) ds es -> Forall (well_formed_date R) ds.
Proof.
  induction 1 as [|d e ds es (cal & y & m & day & sp & sp' & _ & _ & Hp & _) _ IH];
    constructor; [|exact IH].
  eapply parse_date_well_formed. exact Hp.
Qed.

(** X15.  One malformed date string spoils the batch: if any requested
    date does not have three integer fields separated by hyphens, the run
    ends with a traceback and prints no summary, not even for the dates
    before it. *)
Theorem malformed_date_aborts_the_batch (ds : list text) (d : text) (w : W) :
  In d ds -> ~ well_formed_date R d ->
  (exists e, fst (run_script B R cfg ds w) = Traceback e) /\
  existsb is_summary (trace (snd (run_script B R cfg ds w))) = false.
Proof.
  intros Hin Hbad.
  destruct (visit_and_check B R cfg ds (init_state w)) as [[u|e] s1] eqn:E.
  - exfalso. apply visit_and_check_returns in E as (es & _ & Hf & _).
    apply classified_dates_well_formed in Hf. rewrite Forall_forall in Hf.
    now apply Hbad, Hf.
  - eapply aborted_visit_no_summary. exact E.
Qed.

End MalformedDates.

(** ** The selector chain, the popup and the calendar document *)

Section Locating.

Variables (W : Type) (B : Browser W) (R : Runtime) (cfg : Config).

Lemma set_world_same (s : state W) : set_world (world s) s = s.
Proof. now destruct s. Qed.

(** X16.  The day element is located by the first selector that finds
    one: when the chain returns an element, every selector before the one
    that found it was queried and found nothing, and no selector after it was
    queried; when it returns nothing, every selector was queried and found
    nothing; when it raises, the selectors before the one that raised found
    nothing and those after it were not queried. *)
Theorem find_day_first_match (cal : doc) (sels : list selector) (s : state W) :
  (forall e s',
     find_day B cal sels s = (Val (Some e), s') ->
     exists pre sel post w1 w2,
       sels = pre ++ sel :: post /\ misses B cal pre (world s) w1 /\
       query_selector B (in_doc cal) sel w1 = (Val (Some e), w2) /\
       s' = set_world w2 s) /\
  (forall s',
     find_day B cal sels s = (Val None, s') ->
     exists w1, misses B cal sels (world s) w1 /\ s' = set_world w1 s) /\
  (forall x s',
     find_day B cal sels s = (Exc x, s') ->
     exists pre sel post w1 w2,
       sels = pre ++ sel :: post /\ misses B cal pre (world s) w1 /\
       query_selector B (in_doc cal) sel w1 = (Exc x, w2) /\
       s' = set_world w2 s).
Proof.
  revert s. induction sels as [|sel sels IH]; intros s.
  - repeat split; intros; try discriminate.
    exists (world s). split; [constructor|].
    match goal with H : _ = _ |- _ => injection H as <- end.
    symmetry. apply set_world_same.
  - cbn [find_day]. unfold bind, query, call.
    destruct (query_selector B (in_doc cal) sel (world s)) as [[[e0|]|x0] w1] eqn:Q.
    + repeat split; intros; try discriminate.
      match goal with H : ret _ _ = _ |- _ => unfold ret in H; injection H as <- <- end.
      exists [], sel, sels, (world s), w1. repeat split; [constructor | exact Q].
    + destruct (IH (set_world w1 s)) as (I1 & I2 & I3). repeat split.
      * intros e s' H. destruct (I1 e s' H) as (pre & sl & post & a & b & -> & M & Qs & ->).
        exists (sel :: pre), sl, post, a, b.
        repeat split; [econstructor; [exact Q | exact M] | exact Qs].
      * intros s' H. destruct (I2 s' H) as (a & M & ->).
        exists a. split; [econstructor; [exact Q | exact M] | reflexivity].
      * intros x s' H. destruct (I3 x s' H) as (pre & sl & post & a & b & -> & M & Qs & ->).
        exists (sel :: pre), sl, post, a, b.
        repeat split; [econstructor; [exact Q | exact M] | exact Qs].
    + repeat split; intros; try discriminate.
      match goal with H : (Exc _, _) = _ |- _ => injection H as <- <- end.
      exists [], sel, sels, (world s), w1. repeat split; [constructor | exact Q].
Qed.

(** X17.  Dismissing the popup never raises, and it clicks at most once:
    only a button that the "OK" selector found and that reported itself
    visible. *)
Theorem popup_clicked_only_if_visible (s : state W) :
  fst (dismiss_popup B s) = Val tt /\
  exists evs,
    trace (snd (dismiss_popup B s)) = trace s ++ evs /\
    (evs = [] \/
     exists b w1 w2,
       evs = [ev_click at_popup_ok b] /\
       query_selector B (in_doc Page) sel_ok_button (world s) = (Val (Some b), w1) /\
       is_visible B b w1 = (Val true, w2)).
Proof.
  unfold dismiss_popup, click_at, wait, query, emit, try_except, bind, call,
    modify, ret.
  destruct (query_selector B (in_doc Page) sel_ok_button (world s))
    as [[[b|]|x] w1] eqn:Q; cbn [world set_world];
    try (split; [reflexivity|]; exists []; rewrite app_nil_r; split; [reflexivity | now left]).
  destruct (is_visible B b w1) as [[[|]|x] w2] eqn:V; cbn [world set_world add_event];
    try (split; [reflexivity|]; exists []; rewrite app_nil_r; split; [reflexivity | now left]).
  destruct (click B b w2) as [[u|x] w3]; cbn [world set_world].
  - destruct u; destruct (wait_for_timeout B Page 3000 w3) as [[[]|x] w4];
      (split; [reflexivity|]); exists [ev_click at_popup_ok b];
      (split; [reflexivity|]); right; now exists b, w1, w2.
  - split; [reflexivity|]. exists [ev_click at_popup_ok b].
    split; [reflexivity|]. right. now exists b, w1, w2.
Qed.

Lemma keeps_iframe_frame : frame_rel (keeps (@iframe_calendar W)).
Proof. now apply keeps_frame. Qed.

Lemma check_date_keeps_iframe d :
  moves (keeps (@iframe_calendar W)) (check_date B R d).
Proof.
  pose proof keeps_iframe_frame as F.
  moves_walk F ltac:(reflexivity)
    ltac:(first [ apply (moves_find_day B F)
                | apply (moves_collect_days B R F) ]).
Qed.

Lemma month_before_loop_keeps_iframe fr :
  moves (keeps (@iframe_calendar W)) (month_before_loop B R fr).
Proof. moves_walk keeps_iframe_frame ltac:(reflexivity) fail. Qed.

(** X18.  Looking for the calendar iframe never raises.  It leaves the
    calendar document as it was, or sets it to the content frame that the
    browser returned for the element the iframe selector found.  The date
    loop never changes it, and every date that the loop reaches is handled in
    the document that was set when the loop began: the calendar text is read
    there, the day is looked for and inspected there, and the first
    screenshot is asked of it. *)
Theorem calendar_document_is_fixed :
  (forall s : state W,
     fst (find_iframe B R s) = Val tt /\
     (iframe_calendar (snd (find_iframe B R s)) = iframe_calendar s \/
      exists i w1 w2 w3 fr,
        query_selector B (in_doc Page) sel_calendar_iframe (world s)
        = (Val (Some i), w1) /\
        content_frame B i w2 = (Val (Some fr), w3) /\
        iframe_calendar (snd (find_iframe B R s)) = Some fr)) /\
  (forall ds (s : state W),
     iframe_calendar (snd (date_loop B R ds s)) = iframe_calendar s) /\
  (forall pre d (s sa : state W),
     date_loop B R pre s = (Val tt, sa) ->
     let cal := match iframe_calendar s with
                | Some fr => Frame fr
                | None => Page
                end in
     check_date B R d sa
     = bind (parse_date R d)
         (fun target =>
            let '(year, month, day) := target in
            bind (navigate_in_loop B cal year month) (fun _ =>
            bind (modify (set_verdict UNSURE)) (fun _ =>
            bind (modify (set_evidence [])) (fun _ =>
            bind (inspect_date B R cal day) (fun _ =>
            bind (take_screenshot B cal d) (fun _ =>
            record_result d))))))
         sa).
Proof.
  split; [|split].
  - intros s. unfold find_iframe, try_except, query, wait, bind, call, ret.
    destruct (query_selector B (in_doc Page) sel_calendar_iframe (world s))
      as [[[i|]|x] w1] eqn:Q; cbn [world set_world fst snd];
      try (split; [reflexivity | now left]).
    destruct (get_attribute B i (str "src") w1) as [[a|x] w2];
      cbn [world set_world fst snd];
      try (split; [reflexivity | now left]).
    destruct (content_frame B i w2) as [[[fr|]|x] w3] eqn:C;
      cbn [world set_world fst snd];
      try (split; [reflexivity | now left]).
    destruct (wait_for_timeout B (Frame fr) 2000 w3) as [[u|x] w4];
      cbn [world set_world fst snd];
      try (split; [reflexivity | now left]).
    pose proof (month_before_loop_keeps_iframe fr
                  (set_world w4 (set_world w3 (set_world w2 (set_world w1 s))))) as K.
    assert (V : exists u, fst (month_before_loop B R fr
                  (set_world w4 (set_world w3 (set_world w2 (set_world w1 s)))))
                          = Val u).
    { apply returns_try. intros _. apply returns_ret. }
    destruct V as [u0 V].
    destruct (month_before_loop B R fr
                (set_world w4 (set_world w3 (set_world w2 (set_world w1 s)))))
      as [[u'|x] s1]; cbn [fst snd] in *; [|discriminate].
    unfold modify. cbn [fst snd iframe_calendar set_iframe_calendar].
    split; [reflexivity|]. right. exists i, w1, w2, w3, fr.
    split; [reflexivity|]. split; [exact C | reflexivity].
  - intros ds s.
    apply (moves_date_loop keeps_iframe_frame (B:=B) (R:=R)).
    exact check_date_keeps_iframe.
  - intros pre d s sa Hpre. cbv zeta.
    pose proof (moves_date_loop keeps_iframe_frame (B:=B) (R:=R) pre
                  check_date_keeps_iframe s) as K.
    rewrite Hpre in K. unfold keeps in K. cbn [snd] in K.
    unfold check_date. unfold bind at 1. unfold calendar_page, read.
    now rewrite K.
Qed.

End Locating.

(** ** Runs of the further properties *)

Module MoreRuns.

Import Sim.

(** A text with the triangle is answered [True] and holds the symbol; a
    text of ASCII words is answered [False]. *)
Lemma triangle_is_the_symbol :
  (exists c, In c ([9651%N] ++ str " few slots")
             /\ (c = 9675 \/ c = 9711 \/ c = 9651)%N) /\
  looks_available (str "Tickets available: book now") = false.
Proof.
  split.
  - apply (proj1 (available_only_with_symbol ([9651%N] ++ str " few slots"))).
    reflexivity.
  - apply (proj2 (available_only_with_symbol (str "Tickets available: book now"))).
    repeat (constructor; [reflexivity|]). constructor.
Defined.

Lemma capitals_answered_alike :
  looks_available (str "SOLD OUT " ++ [9675%N])
  = looks_available (str "sold out " ++ [9675%N]).
Proof.
  apply (proj1 (looks_available_ignores_case (str "SOLD OUT " ++ [9675%N])
                  (str "sold out " ++ [9675%N]))).
  repeat (constructor; [reflexivity|]). constructor.
Defined.

(** "SOLD", a tab and a space, "Out", before an open circle. *)
Lemma sold_tab_out_before_circle :
  looks_available
    (str "Oct 7: " ++ str "SOLD" ++ [9%N; 32%N] ++ str "Out" ++ [9675%N]) = false.
Proof.
  apply spaced_negative_words; [reflexivity|]. left.
  split; repeat (constructor; [reflexivity|]); constructor.
Defined.

(** A sold-out day beside an open day makes the page unavailable. *)
Lemma sold_out_day_beside_open_day :
  looks_available (str "7 sold out" ++ str " 8 " ++ [9675%N]) = false /\
  looks_available ((str " 8 " ++ [9675%N]) ++ str "7 sold out") = false.
Proof.
  apply (proj1 (looks_available_of_parts (str "7 sold out") (str " 8 " ++ [9675%N]))).
  reflexivity.
Defined.

Lemma two_padded_dates :
  Args.split_dates (str " 2025-10-07,2025-10-08 ") = [oct_7; oct_8].
Proof.
  apply (@split_dates_of_joined [oct_7; oct_8]
           [str " 2025-10-07"; str "2025-10-08 "]).
  - repeat constructor; try discriminate; simpl; intuition discriminate.
  - constructor; [exists [32%N], [] | constructor; [exists [], [32%N] | constructor]];
      repeat split.
Defined.

Lemma commas_only_argument :
  Args.select_dates config (Some (str ", ,")) (Some (str "2025-10-07")) = [].
Proof.
  apply (proj1 (@blank_dates_argument config 44%N (str " ,") (Some (str "2025-10-07")) ltac:(repeat constructor; solve [now left | now right]))).

Defined.

Lemma different_dates_different_files :
  screenshot_path oct_7 = screenshot_path (str "2025-10-07") /\ oct_7 = str "2025-10-07".
Proof.
  split; [reflexivity|].
  apply (proj1 (proj2 (screenshot_files oct_7 (str "2025-10-07"))));
    try reflexivity; simpl; intuition discriminate.
Defined.

(** [page.goto] times out: [main] returns 2. *)
Lemma unreachable_site_code :
  fst (main_function host (browser unreachable_site) runtime config
         (init_state 0)) = Val 2%Z.
Proof.
  apply (proj1 (main_returns_a_code host (browser unreachable_site) runtime
                  config (init_state 0)) (init_state 0));
    try reflexivity; intros w; reflexivity.
Defined.

(** The browsers are not installed: the exception of the launch leaves
    [main]. *)
Example launch_failure_leaves_main :
  fst (main_function host_without_browser (browser blank_site) runtime config
         (init_state 0)) = Exc (Error (str "Executable doesn't exist")).
Proof. reflexivity. Qed.

(** A page without a date input and without a calendar: [main] returns 0. *)
Lemma blank_site_code :
  fst (main (browser blank_site) runtime config (init_state 0)) = Val 0%Z.
Proof.
  apply (date_picker_failures_are_ignored (browser blank_site) runtime config
           (init_state 0));
    intros w; try reflexivity.
  eexists. reflexivity.
Defined.

(** The page shows an open circle, and no channel is enabled. *)
Lemma open_page_no_channel :
  looks_available (calendar_text open_site 0) = true /\
  filter is_notify
    (trace (snd (main (browser open_site) runtime config (init_state 0)))) = [].
Proof.
  split; [reflexivity|].
  apply (proj2 (proj2 (main_notifies_enabled_channels (browser open_site) runtime
                         config (init_state 0)))); reflexivity.
Defined.

Lemma not_found_entries_have_evidence :
  Forall (fun r => e_evidence r <> [])
    (results (snd (run other_days_site [oct_7; oct_8]))).
Proof.
  apply (proj2 (every_entry_has_evidence (browser other_days_site) runtime config)).
  reflexivity.
Defined.

(** The second date has two fields only. *)
Lemma two_field_date_aborts :
  (exists e, fst (run blank_site [oct_7; str "2025-10"]) = Traceback e) /\
  existsb is_summary (trace (snd (run blank_site [oct_7; str "2025-10"]))) = false.
Proof.
  apply (@malformed_date_aborts_the_batch nat (browser blank_site) runtime config
           [oct_7; str "2025-10"] (str "2025-10") 0).
  - right. left. reflexivity.
  - intros (ty & tm & td & y & m & dd & H & _). discriminate H.
Defined.

(** The first selector finds the button of the day. *)
Lemma first_selector_finds_the_day :
  exists pre sel post w1 w2,
    day_selectors 7 = pre ++ sel :: post /\
    misses (browser (site_with_cell sold_out_cell)) (Frame the_frame) pre 0 w1 /\
    query_selector (browser (site_with_cell sold_out_cell))
      (in_doc (Frame the_frame)) sel w1 = (Val (Some the_button), w2) /\
    init_state 0 = set_world w2 (init_state 0).
Proof.
  apply (proj1 (find_day_first_match (browser (site_with_cell sold_out_cell))
                  (Frame the_frame) (day_selectors 7) (init_state 0))
           the_button (init_state 0)).
  reflexivity.
Defined.

(** The second date of a batch is handled in the frame that was set
    before the loop. *)
Lemma second_date_in_the_frame :
  check_date (browser other_days_site) runtime oct_8
    (snd (date_loop (browser other_days_site) runtime [oct_7]
            (set_iframe_calendar the_frame (init_state 0))))
  = bind (parse_date runtime oct_8)
      (fun target =>
         let '(year, month, day) := target in
         bind (navigate_in_loop (browser other_days_site) (Frame the_frame)
                 year month) (fun _ =>
         bind (modify (set_verdict UNSURE)) (fun _ =>
         bind (modify (set_evidence [])) (fun _ =>
         bind (inspect_date (browser other_days_site) runtime
                 (Frame the_frame) day) (fun _ =>
         bind (take_screenshot (browser other_days_site) (Frame the_frame)
                 oct_8) (fun _ =>
         record_result oct_8))))))
      (snd (date_loop (browser other_days_site) runtime [oct_7]
              (set_iframe_calendar the_frame (init_state 0)))).
Proof.
  apply (proj2 (proj2 (calendar_document_is_fixed (browser other_days_site)
                         runtime))
           [oct_7] oct_8 (set_iframe_calendar the_frame (init_state 0))).
  vm_compute. reflexivity.
Defined.

End MoreRuns.
